(** * Canopy SDK: payload building, allocation checks and staking-pool
      resolution, embedded from the TypeScript sources.

    JavaScript values are modelled as follows: [bigint] is [Z], strings
    are [string] (one character per code unit, ASCII range), [Uint8Array]
    is [list byte], [Record<string, T>] objects are finite maps of their
    own properties, optional values are [option], and an [async] method
    that may throw is a function into [result].  Remote capabilities
    (chain view calls, the lending API, the pool index) are fields of a
    [World] record that answers each request. *)

From Stdlib Require Import ZArith Lia Ascii String List Bool.
From Stdlib Require Import Strings.Byte.
From Stdlib Require Import DecimalString DecimalFacts DecimalZ DecimalN.
From stdpp Require Import base option list strings gmap.

Local Open Scope string_scope.
Local Open Scope Z_scope.
Local Open Scope list_scope.

(** String concatenation, as in a template literal. *)
Infix "+++" := String.append (right associativity, at level 60).

(** ** JavaScript string primitives *)

Module JS.

(** [s.startsWith(p)] *)
Fixpoint startsWith (p s : string) : bool :=
  match p, s with
  | EmptyString, _ => true
  | String _ _, EmptyString => false
  | String a p', String b s' => Ascii.eqb a b && startsWith p' s'
  end.

(** [s.slice(n)] for [n >= 0] *)
Fixpoint slice_from (n : nat) (s : string) : string :=
  match n, s with
  | O, _ => s
  | S _, EmptyString => EmptyString
  | S k, String _ s' => slice_from k s'
  end.

(** [s.slice(0, n)] for [n >= 0] *)
Fixpoint slice_to (n : nat) (s : string) : string :=
  match n, s with
  | O, _ => EmptyString
  | S _, EmptyString => EmptyString
  | S k, String c s' => String c (slice_to k s')
  end.

Definition is_upper (c : ascii) : bool :=
  let n := nat_of_ascii c in (65 <=? n)%nat && (n <=? 90)%nat.

Definition lower_char (c : ascii) : ascii :=
  if is_upper c then ascii_of_nat (nat_of_ascii c + 32) else c.

(** [s.toLowerCase()] *)
Fixpoint toLowerCase (s : string) : string :=
  match s with
  | EmptyString => EmptyString
  | String c s' => String (lower_char c) (toLowerCase s')
  end.

Fixpoint repeat_char (c : ascii) (n : nat) : string :=
  match n with
  | O => EmptyString
  | S k => String c (repeat_char c k)
  end.

(** [s.padStart(n, c)] and [s.padEnd(n, c)] with a one-character filler *)
Definition padStart (n : nat) (c : ascii) (s : string) : string :=
  repeat_char c (n - String.length s) +++ s.

Definition padEnd (n : nat) (c : ascii) (s : string) : string :=
  s +++ repeat_char c (n - String.length s).

(** [s.includes(sub)] *)
Fixpoint includes (sub s : string) : bool :=
  startsWith sub s ||
  match s with
  | EmptyString => false
  | String _ s' => includes sub s'
  end.

(** [s.split(sep)] for a non-empty separator: [cur] is the segment being
    read and [skip] counts separator characters still to be dropped. *)
Fixpoint split_aux (sep s cur : string) (skip : nat) : list string :=
  match s with
  | EmptyString => [cur]
  | String c s' =>
      match skip with
      | S k => split_aux sep s' cur k
      | O =>
          if startsWith sep s
          then cur :: split_aux sep s' EmptyString (String.length sep - 1)
          else split_aux sep s' (cur +++ String c EmptyString) 0
      end
  end.

Definition split (sep s : string) : list string := split_aux sep s EmptyString 0.

(** Reading an array element inside a template literal: a missing
    element prints as [undefined]. *)
Definition template_nth (l : list string) (i : nat) : string :=
  match l !! i with
  | Some x => x
  | None => "undefined"
  end.

(** [s.replace(/0+$/, '')] *)
Fixpoint strip_trailing_zeros (s : string) : string :=
  match s with
  | EmptyString => EmptyString
  | String c s' =>
      match strip_trailing_zeros s' with
      | EmptyString => if Ascii.eqb c "0" then EmptyString else String c EmptyString
      | t => String c t
      end
  end.

(** [n.toString()] of a bigint *)
Definition toString (n : Z) : string := NilZero.string_of_int (Z.to_int n).

Definition is_hex_char (c : ascii) : bool :=
  let n := nat_of_ascii c in
  ((48 <=? n)%nat && (n <=? 57)%nat)
  || ((97 <=? n)%nat && (n <=? 102)%nat)
  || ((65 <=? n)%nat && (n <=? 70)%nat).

Fixpoint all_hex (s : string) : bool :=
  match s with
  | EmptyString => true
  | String c s' => is_hex_char c && all_hex s'
  end.

Definition hex_val (c : ascii) : option N :=
  let n := N_of_ascii c in
  if ((48 <=? n) && (n <=? 57))%N then Some (n - 48)%N
  else if ((97 <=? n) && (n <=? 102))%N then Some (n - 87)%N
  else if ((65 <=? n) && (n <=? 70))%N then Some (n - 55)%N
  else None.

Fixpoint hexToBytes (s : string) : option (list byte) :=
  match s with
  | EmptyString => Some []
  | String _ EmptyString => None
  | String a (String b s') =>
      match hex_val a, hex_val b, hexToBytes s' with
      | Some x, Some y, Some rest =>
          match Byte.of_N (16 * x + y) with
          | Some w => Some (w :: rest)
          | None => None
          end
      | _, _, _ => None
      end
  end.

(** White space and line terminators among the code units below 256. *)
Definition is_whitespace (c : ascii) : bool :=
  let n := nat_of_ascii c in
  ((9 <=? n)%nat && (n <=? 13)%nat) || (n =? 32)%nat || (n =? 160)%nat.

Fixpoint trim_start (s : string) : string :=
  match s with
  | EmptyString => EmptyString
  | String c s' => if is_whitespace c then trim_start s' else s
  end.

Fixpoint trim_end (s : string) : string :=
  match s with
  | EmptyString => EmptyString
  | String c s' =>
      match trim_end s' with
      | EmptyString => if is_whitespace c then EmptyString else String c EmptyString
      | t => String c t
      end
  end.

(** [s.trim()] *)
Definition trim (s : string) : string := trim_end (trim_start s).

(** The value of a string of digits below [radix], read after [acc]. *)
Fixpoint digits_in (radix : N) (s : string) (acc : N) : option N :=
  match s with
  | EmptyString => Some acc
  | String c s' =>
      match hex_val c with
      | Some d => if (d <? radix)%N then digits_in radix s' (acc * radix + d)%N else None
      | None => None
      end
  end.

(** One or more digits below [radix]. *)
Definition literal (radix : N) (s : string) : option Z :=
  match s with
  | EmptyString => None
  | _ => option_map Z.of_N (digits_in radix s 0)
  end.

(** One or more decimal digits. *)
Definition decimal (s : string) : option Z :=
  match s with
  | EmptyString => None
  | _ =>
      match NilEmpty.uint_of_string s with
      | Some u => Some (Z.of_N (N.of_uint u))
      | None => None
      end
  end.

(** [BigInt(s)] of a string: white space around the literal is dropped,
    nothing is [0n], a decimal literal may carry a sign, a literal with
    the prefix [0x], [0o] or [0b] may not; anything else is a
    [SyntaxError], rendered as [None]. *)
Definition BigInt (s : string) : option Z :=
  match trim s with
  | EmptyString => Some 0
  | String a rest =>
      if Ascii.eqb a "+" then decimal rest
      else if Ascii.eqb a "-" then option_map Z.opp (decimal rest)
      else
        match rest with
        | String b digits =>
            if Ascii.eqb a "0" && Ascii.eqb (lower_char b) "x" then literal 16 digits
            else if Ascii.eqb a "0" && Ascii.eqb (lower_char b) "o" then literal 8 digits
            else if Ascii.eqb a "0" && Ascii.eqb (lower_char b) "b" then literal 2 digits
            else decimal (String a rest)
        | EmptyString => decimal (String a rest)
        end
  end.

(** The members an object literal inherits from [Object.prototype]; a
    property read finds them when the object has no own property of that
    name, and every one of them is a function or an object, hence truthy. *)
Definition Object_prototype_members : list string :=
  [ "constructor"; "__defineGetter__"; "__defineSetter__"; "hasOwnProperty";
    "__lookupGetter__"; "__lookupSetter__"; "isPrototypeOf";
    "propertyIsEnumerable"; "toString"; "valueOf"; "__proto__";
    "toLocaleString" ].

Definition inherited (key : string) : bool :=
  existsb (String.eqb key) Object_prototype_members.

(** What [obj[key]] reads on an object literal whose own properties are
    the entries of [obj]. *)
Inductive Property (V : Type) :=
  | Own (v : V)
  | Member (name : string)
  | Undefined.
Arguments Own {V} v.
Arguments Member {V} name.
Arguments Undefined {V}.

Definition get {V} (obj : gmap string V) (key : string) : Property V :=
  match obj !! key with
  | Some v => Own v
  | None => if inherited key then Member key else Undefined
  end.

(** [key in obj] *)
Definition has {V} (obj : gmap string V) (key : string) : bool :=
  bool_decide (is_Some (obj !! key)) || inherited key.

(** Truthiness of a property read whose own values are strings. *)
Definition truthy_property (p : Property string) : bool :=
  match p with
  | Own s => negb (String.eqb s EmptyString)
  | Member _ => true
  | Undefined => false
  end.

End JS.

(** ** Errors *)

Inductive CanopyErrorCode :=
  | VAULT_PAUSED
  | NETWORK_ERROR
  | VAULT_NOT_FOUND
  | AMOUNT_TOO_SMALL
  | INVALID_VAULT_ADDRESS
  | INVALID_USER_ADDRESS
  | INVALID_TOKEN_ADDRESS
  | INVALID_POOL_ADDRESS
  | INVALID_INPUT
  | TRANSACTION_BUILD_FAILED
  | INSUFFICIENT_BALANCE
  | PACKET_GENERATION_FAILED
  | STAKING_POOLS_NOT_FOUND.

(** The [details] payload of a [CanopyError] is diagnostic only and is
    not represented. *)
Record CanopyError := mkCanopyError { message : string; code : CanopyErrorCode }.

(** What a [throw] carries: a [CanopyError], or any other exception. *)
Inductive exn :=
  | Canopy (e : CanopyError)
  | Native (what : string).

Inductive result (A : Type) :=
  | Ok (a : A)
  | Throw (x : exn).
Arguments Ok {A} a.
Arguments Throw {A} x.

Definition bind {A B} (m : result A) (k : A -> result B) : result B :=
  match m with
  | Ok a => k a
  | Throw x => Throw x
  end.

Notation "'do' x <- m ; k" := (bind m (fun x => k))
  (at level 10, x name, m at level 100, k at level 200).

Definition raise {A} (msg : string) (c : CanopyErrorCode) : result A :=
  Throw (Canopy (mkCanopyError msg c)).

(** [try { body } catch (error) { handler }] *)
Definition try_catch {A} (body : result A) (handler : exn -> result A) : result A :=
  match body with
  | Ok a => Ok a
  | Throw x => handler x
  end.

(** The recurring handler
    [if (error instanceof CanopyError) throw error; throw new CanopyError(msg, c)]. *)
Definition rethrow_or_wrap {A} (msg : string) (c : CanopyErrorCode) (x : exn) : result A :=
  match x with
  | Canopy e => Throw (Canopy e)
  | Native _ => raise msg c
  end.

Definition thrown_code {A} (r : result A) : option CanopyErrorCode :=
  match r with
  | Throw (Canopy e) => Some (code e)
  | _ => None
  end.

(** ** Constants ([constants.ts], [pool-mappings.ts]) *)

Definition DEFAULT_MIN_SHARES_OUT : string := "0".
Definition DEFAULT_MAX_LOSS : string := "100".
Definition WITHDRAW_MIN_AMOUNT_OUT : string := "0".
Definition WITHDRAW_MIN_AMOUNT_OUT_MOVEPOSITION : string := "100".
Definition EMPTY_STRATEGIES : list string := [].
Definition EMPTY_PACKETS : list (list byte) := [].

Definition MOVEMENT_MAINNET : string := "movement-mainnet".
Definition NETWORK_API_NAME_DEFAULT : string := "aptos".

Definition MOVEPOSITION_LEND : string := "lend".
Definition MOVEPOSITION_REDEEM : string := "redeem".
Definition ENDPOINT_PORTFOLIOS : string := "/portfolios/".
Definition ENDPOINT_BROKERS_LEND : string := "/brokers/lend/v2".
Definition ENDPOINT_BROKERS_REDEEM : string := "/brokers/redeem/v2".

Definition ECHELON_SIMPLE_CONCRETE_ADDRESS : string :=
  "0x5d2b6a8b6478d86f62c9d3378e2a1fa265e85e69046946632d1fecae1940e851".
Definition MERIDIAN_SIMPLE_CONCRETE_ADDRESS : string :=
  "0x133b23036f4ac78279fd4cc75b798ccfe2d3c002585049d7483230653b924b7d".
Definition LAYERBANK_SIMPLE_CONCRETE_ADDRESS : string :=
  "0xad1b34939f164ec6f6c0157da3a30bf9e5d408250978691872a79aa584852b85".
Definition MOVEPOSITION_SIMPLE_CONCRETE_ADDRESS : string :=
  "0xd7c7b27e361434e18d2410fd02f7140a8c10d174c9be0efd5324578d243953bd".

Definition MAINNET_VIRTUAL (coin : string) : string :=
  "0xccd2621d2897d407e06d18e6ebe3be0e6d9b61f1e809dd49360522b9105812cf::coins::" +++ coin.

Definition MAINNET_MOVEVEPOSITION_NAMES_MAP : gmap string string :=
  list_to_map
    [ (MAINNET_VIRTUAL "MOVE", "movement-move-fa");
      (MAINNET_VIRTUAL "USDC", "movement-usdc");
      (MAINNET_VIRTUAL "USDt", "movement-usdt");
      (MAINNET_VIRTUAL "WETH", "movement-weth");
      (MAINNET_VIRTUAL "WBTC", "movement-wbtc");
      (MAINNET_VIRTUAL "EZETH", "movement-ezeth");
      (MAINNET_VIRTUAL "RSETH", "movement-rseth");
      (MAINNET_VIRTUAL "STBTC", "movement-stbtc") ].

Definition MAINNET_MOVEVEPOSITION_VIRTUAL_COIN_MAP : gmap string string :=
  list_to_map
    [ ("0x000000000000000000000000000000000000000000000000000000000000000a",
       MAINNET_VIRTUAL "MOVE");
      ("0x83121c9f9b0527d1f056e21a950d6bf3b9e9e2e8353d0e95ccea726713cbea39",
       MAINNET_VIRTUAL "USDC");
      ("0x447721a30109c662dde9c73a0c2c9c9c459fb5e5a9c92f03c50fa69737f5d08d",
       MAINNET_VIRTUAL "USDt");
      ("0x908828f4fb0213d4034c3ded1630bbd904e8a3a6bf3c63270887f0b06653a376",
       MAINNET_VIRTUAL "WETH");
      ("0xb06f29f24dde9c6daeec1f930f14a441a8d6c0fbea590725e88b340af3e1939c",
       MAINNET_VIRTUAL "WBTC");
      ("0x2f6af255328fe11b88d840d1e367e946ccd16bd7ebddd6ee7e2ef9f7ae0c53ef",
       MAINNET_VIRTUAL "EZETH");
      ("0x51ffc9885233adf3dd411078cad57535ed1982013dc82d9d6c433a55f2e0035d",
       MAINNET_VIRTUAL "RSETH");
      ("0x95c0fd13373299ada1b9f09ff62473ab8b3908e6a30011730210c141dffdc990",
       MAINNET_VIRTUAL "STBTC") ].

(** Static mapping of staking tokens to their pool addresses. *)
Definition STAKING_TOKEN_POOL_MAPPINGS : gmap string (list string) :=
  list_to_map
    [ ("0xe005014fbdd053aebf97b9a36dfeed790d337f571fa9d37690f527acb3015e02",
       [ "0x7bf3653bf8b02d19b56916daaf959b95b4564ecd35d9abdb323d0690d5fdd0e7";
         "0xc1d2493f1ecc4ce35726fb0a48719752ce573f6aead45f35703193c021af3001" ]);
      ("0x3d871f7475a839376b5567de59807db876203c628f71c75dbeefdb60139a10f8",
       [ "0x12d57c3d4bb2b73726196d5e112406220773cba576577a47b4b45db57e578411" ]);
      ("0x1d42fda1a3eac95ebcb4a35ba7f2c76c35855800c9fbf45a5255d146b5bac15",
       [ "0xf7ce62c86bb4789e9f7b9a8effbe38e53aab6b28bd536ed5f0f898ae58a0df89";
         "0xff22e2f44b858bcfd6477ddf1e4ee561bbc4c2624eaa33c58a51eaecfc13087b" ]) ].

(** ** Data model *)

(** [VaultBaseStrategyView] and [VaultView], with the fields the payload
    pipeline reads. *)
Record VaultBaseStrategyView := {
  strategyAddress : string;
  concreteAddress : string
}.

Record VaultView := {
  vaultAddress : string;
  assetName : string;
  assetAddress : string;
  sharesAddress : string;
  pairedCoinType : option string;
  strategies : list VaultBaseStrategyView
}.

Record AllocationMap := {
  alloc_strategies : list string;
  alloc_amounts : list Z
}.

Record PacketData := {
  strategy : string;
  packet : list byte
}.

Record MovePositionConfig := {
  apiUrl : string;
  nameMap : gmap string string;
  virtualCoinMap : gmap string string
}.

Record PacketGeneratorOptions := {
  opt_vaultAddress : string;
  opt_network : option string;
  opt_routerAddress : option string;
  virtualCoinType : string;
  opt_movepositionConfig : option MovePositionConfig
}.

Inductive Operation := deposit_op | withdraw_op.

Record PortfolioEntry := { instrument_name : string; entry_amount : string }.
Record PortfolioData := {
  collaterals : list PortfolioEntry;
  liabilities : list PortfolioEntry
}.
Record PortfolioState := {
  st_collaterals : list (string * string);
  st_liabilities : list (string * string)
}.
(** The body of a packet request; [brokerName] is whatever the read of
    [nameMap] gave. *)
Record CreatePacketRequest := {
  req_amount : string;
  req_network : string;
  req_signerPubkey : string;
  req_currentPortfolioState : PortfolioState;
  req_brokerName : JS.Property string
}.

(** One argument of an entry-function payload. *)
Inductive Arg :=
  | AStr (s : string)
  | AStrs (l : list string)
  | ABytes (l : list (list byte)).

Record InputEntryFunctionData := {
  function : string;
  typeArguments : list string;
  functionArguments : list Arg
}.

(** What the parser observes of a value in amount position: a falsy
    value of a map entry or a missing or null pair component ([RvAbsent]),
    a value [BigInt] reads as [n], or a truthy value [BigInt] rejects. *)
Inductive RawValue :=
  | RvAbsent
  | RvNumeric (n : Z)
  | RvMalformed.

(** An entry of [data] that is not null: [entry_key] is
    [String(entry.key.inner)] when [entry.key] is truthy. *)
Record RawEntry := { entry_key : option string; entry_value : RawValue }.

(** The shapes [parseAllocationMap] distinguishes in a view result:
    an object with a truthy iterable [data], whose null or undefined
    entries are [None]; an object whose truthy [data] cannot be iterated;
    an array without [data], whose elements that cannot be destructured
    are [None]; anything else (a primitive, null, an object without
    [data] that is no array). *)
Inductive RawAllocation :=
  | RawSimpleMap (data : list (option RawEntry))
  | RawDataNotIterable
  | RawPairs (pairs : list (option (string * RawValue)))
  | RawOther.

Record MRStakingPool := { pool_id : string; staking_token : string }.

(** Addresses read from the ABI json files. *)
Record Abis := {
  ROUTER_ABI_address : string;
  MULTI_REWARDS_ABI_address : string;
  MULTI_REWARDS_ROUTER_ABI_address : string
}.

(** *** The GraphQL clients and their caches *)

Definition CACHE_TIMEOUT_MS : Z := 60000.
Definition GRAPHQL_ENDPOINT : string :=
  "https://rwf3uyiewzdnhavtega3imkynm.appsync-api.us-east-1.amazonaws.com/graphql".
Definition SENTIO_MULTI_REWARDS_ENDPOINT : string :=
  "https://app.sentio.xyz/api/v1/graphql/solo-labs/canopy-multi-rewards-movement".
Definition FAILED_TO_FETCH_METADATA : string :=
  "Failed to fetch vault metadata from GraphQL API".

(** What comes back from one POST to a GraphQL endpoint: [fetch] or
    [response.json()] rejects, the status is not ok, the body lists
    errors, the body has no data of the expected shape, or it has. *)
Inductive Reply (A : Type) :=
  | FetchFails
  | HttpError
  | GraphQLErrors
  | NoData
  | Data (payload : A).
Arguments FetchFails {A}.
Arguments HttpError {A}.
Arguments GraphQLErrors {A}.
Arguments NoData {A}.
Arguments Data {A} payload.

(** The request body and the one optional header; the query text is a
    constant of the operation and is not represented. *)
Record GraphQLRequest := {
  operationName : string;
  variables : option string;
  api_key_header : option string
}.

(** A cache entry: [{ data, timestamp }]. *)
Record Cached (A : Type) := { cached_data : A; cached_timestamp : Z }.
Arguments cached_data {A} _.
Arguments cached_timestamp {A} _.

(** Remote capabilities.  [None] stands for a call that throws (transport
    failure, non-OK status, undecodable body).  [pools_endpoint] is the
    pool index behind its GraphQL endpoint, and [date_now] holds the two
    readings of [Date.now()] a fetch of the pool index makes, before and
    after its request. *)
Record World := {
  vault_view : string -> option VaultView;
  is_paused : string -> option bool;
  get_allocations_view : string -> string -> option RawAllocation;
  get_withdrawal_map_view : string -> string -> option RawAllocation;
  withdrawal_amount_view : string -> string -> string -> option Z;
  is_user_subscribed : string -> string -> option bool;
  get_portfolio : string -> option PortfolioData;
  post_packet : string -> CreatePacketRequest -> option string;
  pools_endpoint : string -> GraphQLRequest -> Reply (list MRStakingPool);
  date_now : Z * Z
}.

(** JavaScript truthiness of a string. *)
Definition truthy (s : string) : bool := negb (String.eqb s EmptyString).

(** ** strategy-allocator.ts *)

Module StrategyAllocator.

(** One round of the [allocationMap.data] loop. *)
Definition parse_entry (acc : result (list string * list Z))
    (entry : option RawEntry) : result (list string * list Z) :=
  do a <- acc;
  match entry with
  | None => Throw (Native "TypeError")
  | Some entry =>
      match entry_key entry, entry_value entry with
      | Some inner, RvNumeric n => Ok (a.1 ++ [inner], a.2 ++ [n])
      | Some inner, RvMalformed => Throw (Native "SyntaxError")
      | _, _ => Ok a
      end
  end.

(** One round of the array-of-pairs loop. *)
Definition parse_pair (acc : result (list string * list Z))
    (element : option (string * RawValue)) : result (list string * list Z) :=
  do a <- acc;
  match element with
  | None => Throw (Native "TypeError")
  | Some p =>
      match p.2 with
      | RvNumeric n => Ok (a.1 ++ [p.1], a.2 ++ [n])
      | RvAbsent => Throw (Native "TypeError")
      | RvMalformed => Throw (Native "SyntaxError")
      end
  end.

(** One round of the [filterZeroAllocations] loop at index [i]. *)
Definition filter_step (strats : list string) (amts : list Z)
    (acc : list string * list Z) (i : nat) : list string * list Z :=
  match amts !! i, strats !! i with
  | Some amount, Some strat =>
      if negb (amount =? 0) && truthy strat && (amount >? 0)
      then (acc.1 ++ [strat], acc.2 ++ [amount])
      else acc
  | _, _ => acc
  end.

Definition filterZeroAllocations (strats : list string) (amts : list Z)
  : AllocationMap :=
  let bound := Nat.min (length strats) (length amts) in
  let r := fold_left (filter_step strats amts) (seq 0 bound) ([], []) in
  {| alloc_strategies := r.1; alloc_amounts := r.2 |}.

Definition parseAllocationMap (allocationMap : RawAllocation) : result AllocationMap :=
  try_catch
    (do r <- match allocationMap with
             | RawSimpleMap data => fold_left parse_entry data (Ok ([], []))
             | RawDataNotIterable => Throw (Native "TypeError")
             | RawPairs pairs => fold_left parse_pair pairs (Ok ([], []))
             | RawOther => Ok ([], [])
             end;
     Ok (filterZeroAllocations r.1 r.2))
    (fun _ => raise "Failed to parse allocation map" TRANSACTION_BUILD_FAILED).

Definition view_or_throw {A} (r : option A) : result A :=
  match r with
  | Some a => Ok a
  | None => Throw (Native "view call failed")
  end.

Definition getOptimalAllocation (W : World) (vaultAddress : string) (amount : Z)
  : result AllocationMap :=
  try_catch
    (do allocationMap <-
        view_or_throw (get_allocations_view W vaultAddress (JS.toString amount));
     parseAllocationMap allocationMap)
    (fun _ => raise "Failed to get optimal allocation" TRANSACTION_BUILD_FAILED).

(** Gets withdrawal map for vault shares *)
Definition getAllocationMap (W : World) (vaultAddress : string) (shares : Z)
  : result AllocationMap :=
  try_catch
    (do allocationMap <-
        view_or_throw (get_withdrawal_map_view W vaultAddress (JS.toString shares));
     parseAllocationMap allocationMap)
    (fun _ => raise "Failed to get withdrawal map" TRANSACTION_BUILD_FAILED).

(** Validates that allocations are reasonable *)
Definition validateAllocation (allocation : AllocationMap) (totalAmount : Z)
  : result unit :=
  if (length (alloc_strategies allocation) =? 0)%nat then
    raise "No strategies available for allocation" TRANSACTION_BUILD_FAILED
  else if negb (length (alloc_strategies allocation)
                =? length (alloc_amounts allocation))%nat then
    raise "Mismatched strategies and amounts" TRANSACTION_BUILD_FAILED
  else
    let allocatedTotal :=
      fold_left (fun sum amount => sum + amount) (alloc_amounts allocation) 0 in
    let tolerance := Z.quot totalAmount 1000 in
    let diff :=
      if allocatedTotal >? totalAmount
      then allocatedTotal - totalAmount
      else totalAmount - allocatedTotal in
    if diff >? tolerance then
      raise "Allocation total does not match deposit amount" TRANSACTION_BUILD_FAILED
    else Ok tt.

End StrategyAllocator.

(** ** packet-generator.ts *)

Module PacketGenerator.

(** [Hex.fromHexString(str).toUint8Array()] of the Aptos SDK: an optional
    [0x] prefix, then a non-empty, even number of hex digits. *)
Definition fromHexString (str : string) : result (list byte) :=
  let input := if JS.startsWith "0x" str then JS.slice_from 2 str else str in
  if (String.length input =? 0)%nat then Throw (Native "ParsingError: too short")
  else match JS.hexToBytes input with
       | Some bytes => Ok bytes
       | None => Throw (Native "ParsingError: invalid hex")
       end.

Definition getNetworkApiName (network : string) : string :=
  if String.eqb network MOVEMENT_MAINNET then "movement-mainnet"
  else NETWORK_API_NAME_DEFAULT.

Definition getPortfolioData (W : World) (address movepositionApiUrl : string)
  : result PortfolioData :=
  let url := movepositionApiUrl +++ ENDPOINT_PORTFOLIOS +++ address in
  match get_portfolio W url with
  | Some p => Ok p
  | None => Throw (Native "Failed to fetch portfolio data")
  end.

Definition computePortfolioState (W : World) (address movepositionApiUrl : string)
  : result PortfolioState :=
  try_catch
    (do portfolio <- getPortfolioData W address movepositionApiUrl;
     Ok {| st_collaterals :=
             map (fun c => (instrument_name c, entry_amount c)) (collaterals portfolio);
           st_liabilities :=
             map (fun l => (instrument_name l, entry_amount l)) (liabilities portfolio) |})
    (fun _ => raise "Failed to get portfolio state" PACKET_GENERATION_FAILED).

Definition createPacket (W : World) (operation : string)
    (data : CreatePacketRequest) (movepositionApiUrl : string) : result string :=
  let endpoint :=
    if String.eqb operation MOVEPOSITION_LEND
    then ENDPOINT_BROKERS_LEND else ENDPOINT_BROKERS_REDEEM in
  let url := movepositionApiUrl +++ endpoint in
  match post_packet W url data with
  | Some pkt => Ok pkt
  | None => Throw (Native "Failed to create packet")
  end.

Definition computePacketData (W : World)
    (address : string) (brokerName : JS.Property string)
    (amount operation movepositionApiUrl network : string)
  : result (list byte) :=
  try_catch
    (do portfolioState <- computePortfolioState W address movepositionApiUrl;
     let requestData :=
       {| req_amount := amount;
          req_network := "aptos";
          req_signerPubkey := address;
          req_currentPortfolioState := portfolioState;
          req_brokerName := brokerName |} in
     do packetResponse <- createPacket W operation requestData movepositionApiUrl;
     fromHexString packetResponse)
    (fun _ => raise "Failed to compute packet data" PACKET_GENERATION_FAILED).

(** The view answers with a numeric string; a failed call, or an answer
    [Number] and [BigInt] do not both accept, is [None]. *)
Definition getExactAmount (W : World) (strategyAddress : string) (amount : Z)
    (pairedCoinType : string) : Z :=
  match withdrawal_amount_view W strategyAddress (JS.toString amount) pairedCoinType with
  | Some exactAmount => if negb (exactAmount =? 0) then exactAmount else 0
  | None => 0
  end.

Definition generateSinglePacket (W : World) (network : string)
    (strategyAddress : string) (amount : Z) (operation : Operation)
    (options : PacketGeneratorOptions) : result (list byte) :=
  match opt_movepositionConfig options with
  | None => Ok []
  | Some movepositionConfig =>
      if negb (truthy (apiUrl movepositionConfig)) then Ok []
      else
        let brokerName :=
          JS.get (nameMap movepositionConfig) (virtualCoinType options) in
        if negb (JS.truthy_property brokerName) then Ok []
        else
          let exactAmount :=
            match operation with
            | withdraw_op =>
                getExactAmount W strategyAddress amount (virtualCoinType options)
            | deposit_op => amount
            end in
          if exactAmount =? 0 then Ok []
          else
            computePacketData W strategyAddress brokerName
              (JS.toString exactAmount)
              (match operation with
               | deposit_op => MOVEPOSITION_LEND
               | withdraw_op => MOVEPOSITION_REDEEM
               end)
              (apiUrl movepositionConfig)
              (getNetworkApiName network)
  end.

(** One round of the [generatePackets] loop at index [i]. *)
Definition generate_step (W : World) (network : string)
    (strats : list string) (amts : list Z) (operation : Operation)
    (options : PacketGeneratorOptions)
    (packets : list PacketData) (i : nat) : list PacketData :=
  match strats !! i, amts !! i with
  | Some strat, Some amount =>
      if negb (truthy strat) then packets
      else if amount =? 0 then packets ++ [{| strategy := strat; packet := [] |}]
      else
        match generateSinglePacket W network strat amount operation options with
        | Ok pkt => packets ++ [{| strategy := strat; packet := pkt |}]
        | Throw _ => packets ++ [{| strategy := strat; packet := [] |}]
        end
  | _, _ => packets
  end.

Definition generatePackets (W : World) (network : string)
    (strats : list string) (amts : list Z) (operation : Operation)
    (options : PacketGeneratorOptions) : result (list PacketData) :=
  if negb (length strats =? length amts)%nat then
    raise "Strategies and amounts arrays must have the same length"
          PACKET_GENERATION_FAILED
  else
    Ok (fold_left (generate_step W network strats amts operation options)
                  (seq 0 (length strats)) []).

(** [packets.find((p) => p.strategy === strategy)] *)
Definition find_packet (packets : list PacketData) (strat : string)
  : option PacketData :=
  List.find (fun p => String.eqb (strategy p) strat) packets.

Definition non_empty (bytes : list byte) : bool := (0 <? length bytes)%nat.

Definition push_allocated (packets : list PacketData)
    (acc : list string * list (list byte)) (strat : string)
  : list string * list (list byte) :=
  match find_packet packets strat with
  | Some p =>
      if non_empty (packet p) then (acc.1 ++ [strat], acc.2 ++ [packet p]) else acc
  | None => acc
  end.

Definition push_generated (acc : list string * list (list byte)) (p : PacketData)
  : list string * list (list byte) :=
  if non_empty (packet p) then (acc.1 ++ [strategy p], acc.2 ++ [packet p]) else acc.

(** Returns [(packetStrategies, packetData)]. *)
Definition createPacketArrays (packets : list PacketData)
    (allocation : option AllocationMap) : list string * list (list byte) :=
  if (length packets =? 0)%nat then ([], [])
  else
    match allocation with
    | Some a => fold_left (push_allocated packets) (alloc_strategies a) ([], [])
    | None => fold_left push_generated packets ([], [])
    end.

End PacketGenerator.

(** ** vault-detector.ts *)

Module VaultDetector.

(** [/^0x[a-fA-F0-9]{1,64}$/.test(address)] *)
Definition isValidAddress (address : string) : bool :=
  JS.startsWith "0x" address
  && (1 <=? String.length (JS.slice_from 2 address))%nat
  && (String.length (JS.slice_from 2 address) <=? 64)%nat
  && JS.all_hex (JS.slice_from 2 address).

(** Checks if vault is paused *)
Definition checkVaultPaused (W : World) (vaultAddress : string) : result bool :=
  match is_paused W vaultAddress with
  | Some isPaused => Ok isPaused
  | None => raise "Vault not found or inaccessible" VAULT_NOT_FOUND
  end.

(** Get complete vault details using vault_view *)
Definition getVaultDetails (W : World) (vaultAddress : string) : result VaultView :=
  match vault_view W vaultAddress with
  | Some vaultView => Ok vaultView
  | None => raise "Failed to get vault details" VAULT_NOT_FOUND
  end.

(** Normalize address by removing 0x prefix and padding *)
Definition normalizeAddress (value : string) : string :=
  let value := if JS.startsWith "0x" value then JS.slice_from 2 value else value in
  JS.padStart 64 "0" (JS.toLowerCase value).

(** [vault.strategies[0]?.concreteAddress], with [None] when falsy. *)
Definition first_concrete (vault : VaultView) : option string :=
  match strategies vault !! 0%nat with
  | Some s => if truthy (concreteAddress s) then Some (concreteAddress s) else None
  | None => None
  end.

Definition is_platform (constant : string) (vault : VaultView) : bool :=
  match first_concrete vault with
  | None => false
  | Some concrete =>
      String.eqb (normalizeAddress concrete) (normalizeAddress constant)
  end.

Definition isMovePosition := is_platform MOVEPOSITION_SIMPLE_CONCRETE_ADDRESS.
Definition isEchelon := is_platform ECHELON_SIMPLE_CONCRETE_ADDRESS.
Definition isLayerBank := is_platform LAYERBANK_SIMPLE_CONCRETE_ADDRESS.
Definition isMeridian := is_platform MERIDIAN_SIMPLE_CONCRETE_ADDRESS.

(** Get platform name for a vault *)
Definition getPlatformName (vault : VaultView) : string :=
  if isMovePosition vault then "MovePosition"
  else if isEchelon vault then "Echelon"
  else if isLayerBank vault then "LayerBank"
  else if isMeridian vault then "Meridian"
  else "Satay".

End VaultDetector.

(** ** transaction-builder.ts *)

Module TransactionBuilder.

Record t := {
  network : string;
  movepositionConfig : option MovePositionConfig
}.

(** [new TransactionBuilder(aptos, options)] *)
Definition new (opt_network : option string)
    (opt_config : option MovePositionConfig) : t :=
  {| network := match opt_network with
                | Some n => if truthy n then n else MOVEMENT_MAINNET
                | None => MOVEMENT_MAINNET
                end;
     movepositionConfig := opt_config |}.

Definition normalizeAddress (value : string) : string :=
  let value := if JS.startsWith "0x" value then JS.slice_from 2 value else value in
  let address := JS.padStart (32 * 2) "0" (JS.toLowerCase value) in
  "0x" +++ address.

Definition normalizeTypeName (value : string) : string :=
  let typeSplit := JS.split "::" value in
  let pkg := JS.template_nth typeSplit 0 in
  let pkg := if JS.startsWith "@" pkg then JS.slice_from 1 pkg else pkg in
  let address := normalizeAddress pkg in
  address +++ "::" +++ JS.template_nth typeSplit 1
          +++ "::" +++ JS.template_nth typeSplit 2.

Definition is_platform (constant : string) (vault : VaultView) : bool :=
  match VaultDetector.first_concrete vault with
  | None => false
  | Some concrete =>
      String.eqb (normalizeAddress concrete) (normalizeAddress constant)
  end.

Definition isMovePosition := is_platform MOVEPOSITION_SIMPLE_CONCRETE_ADDRESS.
Definition isEchelon := is_platform ECHELON_SIMPLE_CONCRETE_ADDRESS.
Definition isLayerBank := is_platform LAYERBANK_SIMPLE_CONCRETE_ADDRESS.
Definition isMeridian := is_platform MERIDIAN_SIMPLE_CONCRETE_ADDRESS.

(** [getNetworkConfig]: the only configured network is Movement mainnet,
    and every other name falls back to it. *)
Definition getMovePositionConfig (tb : t) : option MovePositionConfig :=
  match movepositionConfig tb with
  | Some c => Some c
  | None =>
      Some {| apiUrl := "https://api.moveposition.xyz";
              nameMap := MAINNET_MOVEVEPOSITION_NAMES_MAP;
              virtualCoinMap := MAINNET_MOVEVEPOSITION_VIRTUAL_COIN_MAP |}
  end.

(** Generates packets for MovePosition vaults if needed *)
Definition generatePacketsIfNeeded (abis : Abis) (W : World) (tb : t)
    (vault : VaultView) (strats : list string) (amts : list Z)
    (operation : Operation) (vaultAddress : string) : result (list PacketData) :=
  if negb (isMovePosition vault) then Ok []
  else
    let moveConfig := getMovePositionConfig tb in
    (* The key is a normalised address; it starts with 0x, which no member
       of Object.prototype does, so the read sees own properties only. *)
    let virtualCoin :=
      match moveConfig with
      | Some c => default EmptyString
                    (virtualCoinMap c !! normalizeAddress (assetAddress vault))
      | None => EmptyString
      end in
    let packetOptions :=
      {| opt_vaultAddress := vaultAddress;
         virtualCoinType := virtualCoin;
         opt_network := Some (network tb);
         opt_routerAddress := Some (ROUTER_ABI_address abis);
         opt_movepositionConfig := moveConfig |} in
    PacketGenerator.generatePackets W (network tb) strats amts operation packetOptions.

(** Creates deposit payload based on vault type *)
Definition createDepositPayload (abis : Abis) (vault : VaultView)
    (vaultAddress : string) (allocation : AllocationMap)
    (packets : list PacketData) (amount : Z) : InputEntryFunctionData :=
  if isEchelon vault then
    let coinTypeName := normalizeTypeName (default EmptyString (pairedCoinType vault)) in
    {| function := ROUTER_ABI_address abis +++ "::router::deposit_coin";
       typeArguments := [coinTypeName; coinTypeName];
       functionArguments :=
         [ AStr vaultAddress; AStrs EMPTY_STRATEGIES; ABytes EMPTY_PACKETS;
           AStr (JS.toString amount); AStr DEFAULT_MIN_SHARES_OUT ] |}
  else
    let coinTypeName :=
      normalizeTypeName
        (default "0x1::aptos_coin::AptosCoin" (pairedCoinType vault)) in
    let '(packetStrategies, packetData) :=
      PacketGenerator.createPacketArrays packets (Some allocation) in
    {| function := ROUTER_ABI_address abis +++ "::router::deposit_fa_with_coin_type";
       typeArguments := [coinTypeName];
       functionArguments :=
         [ AStr vaultAddress; AStrs packetStrategies; ABytes packetData;
           AStr (JS.toString amount); AStr DEFAULT_MIN_SHARES_OUT ] |}.

(** Creates withdrawal payload based on vault type; [maxLoss] is the
    optional last parameter. *)
Definition createWithdrawPayload (abis : Abis) (vault : VaultView)
    (vaultAddress : string) (allocationMap : AllocationMap)
    (packets : list PacketData) (shares : Z) (maxLoss : option string)
  : InputEntryFunctionData :=
  let maxLoss := default DEFAULT_MAX_LOSS maxLoss in
  if isEchelon vault then
    let coinTypeName := normalizeTypeName (default EmptyString (pairedCoinType vault)) in
    {| function := ROUTER_ABI_address abis +++ "::router::withdraw_coin";
       typeArguments := [coinTypeName; coinTypeName];
       functionArguments :=
         [ AStr vaultAddress; AStrs EMPTY_STRATEGIES; ABytes EMPTY_PACKETS;
           AStr (JS.toString shares); AStr maxLoss; AStr WITHDRAW_MIN_AMOUNT_OUT ] |}
  else
    let coinTypeName :=
      normalizeTypeName
        (default "0x1::aptos_coin::AptosCoin" (pairedCoinType vault)) in
    let '(packetStrategies, packetData) :=
      PacketGenerator.createPacketArrays packets (Some allocationMap) in
    {| function := ROUTER_ABI_address abis +++ "::router::withdraw_fa_with_coin_type";
       typeArguments := [coinTypeName];
       functionArguments :=
         [ AStr vaultAddress; AStrs packetStrategies; ABytes packetData;
           AStr (JS.toString shares); AStr maxLoss;
           AStr WITHDRAW_MIN_AMOUNT_OUT_MOVEPOSITION ] |}.

(** Builds deposit payload with zero configuration required from integrator *)
Definition buildDepositPayload (abis : Abis) (W : World) (tb : t)
    (vaultAddress : string) (amount : Z) : result InputEntryFunctionData :=
  try_catch
    (do vault <- VaultDetector.getVaultDetails W vaultAddress;
     do allocation <- StrategyAllocator.getOptimalAllocation W vaultAddress amount;
     do _ <- StrategyAllocator.validateAllocation allocation amount;
     do packets <- generatePacketsIfNeeded abis W tb vault
                     (alloc_strategies allocation) (alloc_amounts allocation)
                     deposit_op vaultAddress;
     Ok (createDepositPayload abis vault vaultAddress allocation packets amount))
    (rethrow_or_wrap "Failed to build deposit transaction" TRANSACTION_BUILD_FAILED).

(** Builds withdrawal payload with zero configuration required from integrator *)
Definition buildWithdrawPayload (abis : Abis) (W : World) (tb : t)
    (vaultAddress : string) (shares : Z) : result InputEntryFunctionData :=
  try_catch
    (do vault <- VaultDetector.getVaultDetails W vaultAddress;
     do allocationMap <- StrategyAllocator.getAllocationMap W vaultAddress shares;
     do packets <- generatePacketsIfNeeded abis W tb vault
                     (alloc_strategies allocationMap) (alloc_amounts allocationMap)
                     withdraw_op vaultAddress;
     Ok (createWithdrawPayload abis vault vaultAddress allocationMap packets shares None))
    (rethrow_or_wrap "Failed to build withdraw transaction" TRANSACTION_BUILD_FAILED).

End TransactionBuilder.

(** ** pool-mappings.ts *)

(** [stakingToken in STAKING_TOKEN_POOL_MAPPINGS] *)
Definition hasStaticPoolMapping (stakingToken : string) : bool :=
  JS.has STAKING_TOKEN_POOL_MAPPINGS stakingToken.

(** [STAKING_TOKEN_POOL_MAPPINGS[stakingToken] || []].  For the name of a
    member of [Object.prototype] the read gives that member, which is no
    array of pools; [stakeVaultShares], the caller, asks only for tokens
    that start with [0x], which no such name does, and the model lists no
    pool for them. *)
Definition getStaticPoolMapping (stakingToken : string) : list string :=
  match JS.get STAKING_TOKEN_POOL_MAPPINGS stakingToken with
  | JS.Own pools => pools
  | JS.Member _ => []
  | JS.Undefined => []
  end.

(** ** multi-rewards-gql-client.ts *)

Module MultiRewardsGQLClient.

Record t := {
  endpoint : string;
  apiKey : option string;
  cache : gmap string (Cached (list MRStakingPool));
  cacheTimeout : Z
}.

(** [new MultiRewardsGQLClient(apiKey, endpoint)] *)
Definition new (apiKey : option string) (opt_endpoint : option string) : t :=
  {| endpoint := match opt_endpoint with
                 | Some e => if truthy e then e else SENTIO_MULTI_REWARDS_ENDPOINT
                 | None => SENTIO_MULTI_REWARDS_ENDPOINT
                 end;
     apiKey := apiKey;
     cache := ∅;
     cacheTimeout := CACHE_TIMEOUT_MS |}.

Definition hasApiKey (c : t) : bool :=
  match apiKey c with
  | Some k => truthy k
  | None => false
  end.

(** [if (this.apiKey) headers["api-key"] = this.apiKey] *)
Definition api_key_of (c : t) : option string :=
  match apiKey c with
  | Some k => if truthy k then Some k else None
  | None => None
  end.

(** The body shared by the two fetch methods, which differ in the cache
    key and in the request.  [now] and [later] are the two readings of
    [Date.now()], before and after the request. *)
Definition fetch_cached (c : t) (cacheKey : string) (request : GraphQLRequest)
    (server : string -> GraphQLRequest -> Reply (list MRStakingPool))
    (now later : Z) : t * result (list MRStakingPool) :=
  let consult :=
    match server (endpoint c) request with
    | Data pools =>
        ({| endpoint := endpoint c;
            apiKey := apiKey c;
            cache := <[cacheKey := {| cached_data := pools; cached_timestamp := later |}]>
                       (cache c);
            cacheTimeout := cacheTimeout c |},
         Ok pools)
    | NoData => (c, Ok [])
    | FetchFails | HttpError | GraphQLErrors =>
        (c, raise FAILED_TO_FETCH_METADATA NETWORK_ERROR)
    end in
  match cache c !! cacheKey with
  | Some cached =>
      if now - cached_timestamp cached <? cacheTimeout c
      then (c, Ok (cached_data cached))
      else consult
  | None => consult
  end.

Definition fetchAllStakingPools (c : t)
    (server : string -> GraphQLRequest -> Reply (list MRStakingPool))
    (now later : Z) : t * result (list MRStakingPool) :=
  fetch_cached c "all-pools"
    {| operationName := "GetMRStakingPools";
       variables := None;
       api_key_header := api_key_of c |}
    server now later.

Definition fetchStakingPoolsByToken (c : t) (stakingToken : string)
    (server : string -> GraphQLRequest -> Reply (list MRStakingPool))
    (now later : Z) : t * result (list MRStakingPool) :=
  fetch_cached c ("pools-" +++ JS.toLowerCase stakingToken)
    {| operationName := "GetMRStakingPoolsByToken";
       variables := Some stakingToken;
       api_key_header := api_key_of c |}
    server now later.

Definition clearCache (c : t) : t :=
  {| endpoint := endpoint c; apiKey := apiKey c; cache := ∅;
     cacheTimeout := cacheTimeout c |}.

Definition setCacheTimeout (c : t) (timeout : Z) : t :=
  {| endpoint := endpoint c; apiKey := apiKey c; cache := cache c;
     cacheTimeout := timeout |}.

End MultiRewardsGQLClient.

(** ** multi-rewards-client.ts *)

Module MultiRewardsClient.

Record t := { gqlClient : MultiRewardsGQLClient.t }.

(** [new MultiRewardsClient(aptos, options)] *)
Definition new (sentioApiKey : option string) : t :=
  {| gqlClient := MultiRewardsGQLClient.new sentioApiKey None |}.

Definition isUserSubscribed (W : World) (userAddress pool : string) : result bool :=
  match is_user_subscribed W userAddress pool with
  | Some isSubscribed => Ok isSubscribed
  | None => raise "Failed to check user subscription" NETWORK_ERROR
  end.

(** Get staking pools for a specific token: the fetch goes through the
    GraphQL client and its cache, and a failed fetch is no pools. *)
Definition getStakingPoolsForToken (W : World) (c : t) (stakingToken : string)
  : t * list MRStakingPool :=
  let fetched :=
    MultiRewardsGQLClient.fetchStakingPoolsByToken (gqlClient c) stakingToken
      (pools_endpoint W) (date_now W).1 (date_now W).2 in
  ({| gqlClient := fetched.1 |},
   match fetched.2 with
   | Ok pools => pools
   | Throw _ => []
   end).

(** [await Promise.all(promises)]: the first rejection rejects the batch. *)
Fixpoint promise_all {A} (l : list (result A)) : result (list A) :=
  match l with
  | [] => Ok []
  | r :: rest =>
      do a <- r;
      do others <- promise_all rest;
      Ok (a :: others)
  end.

(** The per-pool subscription check with its own [catch]. *)
Definition subscription_check (W : World) (userAddress poolId : string)
  : result (string * bool) :=
  try_catch
    (do isSubscribed <- isUserSubscribed W userAddress poolId;
     Ok (poolId, isSubscribed))
    (fun _ => Ok (poolId, false)).

(** What [getUnsubscribedPools] returns once the batch has settled. *)
Definition unsubscribed_of_batch (poolIds : list string)
    (batch : result (list (string * bool))) : list string :=
  match batch with
  | Ok subscriptionChecks =>
      map fst (List.filter (fun c => negb (snd c)) subscriptionChecks)
  | Throw _ => poolIds
  end.

Definition getUnsubscribedPools (W : World) (userAddress : string)
    (poolIds : list string) : list string :=
  if (length poolIds =? 0)%nat then []
  else
    unsubscribed_of_batch poolIds
      (promise_all (map (subscription_check W userAddress) poolIds)).

(** The pool-resolution block of [stakeVaultShares]; the client comes
    back with the cache the fetch of the third layer may have filled. *)
Definition resolve_pool_ids (W : World) (c : t) (stakingToken : string)
    (poolAddresses : option (list string)) : t * result (list string) :=
  let found : t * result (list string) :=
    match poolAddresses with
    | Some (p :: ps) => (c, Ok (p :: ps))
    | _ =>
        if hasStaticPoolMapping stakingToken then
          (c, Ok (getStaticPoolMapping stakingToken))
        else if MultiRewardsGQLClient.hasApiKey (gqlClient c) then
          let fetched := getStakingPoolsForToken W c stakingToken in
          (fetched.1, Ok (map pool_id fetched.2))
        else
          (c,
           raise "No staking pools found for token. Options: 1) Provide poolAddresses parameter, 2) Ensure staking token is in static mapping, 3) Provide sentioApiKey for dynamic lookup"
                 STAKING_POOLS_NOT_FOUND)
    end in
  (found.1,
   do poolIds <- found.2;
   if (length poolIds =? 0)%nat then
     raise "No staking pools available for token after checking all sources"
           STAKING_POOLS_NOT_FOUND
   else Ok poolIds).

(** The tail of [stakeVaultShares]: subscription filtering and the
    choice of entry point. *)
Definition stake_payload (abis : Abis) (W : World)
    (stakingToken : string) (amount : Z) (userAddress : option string)
    (poolIds : list string) : InputEntryFunctionData :=
  let poolsToSubscribe :=
    match userAddress with
    | Some u => if truthy u then getUnsubscribedPools W u poolIds else poolIds
    | None => poolIds
    end in
  if (0 <? length poolsToSubscribe)%nat then
    {| typeArguments := [];
       functionArguments :=
         [ AStr stakingToken; AStr (JS.toString amount); AStrs poolsToSubscribe ];
       function := MULTI_REWARDS_ROUTER_ABI_address abis
                   +++ "::router::stake_and_subscribe_fa" |}
  else
    {| typeArguments := [];
       functionArguments := [ AStr stakingToken; AStr (JS.toString amount) ];
       function := MULTI_REWARDS_ABI_address abis +++ "::multi_rewards::stake" |}.

(** Stake tokens into reward pools with automatic subscription *)
Definition stakeVaultShares (abis : Abis) (W : World) (c : t)
    (stakingToken : string) (amount : Z)
    (userAddress : option string) (poolAddresses : option (list string))
  : t * result InputEntryFunctionData :=
  if negb (truthy stakingToken) then
    (c, raise "Staking token address is required and must be a string"
              INVALID_VAULT_ADDRESS)
  else if negb (JS.startsWith "0x" stakingToken) then
    (c, raise "Staking token address must be in valid format (0x...)"
              INVALID_VAULT_ADDRESS)
  else if amount <=? 0 then
    (c, raise "Stake amount must be greater than zero" AMOUNT_TOO_SMALL)
  else
    let resolved := resolve_pool_ids W c stakingToken poolAddresses in
    (resolved.1,
     try_catch
       (do poolIds <- resolved.2;
        Ok (stake_payload abis W stakingToken amount userAddress poolIds))
       (rethrow_or_wrap "Failed to create staking transaction"
                        TRANSACTION_BUILD_FAILED)).

(** Withdraw (unstake) tokens using coin type *)
Definition withdraw (abis : Abis) (coinType : string) (amount : Z)
  : result InputEntryFunctionData :=
  if amount <=? 0 then
    raise "Withdraw amount must be greater than zero" AMOUNT_TOO_SMALL
  else
    Ok {| typeArguments := [coinType];
          functionArguments := [ AStr (JS.toString amount) ];
          function := MULTI_REWARDS_ROUTER_ABI_address abis +++ "::router::withdraw" |}.

(** Withdraw FA tokens *)
Definition withdrawFa (abis : Abis) (stakingToken : string) (amount : Z)
  : result InputEntryFunctionData :=
  if negb (truthy stakingToken) || negb (JS.startsWith "0x" stakingToken) then
    raise "Staking token address is required and must be in valid format (0x...)"
          INVALID_VAULT_ADDRESS
  else if amount <=? 0 then
    raise "Amount must be a positive bigint" AMOUNT_TOO_SMALL
  else
    Ok {| function := MULTI_REWARDS_ABI_address abis +++ "::multi_rewards::withdraw";
          typeArguments := [];
          functionArguments := [ AStr stakingToken; AStr (JS.toString amount) ] |}.

End MultiRewardsClient.

(** ** utils/validation.ts *)

Module Validation.

Inductive AddressType := vault_t | user_t | token_t | pool_t | strategy_t.

Definition type_name (a : AddressType) : string :=
  match a with
  | vault_t => "vault" | user_t => "user" | token_t => "token"
  | pool_t => "pool" | strategy_t => "strategy"
  end.

Definition capitalized (a : AddressType) : string :=
  match a with
  | vault_t => "Vault" | user_t => "User" | token_t => "Token"
  | pool_t => "Pool" | strategy_t => "Strategy"
  end.

(** All characters but the last are [0]: the address is below 16, what
    the SDK calls a special address. *)
Fixpoint zero_but_last (body : string) : bool :=
  match body with
  | EmptyString => true
  | String _ EmptyString => true
  | String c rest => Ascii.eqb c "0" && zero_but_last rest
  end.

(** [AccountAddress.from(address)] of the Aptos SDK succeeds.  The SDK
    drops a leading [0x], wants 1 to 64 characters, all of them hex
    digits, and, with its default of at most four missing characters,
    refuses an address shorter than 60 digits unless it is special. *)
Definition AccountAddress_from_ok (address : string) : bool :=
  let body := if JS.startsWith "0x" address then JS.slice_from 2 address else address in
  (1 <=? String.length body)%nat && (String.length body <=? 64)%nat
  && JS.all_hex body
  && ((60 <=? String.length body)%nat || zero_but_last body).

Definition isValidAddress (address : string) : bool :=
  if negb (truthy address) then false else AccountAddress_from_ok address.

Definition getErrorCodeForAddressType (a : AddressType) : CanopyErrorCode :=
  match a with
  | vault_t | strategy_t => INVALID_VAULT_ADDRESS
  | user_t => INVALID_USER_ADDRESS
  | token_t => INVALID_TOKEN_ADDRESS
  | pool_t => INVALID_POOL_ADDRESS
  end.

Definition validateAddress (address : string) (addressType : AddressType)
  : result unit :=
  if negb (truthy address) then
    raise (capitalized addressType +++ " address is required and must be a string")
          (getErrorCodeForAddressType addressType)
  else if negb (isValidAddress address) then
    raise ("Invalid " +++ type_name addressType +++ " address format")
          (getErrorCodeForAddressType addressType)
  else Ok tt.

Definition validateAmount (amount : Z) (operation : string) : result unit :=
  if amount <=? 0 then
    raise (operation +++ " amount must be greater than zero") AMOUNT_TOO_SMALL
  else Ok tt.

Definition validateVaultInputs (vaultAddress : string) (amount : Z)
    (operation : string) : result unit :=
  do _ <- validateAddress vaultAddress vault_t;
  validateAmount amount operation.

(** One round of the [addresses.forEach] check, at [index]. *)
Definition check_indexed (addressType : AddressType)
    (acc : result unit) (item : nat * string) : result unit :=
  do _ <- acc;
  if negb (truthy item.2) then
    raise ("Each " +++ type_name addressType +++ " address must be a string")
          (getErrorCodeForAddressType addressType)
  else if negb (isValidAddress item.2) then
    raise ("Invalid " +++ type_name addressType +++ " address format at index "
           +++ JS.toString (Z.of_nat item.1))
          (getErrorCodeForAddressType addressType)
  else Ok tt.

Definition validateAddressArray (addresses : list string)
    (addressType : AddressType) : result unit :=
  if (length addresses =? 0)%nat then
    raise ("At least one " +++ type_name addressType +++ " address is required")
          INVALID_INPUT
  else
    fold_left (check_indexed addressType)
              (combine (seq 0 (length addresses)) addresses) (Ok tt).

End Validation.

(** ** client.ts *)

Module CanopyClient.

Record t := {
  transactionBuilder : TransactionBuilder.t;
  multiRewardsClient : MultiRewardsClient.t
}.

(** [new CanopyClient(aptos, options)] *)
Definition new (opt_network : option string) (opt_sentioApiKey : option string) : t :=
  let network :=
    match opt_network with
    | Some n => if truthy n then n else MOVEMENT_MAINNET
    | None => MOVEMENT_MAINNET
    end in
  {| transactionBuilder := TransactionBuilder.new (Some network) None;
     multiRewardsClient :=
       MultiRewardsClient.new
         match opt_sentioApiKey with
         | Some k => if truthy k then Some k else None
         | None => None
         end |}.

Definition deposit (abis : Abis) (W : World) (c : t)
    (vaultAddress : string) (amount : Z) : result InputEntryFunctionData :=
  do _ <- Validation.validateVaultInputs vaultAddress amount "deposit";
  TransactionBuilder.buildDepositPayload abis W (transactionBuilder c)
    vaultAddress amount.

Definition withdraw (abis : Abis) (W : World) (c : t)
    (vaultAddress : string) (shares : Z) : result InputEntryFunctionData :=
  do _ <- Validation.validateVaultInputs vaultAddress shares "withdraw";
  TransactionBuilder.buildWithdrawPayload abis W (transactionBuilder c)
    vaultAddress shares.

(** The argument checks of [stake]. *)
Definition stake_checks (stakingToken : string) (amount : Z)
    (userAddress : option string) (poolAddresses : option (list string))
  : result unit :=
  do _ <- Validation.validateAddress stakingToken Validation.token_t;
  do _ <- Validation.validateAmount amount "stake";
  do _ <- match userAddress with
          | Some u => Validation.validateAddress u Validation.user_t
          | None => Ok tt
          end;
  match poolAddresses with
  | Some ps => Validation.validateAddressArray ps Validation.pool_t
  | None => Ok tt
  end.

(** Stake tokens into reward pools; the client comes back with the
    staking client as [stakeVaultShares] left it. *)
Definition stake (abis : Abis) (W : World) (c : t)
    (stakingToken : string) (amount : Z)
    (userAddress : option string) (poolAddresses : option (list string))
  : t * result InputEntryFunctionData :=
  match stake_checks stakingToken amount userAddress poolAddresses with
  | Throw x => (c, Throw x)
  | Ok _ =>
      let staked :=
        MultiRewardsClient.stakeVaultShares abis W (multiRewardsClient c)
          stakingToken amount userAddress poolAddresses in
      ({| transactionBuilder := transactionBuilder c;
          multiRewardsClient := staked.1 |},
       staked.2)
  end.

(** Unstake tokens (automatically handles FA or coin types) *)
Definition unstake (abis : Abis) (c : t) (tokenAddress : string) (amount : Z)
  : result InputEntryFunctionData :=
  do _ <- Validation.validateAddress tokenAddress Validation.token_t;
  do _ <- Validation.validateAmount amount "unstake";
  if JS.includes "::" tokenAddress then
    MultiRewardsClient.withdraw abis tokenAddress amount
  else
    MultiRewardsClient.withdrawFa abis tokenAddress amount.

End CanopyClient.

(** The other [CanopyClient] class of the same source file, which checks
    its arguments with a private [validateInputs]. *)
Module CanopyClientInline.

Definition validateInputs (vaultAddress : string) (amount : Z) (operation : string)
  : result unit :=
  if negb (truthy vaultAddress) then
    raise "Vault address is required and must be a string" INVALID_VAULT_ADDRESS
  else if negb (JS.startsWith "0x" vaultAddress) then
    raise "Vault address must start with 0x" INVALID_VAULT_ADDRESS
  else if amount <=? 0 then
    raise (operation +++ " amount must be greater than zero") AMOUNT_TOO_SMALL
  else Ok tt.

Definition unstake (abis : Abis) (tokenAddress : string) (amount : Z)
  : result InputEntryFunctionData :=
  do _ <- validateInputs tokenAddress amount "unstake";
  if JS.includes "::" tokenAddress then
    MultiRewardsClient.withdraw abis tokenAddress amount
  else
    MultiRewardsClient.withdrawFa abis tokenAddress amount.

End CanopyClientInline.

(** ** examples/react/src/utils.ts *)

Module Utils.

Definition scaleToDecimals (amount : string) (decimals : nat) : result Z :=
  let parts := JS.split "." amount in
  let whole := default EmptyString (parts !! 0%nat) in
  let fraction := default EmptyString (parts !! 1%nat) in
  let paddedFraction := JS.slice_to decimals (JS.padEnd decimals "0" fraction) in
  let scaled := whole +++ paddedFraction in
  match JS.BigInt scaled with
  | Some n => Ok n
  | None => Throw (Native "SyntaxError")
  end.

Definition scaleFromDecimals (amount : Z) (decimals : nat) : string :=
  let str := JS.padStart (decimals + 1) "0" (JS.toString amount) in
  let insertPosition := (String.length str - decimals)%nat in
  let whole :=
    let w := JS.slice_to insertPosition str in
    if truthy w then w else "0" in
  let fraction := JS.slice_from insertPosition str in
  let trimmedFraction := JS.strip_trailing_zeros fraction in
  if truthy trimmedFraction then whole +++ "." +++ trimmedFraction else whole.

End Utils.

(** * The rest of the SDK surface *)

(** ** transaction-builder.ts: payloads without auto-detection *)

Module SimplePayloads.

(** Creates a simple deposit payload without auto-detection; [strategies]
    and [packets] default to empty arrays. *)
Definition createSimpleDepositPayload (abis : Abis) (vaultAddress : string)
    (amount : Z) (strats : option (list string)) (packets : option (list (list byte)))
  : InputEntryFunctionData :=
  let minSharesOut := Z.quot (amount * 99) 100 in
  {| function := ROUTER_ABI_address abis +++ "::router::deposit_fa";
     typeArguments := [];
     functionArguments :=
       [ AStr vaultAddress; AStrs (default [] strats); ABytes (default [] packets);
         AStr (JS.toString amount); AStr (JS.toString minSharesOut) ] |}.

(** Creates a simple withdrawal payload without auto-detection *)
Definition createSimpleWithdrawalPayload (abis : Abis) (vaultAddress : string)
    (shares : Z) (strats : option (list string)) (packets : option (list (list byte)))
    (maxLoss : option string) : InputEntryFunctionData :=
  let maxLoss := default DEFAULT_MAX_LOSS maxLoss in
  {| function := ROUTER_ABI_address abis +++ "::router::withdraw_fa";
     typeArguments := [];
     functionArguments :=
       [ AStr vaultAddress; AStrs (default [] strats); ABytes (default [] packets);
         AStr (JS.toString shares); AStr WITHDRAW_MIN_AMOUNT_OUT; AStr maxLoss ] |}.

End SimplePayloads.

(** ** multi-rewards-client.ts: the entry-function builders *)

Module StakingEntry.

(** The test applied to each pool or token of a list. *)
Definition well_prefixed (address : string) : bool :=
  truthy address && JS.startsWith "0x" address.

(** [for (const x of xs) { if (!x || !x.startsWith("0x")) throw ... }] *)
Fixpoint check_each (xs : list string) (msg : string) (c : CanopyErrorCode)
  : result unit :=
  match xs with
  | [] => Ok tt
  | x :: rest => if negb (well_prefixed x) then raise msg c else check_each rest msg c
  end.

(** Stake tokens using coin type (creates FA if needed) *)
Definition stake (abis : Abis) (coinType : string) (amount : Z)
    (pools : option (list string)) : result InputEntryFunctionData :=
  if amount <=? 0 then
    raise "Stake amount must be greater than zero" AMOUNT_TOO_SMALL
  else
    try_catch
      (match pools with
       | Some (p :: ps) =>
           do _ <- check_each (p :: ps) "Invalid pool address format" INVALID_POOL_ADDRESS;
           Ok {| typeArguments := [coinType];
                 functionArguments := [ AStrs (p :: ps); AStr (JS.toString amount) ];
                 function := MULTI_REWARDS_ROUTER_ABI_address abis
                             +++ "::router::stake_and_subscribe" |}
       | _ =>
           Ok {| typeArguments := [coinType];
                 functionArguments := [ AStr (JS.toString amount) ];
                 function := MULTI_REWARDS_ROUTER_ABI_address abis +++ "::router::stake" |}
       end)
      (rethrow_or_wrap "Failed to create stake transaction" TRANSACTION_BUILD_FAILED).

(** Stake fungible asset tokens *)
Definition stakeFa (abis : Abis) (stakingToken : string) (amount : Z)
    (pools : option (list string)) : result InputEntryFunctionData :=
  if negb (truthy stakingToken) then
    raise "Staking token address is required and must be a string"
          INVALID_VAULT_ADDRESS
  else if negb (JS.startsWith "0x" stakingToken) then
    raise "Staking token address must be in valid format (0x...)"
          INVALID_VAULT_ADDRESS
  else if amount <=? 0 then
    raise "Stake amount must be greater than zero" AMOUNT_TOO_SMALL
  else
    try_catch
      (match pools with
       | Some (p :: ps) =>
           do _ <- check_each (p :: ps) "Invalid pool address format" INVALID_POOL_ADDRESS;
           Ok {| typeArguments := [];
                 functionArguments :=
                   [ AStr stakingToken; AStr (JS.toString amount); AStrs (p :: ps) ];
                 function := MULTI_REWARDS_ROUTER_ABI_address abis
                             +++ "::router::stake_and_subscribe_fa" |}
       | _ =>
           Ok {| typeArguments := [];
                 functionArguments := [ AStr stakingToken; AStr (JS.toString amount) ];
                 function := MULTI_REWARDS_ABI_address abis +++ "::multi_rewards::stake" |}
       end)
      (rethrow_or_wrap "Failed to create FA stake transaction" TRANSACTION_BUILD_FAILED).

(** Create staking pool and stake with token creation *)
Definition stakeToken (abis : Abis) (amount : Z)
    (tokenCreator tokenName tokenSymbol : string) (tokenDecimals : Z)
    (pools : option (list string)) : InputEntryFunctionData :=
  match pools with
  | Some (p :: ps) =>
      {| function := MULTI_REWARDS_ROUTER_ABI_address abis
                     +++ "::router::stake_and_subscribe_token";
         typeArguments := [];
         functionArguments :=
           [ AStrs (p :: ps); AStr (JS.toString amount); AStr tokenCreator;
             AStr tokenName; AStr tokenSymbol; AStr (JS.toString tokenDecimals) ] |}
  | _ =>
      {| function := MULTI_REWARDS_ROUTER_ABI_address abis +++ "::router::stake_token";
         typeArguments := [];
         functionArguments :=
           [ AStr (JS.toString amount); AStr tokenCreator;
             AStr tokenName; AStr tokenSymbol; AStr (JS.toString tokenDecimals) ] |}
  end.

(** Unsubscribe from pools and withdraw using coin type *)
Definition unsubscribeAndWithdraw (abis : Abis) (coinType : string)
    (pools : list string) (amount : Z) : result InputEntryFunctionData :=
  if (length pools =? 0)%nat then
    raise "Pools array is required and must not be empty" INVALID_VAULT_ADDRESS
  else if amount <=? 0 then
    raise "Amount must be a positive bigint" AMOUNT_TOO_SMALL
  else
    Ok {| typeArguments := [coinType];
          functionArguments := [ AStrs pools; AStr (JS.toString amount) ];
          function := MULTI_REWARDS_ROUTER_ABI_address abis
                      +++ "::router::unsubscribe_and_withdraw" |}.

(** Unsubscribe from pools and withdraw FA *)
Definition unsubscribeAndWithdrawFa (abis : Abis) (stakingToken : string)
    (pools : list string) (amount : Z) : result InputEntryFunctionData :=
  if negb (truthy stakingToken) || negb (JS.startsWith "0x" stakingToken) then
    raise "Staking token address is required and must be in valid format (0x...)"
          INVALID_VAULT_ADDRESS
  else if (length pools =? 0)%nat then
    raise "Pools array is required and must not be empty" INVALID_VAULT_ADDRESS
  else if amount <=? 0 then
    raise "Amount must be a positive bigint" AMOUNT_TOO_SMALL
  else
    Ok {| function := MULTI_REWARDS_ROUTER_ABI_address abis
                      +++ "::router::unsubscribe_and_withdraw_fa";
          typeArguments := [];
          functionArguments :=
            [ AStr stakingToken; AStr (JS.toString amount); AStrs pools ] |}.

(** Claim rewards for multiple staking tokens *)
Definition claimRewards (abis : Abis) (stakingTokens : list string)
  : result InputEntryFunctionData :=
  if (length stakingTokens =? 0)%nat then
    raise "Staking tokens array is required and must not be empty"
          INVALID_VAULT_ADDRESS
  else
    do _ <- check_each stakingTokens "Invalid staking token address format"
              INVALID_VAULT_ADDRESS;
    Ok {| function := MULTI_REWARDS_ROUTER_ABI_address abis +++ "::router::claim_rewards";
          typeArguments := [];
          functionArguments := [ AStrs stakingTokens ] |}.

End StakingEntry.

(** ** multi-rewards-client.ts: the staking position *)

(** What a view answers where the code tests [Array.isArray]. *)
Inductive ViewList :=
  | ArrayOf (items : list string)
  | NotArray.

(** The views of the [multi_rewards] module; [None] is a call that throws. *)
Record StakingChain := {
  get_user_staked_balance : string -> string -> option string;
  get_user_subscribed_pools : string -> string -> option ViewList;
  get_pool_info : string -> option (string * ViewList * string);
  get_earned : string -> string -> string -> option string
}.

Record StakingPoolInfo := {
  poolAddress : string;
  owner : string;
  info_stakingToken : string;
  rewardTokens : list string;
  totalSubscribed : string
}.

Record PendingReward := {
  reward_poolAddress : string;
  rewardToken : string;
  reward_amount : string
}.

Record UserStakingPosition := {
  position_stakingToken : string;
  totalStaked : string;
  subscribedPools : list string;
  pendingRewards : list PendingReward
}.

Module StakingViews.

Definition items_or_empty (v : ViewList) : list string :=
  match v with
  | ArrayOf items => items
  | NotArray => []
  end.

(** Get user's staked balance for a staking token *)
Definition getUserStakedBalance (S : StakingChain) (userAddress stakingToken : string)
  : result string :=
  match get_user_staked_balance S userAddress stakingToken with
  | Some balance => Ok balance
  | None => raise "Failed to get strategy details" NETWORK_ERROR
  end.

(** Get user's earned rewards for a specific pool and reward token *)
Definition getUserEarned (S : StakingChain) (userAddress pool rewardTok : string)
  : result string :=
  match get_earned S userAddress pool rewardTok with
  | Some earned => Ok earned
  | None => raise "Failed to get user earned rewards" NETWORK_ERROR
  end.

(** Get user's subscribed pools for a staking token *)
Definition getUserSubscribedPools (S : StakingChain) (userAddress stakingToken : string)
  : result (list string) :=
  match get_user_subscribed_pools S userAddress stakingToken with
  | Some pools => Ok (items_or_empty pools)
  | None => raise "Failed to get user subscribed pools" NETWORK_ERROR
  end.

(** Get staking pool information *)
Definition getPoolInfo (S : StakingChain) (pool : string) : result StakingPoolInfo :=
  match get_pool_info S pool with
  | Some (stakingTok, rewardToks, total) =>
      Ok {| poolAddress := pool;
            owner := EmptyString;
            info_stakingToken := stakingTok;
            rewardTokens := items_or_empty rewardToks;
            totalSubscribed := total |}
  | None => raise "Failed to get pool info" NETWORK_ERROR
  end.

(** The inner loop over the reward tokens of one pool.  It pushes onto the
    shared [pendingRewards] array; the second component tells whether a
    call threw, which ends the loop and leaves what was pushed. *)
Fixpoint collect_rewards (S : StakingChain) (userAddress pool : string)
    (rewardToks : list string) (pending : list PendingReward)
  : list PendingReward * bool :=
  match rewardToks with
  | [] => (pending, false)
  | tok :: rest =>
      match getUserEarned S userAddress pool tok with
      | Ok earned =>
          collect_rewards S userAddress pool rest
            (if negb (String.eqb earned "0")
             then pending ++ [ {| reward_poolAddress := pool;
                                  rewardToken := tok;
                                  reward_amount := earned |} ]
             else pending)
      | Throw _ => (pending, true)
      end
  end.

(** One round of the loop over the subscribed pools, with its [catch]. *)
Definition collect_pool (S : StakingChain) (userAddress : string)
    (pending : list PendingReward) (pool : string) : list PendingReward :=
  match getPoolInfo S pool with
  | Ok poolInfo => (collect_rewards S userAddress pool (rewardTokens poolInfo) pending).1
  | Throw _ => pending
  end.

(** Get user staking position *)
Definition getUserStakingPosition (S : StakingChain) (userAddress stakingToken : string)
  : result UserStakingPosition :=
  try_catch
    (do stakedBalance <- getUserStakedBalance S userAddress stakingToken;
     do pools <- getUserSubscribedPools S userAddress stakingToken;
     Ok {| position_stakingToken := stakingToken;
           totalStaked := stakedBalance;
           subscribedPools := pools;
           pendingRewards := fold_left (collect_pool S userAddress) pools [] |})
    (fun _ => raise "Failed to get user staking position" NETWORK_ERROR).

End StakingViews.

(** ** client.ts: the remaining public methods *)

Module ClientStaking.

(** Claim rewards for multiple staking tokens *)
Definition claimRewards (abis : Abis) (stakingTokens : list string)
  : result InputEntryFunctionData :=
  do _ <- Validation.validateAddressArray stakingTokens Validation.token_t;
  StakingEntry.claimRewards abis stakingTokens.

(** Get user's staking position for a token *)
Definition getUserStakingPosition (S : StakingChain) (userAddress stakingToken : string)
  : result UserStakingPosition :=
  do _ <- Validation.validateAddress userAddress Validation.user_t;
  do _ <- Validation.validateAddress stakingToken Validation.token_t;
  StakingViews.getUserStakingPosition S userAddress stakingToken.

End ClientStaking.

(** ** examples/react/src/utils.ts: address display *)

Module Format.

(** [s.slice(-n)] *)
Definition slice_last (n : nat) (s : string) : string :=
  JS.slice_from (String.length s - n) s.

Definition formatAddress (address : string) : string :=
  if negb (truthy address) then EmptyString
  else JS.slice_to 6 address +++ "..." +++ slice_last 4 address.

End Format.

(** ** gql-client.ts: the vault-metadata client and its cache *)

Record AdditionalMetadata := { meta_item : string; meta_key : string }.

Record CanopyMetadataItem := {
  networkAddress : string;
  item_displayName : string;
  item_investmentType : string;
  item_networkType : string;
  item_riskScore : Z;
  isHidden : option bool;
  item_description : string;
  item_iconURL : string;
  item_labels : list string;
  item_rewardPools : option (list string);
  item_additionalMetadata : list AdditionalMetadata;
  item_paused : bool;
  item_token0 : string;
  item_token1 : string;
  item_tvl : string;
  item_totalSupply : option string;
  item_token0Balance : string;
  item_token1Balance : string;
  item_decimals0 : Z;
  item_decimals1 : Z;
  item_apr : string;
  item_rewardApr : string
}.

Record VaultMetadata := {
  address : string;
  displayName : string;
  description : string;
  iconURL : string;
  investmentType : string;
  networkType : string;
  riskScore : Z;
  labels : list string;
  paused : bool;
  tvl : string;
  apr : string;
  rewardApr : string;
  token0 : string;
  token1 : string;
  token0Balance : string;
  token1Balance : string;
  decimals0 : Z;
  decimals1 : Z;
  totalSupply : string;
  rewardPools : list string;
  additionalMetadata : gmap string string
}.

Module GraphQLClient.

Record t := {
  endpoint : string;
  cache : gmap string (Cached (list VaultMetadata));
  cacheTimeout : Z
}.

(** [new GraphQLClient(endpoint)] *)
Definition new (opt_endpoint : option string) : t :=
  {| endpoint := match opt_endpoint with
                 | Some e => if truthy e then e else GRAPHQL_ENDPOINT
                 | None => GRAPHQL_ENDPOINT
                 end;
     cache := ∅;
     cacheTimeout := CACHE_TIMEOUT_MS |}.

(** [x || fallback] on a string *)
Definition or_else (x fallback : string) : string :=
  if truthy x then x else fallback.

(** [n || 0] on a number *)
Definition or_zero (n : Z) : Z := if n =? 0 then 0 else n.

(** The [labels] of an item are an array, so [item.labels || []] is the
    array itself. *)
Definition transformToVaultMetadata (item : CanopyMetadataItem) : VaultMetadata :=
  let additional :=
    fold_left
      (fun acc meta =>
         if truthy (meta_key meta) && truthy (meta_item meta)
         then <[meta_key meta := meta_item meta]> acc else acc)
      (item_additionalMetadata item) (∅ : gmap string string) in
  {| address := networkAddress item;
     displayName := item_displayName item;
     description := item_description item;
     iconURL := item_iconURL item;
     investmentType := item_investmentType item;
     networkType := item_networkType item;
     riskScore := item_riskScore item;
     labels := item_labels item;
     paused := item_paused item;
     tvl := or_else (item_tvl item) "0";
     apr := or_else (item_apr item) "0";
     rewardApr := or_else (item_rewardApr item) "0";
     token0 := or_else (item_token0 item) EmptyString;
     token1 := or_else (item_token1 item) EmptyString;
     token0Balance := or_else (item_token0Balance item) "0";
     token1Balance := or_else (item_token1Balance item) "0";
     decimals0 := or_zero (item_decimals0 item);
     decimals1 := or_zero (item_decimals1 item);
     totalSupply := or_else (default EmptyString (item_totalSupply item)) "0";
     rewardPools := default [] (item_rewardPools item);
     additionalMetadata := additional |}.

(** [item.isHidden !== true] *)
Definition shown (item : CanopyMetadataItem) : bool :=
  match isHidden item with
  | Some true => false
  | _ => true
  end.

Definition fetchVaultMetadata (c : t) (chainId : Z)
    (server : string -> GraphQLRequest -> Reply (list CanopyMetadataItem))
    (now later : Z) : t * result (list VaultMetadata) :=
  let cacheKey := "chain-" +++ JS.toString chainId in
  let consult :=
    match server (endpoint c)
            {| operationName := "GetCanopyMetadata";
               variables := Some (JS.toString chainId);
               api_key_header := None |} with
    | Data items =>
        let vaults := map transformToVaultMetadata (List.filter shown items) in
        ({| endpoint := endpoint c;
            cache := <[cacheKey := {| cached_data := vaults; cached_timestamp := later |}]>
                       (cache c);
            cacheTimeout := cacheTimeout c |},
         Ok vaults)
    | NoData => (c, Ok [])
    | FetchFails | HttpError | GraphQLErrors =>
        (c, raise FAILED_TO_FETCH_METADATA NETWORK_ERROR)
    end in
  match cache c !! cacheKey with
  | Some cached =>
      if now - cached_timestamp cached <? cacheTimeout c
      then (c, Ok (cached_data cached))
      else consult
  | None => consult
  end.

Definition fetchVaultByAddress (c : t) (chainId : Z) (vaultAddress : string)
    (server : string -> GraphQLRequest -> Reply (list CanopyMetadataItem))
    (now later : Z) : t * result (option VaultMetadata) :=
  let '(c', fetched) := fetchVaultMetadata c chainId server now later in
  (c',
   do vaults <- fetched;
   let normalizedAddress := JS.toLowerCase vaultAddress in
   Ok (List.find
         (fun vault => String.eqb (JS.toLowerCase (address vault)) normalizedAddress)
         vaults)).

Definition clearCache (c : t) : t :=
  {| endpoint := endpoint c; cache := ∅; cacheTimeout := cacheTimeout c |}.

Definition setCacheTimeout (c : t) (timeout : Z) : t :=
  {| endpoint := endpoint c; cache := cache c; cacheTimeout := timeout |}.

End GraphQLClient.

(** * Vocabulary of the statements *)

(** The sum of the allocated amounts. *)
Definition allocated_sum (amounts : list Z) : Z := foldr Z.add 0 amounts.

(** What makes [validateAllocation] reject. *)
Definition rejected (allocation : AllocationMap) (totalAmount : Z) : Prop :=
  alloc_strategies allocation = []
  \/ length (alloc_strategies allocation) <> length (alloc_amounts allocation)
  \/ Z.abs (allocated_sum (alloc_amounts allocation) - totalAmount)
     > Z.quot totalAmount 1000.

Definition throws_build_failed {A} (r : result A) : Prop :=
  exists msg, r = Throw (Canopy (mkCanopyError msg TRANSACTION_BUILD_FAILED)).

(** The packet that [find] returns for a strategy exists and is non-empty. *)
Definition first_packet_non_empty (packets : list PacketData) (s : string) : bool :=
  match PacketGenerator.find_packet packets s with
  | Some p => PacketGenerator.non_empty (packet p)
  | None => false
  end.

Definition first_packet_bytes (packets : list PacketData) (s : string) : list byte :=
  match PacketGenerator.find_packet packets s with
  | Some p => packet p
  | None => []
  end.

(** Some packet of the list belongs to the strategy and is non-empty. *)
Definition has_non_empty_packet (packets : list PacketData) (s : string) : bool :=
  existsb (fun p => String.eqb (strategy p) s && PacketGenerator.non_empty (packet p))
          packets.

(** The bytes [generatePackets] stores for one strategy: nothing for a zero
    amount or when the single-packet generation throws, else what that
    generation returns. *)
Definition packet_or_empty (W : World) (network : string) (operation : Operation)
    (options : PacketGeneratorOptions) (s : string) (a : Z) : list byte :=
  if a =? 0 then []
  else match PacketGenerator.generateSinglePacket W network s a operation options with
       | Ok pkt => pkt
       | Throw _ => []
       end.

(** The entry [generatePackets] stores for one strategy and amount. *)
Definition packet_entry (W : World) (network : string) (operation : Operation)
    (options : PacketGeneratorOptions) (s : string) (a : Z) : PacketData :=
  {| strategy := s; packet := packet_or_empty W network operation options s a |}.

(** Ways in which the packet of one strategy can fail to be generated:
    no API configuration, no broker for the coin (the name map has no
    property of that name, own or inherited), a failed exact-amount
    lookup on withdrawal, an unreachable portfolio endpoint, or any
    exception out of the single-packet generation. *)
Definition generation_fails (W : World) (network : string) (operation : Operation)
    (options : PacketGeneratorOptions) (s : string) (a : Z) : Prop :=
  opt_movepositionConfig options = None
  \/ (exists c, opt_movepositionConfig options = Some c /\ apiUrl c = EmptyString)
  \/ (exists c, opt_movepositionConfig options = Some c
                /\ nameMap c !! virtualCoinType options = None
                /\ ~ In (virtualCoinType options) JS.Object_prototype_members)
  \/ (operation = withdraw_op
      /\ withdrawal_amount_view W s (JS.toString a) (virtualCoinType options) = None)
  \/ (exists c, opt_movepositionConfig options = Some c
                /\ get_portfolio W (apiUrl c +++ ENDPOINT_PORTFOLIOS +++ s) = None)
  \/ (exists x, PacketGenerator.generateSinglePacket W network s a operation options
                = Throw x).

(** A world in which every remote call fails. *)
Definition unreachable_world : World :=
  {| vault_view := fun _ => None;
     is_paused := fun _ => None;
     get_allocations_view := fun _ _ => None;
     get_withdrawal_map_view := fun _ _ => None;
     withdrawal_amount_view := fun _ _ _ => None;
     is_user_subscribed := fun _ _ => None;
     get_portfolio := fun _ => None;
     post_packet := fun _ _ => None;
     pools_endpoint := fun _ _ => FetchFails;
     date_now := (0, 0) |}.

Definition no_options : PacketGeneratorOptions :=
  {| opt_vaultAddress := "0xV";
     opt_network := None;
     opt_routerAddress := None;
     virtualCoinType := EmptyString;
     opt_movepositionConfig := None |}.

(** A lending API that serves every portfolio but the one of [0xS2], and
    signs the packet [0x2a] for whatever it is asked. *)
Definition flaky_world : World :=
  {| vault_view := fun _ => None;
     is_paused := fun _ => None;
     get_allocations_view := fun _ _ => None;
     get_withdrawal_map_view := fun _ _ => None;
     withdrawal_amount_view := fun _ _ _ => None;
     is_user_subscribed := fun _ _ => None;
     get_portfolio := fun url =>
       if String.eqb url "https://lend.example/portfolios/0xS2" then None
       else Some {| collaterals := []; liabilities := [] |};
     post_packet := fun _ _ => Some "0x2a";
     pools_endpoint := fun _ _ => FetchFails;
     date_now := (0, 0) |}.

Definition lending_options : PacketGeneratorOptions :=
  {| opt_vaultAddress := "0xV";
     opt_network := None;
     opt_routerAddress := None;
     virtualCoinType := "0xc::coins::USDC";
     opt_movepositionConfig :=
       Some {| apiUrl := "https://lend.example";
               nameMap := {[ "0xc::coins::USDC" := "movement-usdc" ]};
               virtualCoinMap := ∅ |} |}.

(** The platform names [getPlatformName] can answer. *)
Definition platform_names : list string :=
  ["MovePosition"; "Echelon"; "LayerBank"; "Meridian"; "Satay"].

(** The well-known concrete addresses with the platform each stands for. *)
Definition known_platforms : list (string * string) :=
  [ (MOVEPOSITION_SIMPLE_CONCRETE_ADDRESS, "MovePosition");
    (ECHELON_SIMPLE_CONCRETE_ADDRESS, "Echelon");
    (LAYERBANK_SIMPLE_CONCRETE_ADDRESS, "LayerBank");
    (MERIDIAN_SIMPLE_CONCRETE_ADDRESS, "Meridian") ].

(** [given] writes the address [constant] with its hex digits in any
    letter case, behind the prefix [0x] (as it is written here, in lower
    case) or behind no prefix. *)
Definition spelling_of (constant given : string) : Prop :=
  exists digits,
    JS.toLowerCase digits = JS.slice_from 2 constant
    /\ (given = digits \/ given = "0x" +++ digits).

Definition vault_of (concretes : list string) : VaultView :=
  {| vaultAddress := "0xV";
     assetName := "USDC";
     assetAddress := "0xA";
     sharesAddress := "0xB";
     pairedCoinType := None;
     strategies :=
       map (fun c => {| strategyAddress := "0xS"; concreteAddress := c |}) concretes |}.

(** The two messages of [StakingPoolsNotFound]. *)
Definition no_source_message : string :=
  "No staking pools found for token. Options: 1) Provide poolAddresses parameter, 2) Ensure staking token is in static mapping, 3) Provide sentioApiKey for dynamic lookup".

Definition no_pools_message : string :=
  "No staking pools available for token after checking all sources".

(** The user is known to be subscribed to the pool; a failed check counts
    as not subscribed. *)
Definition subscribed (W : World) (userAddress pool : string) : bool :=
  match is_user_subscribed W userAddress pool with
  | Some isSubscribed => isSubscribed
  | None => false
  end.

(** The cache key of the pools of one staking token. *)
Definition pool_key (stakingToken : string) : string :=
  "pools-" +++ JS.toLowerCase stakingToken.

(** The request [fetchStakingPoolsByToken] sends for a token. *)
Definition pools_request (c : MultiRewardsGQLClient.t) (stakingToken : string)
  : GraphQLRequest :=
  {| operationName := "GetMRStakingPoolsByToken";
     variables := Some stakingToken;
     api_key_header := MultiRewardsGQLClient.api_key_of c |}.

(** An API key is configured: the GraphQL client holds a non-empty one. *)
Definition api_key_configured (c : MultiRewardsClient.t) : Prop :=
  exists key,
    MultiRewardsGQLClient.apiKey (MultiRewardsClient.gqlClient c) = Some key
    /\ key <> EmptyString.

(** The pools the client has for the token from an earlier answer of the
    pool index that is younger than the cache timeout. *)
Definition remembered (W : World) (c : MultiRewardsClient.t) (stakingToken : string)
  : option (list MRStakingPool) :=
  match MultiRewardsGQLClient.cache (MultiRewardsClient.gqlClient c)
        !! pool_key stakingToken with
  | Some answer =>
      if (date_now W).1 - cached_timestamp answer
         <? MultiRewardsGQLClient.cacheTimeout (MultiRewardsClient.gqlClient c)
      then Some (cached_data answer) else None
  | None => None
  end.

(** What remote pool discovery finds for the token: the remembered
    answer, else the pools the pool index answers now, and none when the
    request fails or carries no data. *)
Definition discovered (W : World) (c : MultiRewardsClient.t) (stakingToken : string)
  : list MRStakingPool :=
  match remembered W c stakingToken with
  | Some pools => pools
  | None =>
      match pools_endpoint W
              (MultiRewardsGQLClient.endpoint (MultiRewardsClient.gqlClient c))
              (pools_request (MultiRewardsClient.gqlClient c) stakingToken) with
      | Data pools => pools
      | _ => []
      end
  end.

(** The stake-and-subscribe call carrying a pool list, and the plain stake
    call without one. *)
Definition stake_and_subscribe_call (abis : Abis) (token : string) (amount : Z)
    (pools : list string) : InputEntryFunctionData :=
  {| function := MULTI_REWARDS_ROUTER_ABI_address abis
                 +++ "::router::stake_and_subscribe_fa";
     typeArguments := [];
     functionArguments := [ AStr token; AStr (JS.toString amount); AStrs pools ] |}.

Definition plain_stake_call (abis : Abis) (token : string) (amount : Z)
  : InputEntryFunctionData :=
  {| function := MULTI_REWARDS_ABI_address abis +++ "::multi_rewards::stake";
     typeArguments := [];
     functionArguments := [ AStr token; AStr (JS.toString amount) ] |}.

(** The call that stakes with the candidate pools [pools]: the user, when
    one is given, is subscribed to those of them it has not joined, and
    the plain stake call is used when none is left. *)
Definition staking_call (abis : Abis) (W : World) (token : string) (amount : Z)
    (user : option string) (pools : list string) : InputEntryFunctionData :=
  let pending :=
    match user with
    | Some u =>
        if String.eqb u EmptyString then pools
        else List.filter (fun p => negb (subscribed W u p)) pools
    | None => pools
    end in
  match pending with
  | [] => plain_stake_call abis token amount
  | _ :: _ => stake_and_subscribe_call abis token amount pending
  end.

Definition sample_abis : Abis :=
  {| ROUTER_ABI_address := "0xR";
     MULTI_REWARDS_ABI_address := "0xM";
     MULTI_REWARDS_ROUTER_ABI_address := "0xMR" |}.

(** A chain on which user [0xU] is subscribed to pools [0xP1] and [0xP2],
    and a pool index that answers [0xQ] for every token. *)
Definition staking_world : World :=
  {| vault_view := fun _ => None;
     is_paused := fun _ => None;
     get_allocations_view := fun _ _ => None;
     get_withdrawal_map_view := fun _ _ => None;
     withdrawal_amount_view := fun _ _ _ => None;
     is_user_subscribed := fun u p =>
       Some (String.eqb u "0xU" && (String.eqb p "0xP1" || String.eqb p "0xP2"));
     get_portfolio := fun _ => None;
     post_packet := fun _ _ => None;
     pools_endpoint := fun _ request =>
       Data [ {| pool_id := "0xQ";
                 staking_token := default EmptyString (variables request) |} ];
     date_now := (1000, 1010) |}.

(** The minimum-amount-out floor and the max-loss argument of a withdraw
    payload: its last and its last-but-one argument. *)
Definition min_amount_out (p : InputEntryFunctionData) : option Arg :=
  last (functionArguments p).

Definition max_loss (p : InputEntryFunctionData) : option Arg :=
  functionArguments p !! 4%nat.

(** A chain with one LayerBank vault [0xV] whose withdrawal map sends
    everything to its strategy [0xS]. *)
Definition layerbank_world : World :=
  {| vault_view := fun _ => Some (vault_of [LAYERBANK_SIMPLE_CONCRETE_ADDRESS]);
     is_paused := fun _ => Some false;
     get_allocations_view := fun _ _ => None;
     get_withdrawal_map_view := fun _ shares =>
       Some (RawSimpleMap
               [ Some {| entry_key := Some "0xS"; entry_value := RvNumeric 40 |} ]);
     withdrawal_amount_view := fun _ _ _ => None;
     is_user_subscribed := fun _ _ => None;
     get_portfolio := fun _ => None;
     post_packet := fun _ _ => None;
     pools_endpoint := fun _ _ => FetchFails;
     date_now := (0, 0) |}.

(** The same chain with another answer to [vault::is_paused]. *)
Definition with_pause_status (W : World) (status : string -> option bool) : World :=
  {| vault_view := vault_view W;
     is_paused := status;
     get_allocations_view := get_allocations_view W;
     get_withdrawal_map_view := get_withdrawal_map_view W;
     withdrawal_amount_view := withdrawal_amount_view W;
     is_user_subscribed := is_user_subscribed W;
     get_portfolio := get_portfolio W;
     post_packet := post_packet W;
     pools_endpoint := pools_endpoint W;
     date_now := date_now W |}.

(** The error codes a deposit or withdraw can end with. *)
Definition operation_codes : list CanopyErrorCode :=
  [ INVALID_VAULT_ADDRESS; AMOUNT_TOO_SMALL; VAULT_NOT_FOUND;
    TRANSACTION_BUILD_FAILED; PACKET_GENERATION_FAILED ].

(** Every [CanopyError] thrown by [r] has its code in [codes]. *)
Definition canopy_codes_in {A} (codes : list CanopyErrorCode) (r : result A) : Prop :=
  forall e, r = Throw (Canopy e) -> In (code e) codes.

(** [r] throws nothing but [CanopyError]s with a code in [codes]. *)
Definition throws_only {A} (codes : list CanopyErrorCode) (r : result A) : Prop :=
  forall x, r = Throw x -> exists e, x = Canopy e /\ In (code e) codes.

Definition is_digit (c : ascii) : bool :=
  let n := nat_of_ascii c in (48 <=? n)%nat && (n <=? 57)%nat.

Fixpoint all_digits (s : string) : bool :=
  match s with
  | EmptyString => true
  | String c s' => is_digit c && all_digits s'
  end.

(** A whole part written canonically: digits, at least one, and no leading
    zero unless it is [0] itself. *)
Definition canonical_whole (w : string) : Prop :=
  all_digits w = true
  /\ w <> EmptyString
  /\ (w = "0" \/ JS.startsWith "0" w = false).

(** [scaleFromDecimals(scaleToDecimals(s, d), d)] *)
Definition round_trip (s : string) (d : nat) : result string :=
  do n <- Utils.scaleToDecimals s d;
  Ok (Utils.scaleFromDecimals n d).

(** [whole.fraction] with the trailing zeros of the fraction stripped, and
    without the point when nothing is left of the fraction. *)
Definition stripped (whole fraction : string) : string :=
  match JS.strip_trailing_zeros fraction with
  | EmptyString => whole
  | t => whole +++ "." +++ t
  end.

(** The decimal string [s] with trailing fractional zeros stripped. *)
Definition without_trailing_zeros (s : string) : string :=
  let parts := JS.split "." s in
  stripped (default EmptyString (parts !! 0%nat)) (default EmptyString (parts !! 1%nat)).

(** What [BigInt] followed by [toString] makes of a digit string: the
    leading zeros go, and [0] stands for nothing left. *)
Fixpoint drop_leading_zeros (s : string) : string :=
  match s with
  | String c s' => if Ascii.eqb c "0" then drop_leading_zeros s' else s
  | EmptyString => EmptyString
  end.

Definition canonical (s : string) : string :=
  match drop_leading_zeros s with
  | EmptyString => "0"
  | t => t
  end.

(** * Vocabulary of the further statements *)

(** The test [filterZeroAllocations] applies to a strategy and its amount. *)
Definition kept_allocation (p : string * Z) : bool :=
  negb (p.2 =? 0) && truthy p.1 && (p.2 >? 0).

(** An entry of a chain-side map that is not null and whose value
    [BigInt] can read, or that is skipped before it is read. *)
Definition readable_entry (entry : option RawEntry) : bool :=
  match entry with
  | None => false
  | Some e =>
      match entry_key e, entry_value e with
      | Some _, RvMalformed => false
      | _, _ => true
      end
  end.

(** An array element that is a pair with an amount [BigInt] can read. *)
Definition readable_pair (element : option (string * RawValue)) : bool :=
  match element with
  | Some (_, RvNumeric _) => true
  | _ => false
  end.

(** A view result the parser gets through: its [data] can be iterated
    and every entry is readable, or it is an array of readable pairs, or
    it has neither shape. *)
Definition readable (raw : RawAllocation) : bool :=
  match raw with
  | RawSimpleMap data => forallb readable_entry data
  | RawDataNotIterable => false
  | RawPairs pairs => forallb readable_pair pairs
  | RawOther => true
  end.

(** A chain-side map with a zero amount, an entry without key and an entry
    without value beside one real allocation. *)
Definition sample_raw_map : RawAllocation :=
  RawSimpleMap
    [ Some {| entry_key := Some "0xS1"; entry_value := RvNumeric 600 |};
      Some {| entry_key := Some "0xS2"; entry_value := RvNumeric 0 |};
      Some {| entry_key := None; entry_value := RvNumeric 5 |};
      Some {| entry_key := Some "0xS3"; entry_value := RvAbsent |} ].

(** A chain that answers [sample_raw_map] to both allocation views and
    knows one vault without strategies. *)
Definition allocation_world : World :=
  {| vault_view := fun _ => Some (vault_of []);
     is_paused := fun _ => None;
     get_allocations_view := fun _ _ => Some sample_raw_map;
     get_withdrawal_map_view := fun _ _ => Some sample_raw_map;
     withdrawal_amount_view := fun _ _ _ => None;
     is_user_subscribed := fun _ _ => None;
     get_portfolio := fun _ => None;
     post_packet := fun _ _ => None;
     pools_endpoint := fun _ _ => FetchFails;
     date_now := (0, 0) |}.

(** The same chain behind another lending API. *)
Definition with_lending_api (W : World)
    (portfolio : string -> option PortfolioData)
    (post : string -> CreatePacketRequest -> option string) : World :=
  {| vault_view := vault_view W;
     is_paused := is_paused W;
     get_allocations_view := get_allocations_view W;
     get_withdrawal_map_view := get_withdrawal_map_view W;
     withdrawal_amount_view := withdrawal_amount_view W;
     is_user_subscribed := is_user_subscribed W;
     get_portfolio := portfolio;
     post_packet := post;
     pools_endpoint := pools_endpoint W;
     date_now := date_now W |}.

(** The error codes the payload builders can end with. *)
Definition builder_codes : list CanopyErrorCode :=
  [ VAULT_NOT_FOUND; TRANSACTION_BUILD_FAILED ].

(** The packets with bytes, in the order of the list. *)
Definition with_bytes (packets : list PacketData) : list PacketData :=
  List.filter (fun p => PacketGenerator.non_empty (packet p)) packets.

(** The leading arguments shared by the deposit and withdraw payloads of a
    vault that needs no packet: the vault, no strategies, no packets, the
    amount. *)
Definition packetless_arguments (p : InputEntryFunctionData)
    (vaultAddress : string) (amount : Z) : Prop :=
  take 4 (functionArguments p)
  = [ AStr vaultAddress; AStrs []; ABytes []; AStr (JS.toString amount) ].

(** A chain whose allocation views answer something that is neither a map
    nor an array, for a vault on the default platform. *)
Definition shapeless_world : World :=
  {| vault_view := fun _ => Some (vault_of ["0x1"]);
     is_paused := fun _ => None;
     get_allocations_view := fun _ _ => Some RawOther;
     get_withdrawal_map_view := fun _ _ => Some RawOther;
     withdrawal_amount_view := fun _ _ _ => None;
     is_user_subscribed := fun _ _ => None;
     get_portfolio := fun _ => None;
     post_packet := fun _ _ => None;
     pools_endpoint := fun _ _ => FetchFails;
     date_now := (0, 0) |}.

(** The canonical spelling of an address of at most 64 digits: the [0x]
    prefix, zeros up to 64 characters, the digits in lower case. *)
Definition canonical_address (digits : string) : string :=
  "0x" +++ JS.repeat_char "0" (64 - String.length digits) +++ JS.toLowerCase digits.

(** No colon occurs in the string. *)
Fixpoint colon_free (s : string) : bool :=
  match s with
  | EmptyString => true
  | String c s' => negb (Ascii.eqb ":" c) && colon_free s'
  end.

(** The package part of a type name, without the [@] some tools print. *)
Definition package_of (pkg : string) : string :=
  if JS.startsWith "@" pkg then JS.slice_from 1 pkg else pkg.

(** The pools [stakeVaultShares] subscribes to: the given ones, less
    those the user, when there is one, has already joined. *)
Definition pools_to_subscribe (W : World) (userAddress : option string)
    (poolIds : list string) : list string :=
  match userAddress with
  | Some u =>
      if truthy u then MultiRewardsClient.getUnsubscribedPools W u poolIds
      else poolIds
  | None => poolIds
  end.

(** The message of [validateAddressArray] for the first address that
    fails, found at [index]. *)
Definition offender_message (addressType : Validation.AddressType)
    (bad : string) (index : nat) : string :=
  if truthy bad then
    "Invalid " +++ Validation.type_name addressType +++ " address format at index "
    +++ JS.toString (Z.of_nat index)
  else "Each " +++ Validation.type_name addressType +++ " address must be a string".

(** The payload of a fungible-asset withdrawal. *)
Definition fa_withdraw_call (abis : Abis) (token : string) (amount : Z)
  : InputEntryFunctionData :=
  {| function := MULTI_REWARDS_ABI_address abis +++ "::multi_rewards::withdraw";
     typeArguments := [];
     functionArguments := [ AStr token; AStr (JS.toString amount) ] |}.

(** The payload of a reward claim. *)
Definition claim_call (abis : Abis) (stakingTokens : list string)
  : InputEntryFunctionData :=
  {| function := MULTI_REWARDS_ROUTER_ABI_address abis +++ "::router::claim_rewards";
     typeArguments := [];
     functionArguments := [ AStrs stakingTokens ] |}.

(** The reward tokens of a pool that are read before the first failing
    [get_earned] call. *)
Fixpoint answered_prefix (S : StakingChain) (userAddress pool : string)
    (rewardToks : list string) : list string :=
  match rewardToks with
  | [] => []
  | tok :: rest =>
      match get_earned S userAddress pool tok with
      | Some _ => tok :: answered_prefix S userAddress pool rest
      | None => []
      end
  end.

(** The pending reward of one token of a pool, when it is not ["0"]. *)
Definition earned_reward (S : StakingChain) (userAddress pool tok : string)
  : option PendingReward :=
  match get_earned S userAddress pool tok with
  | Some earned =>
      if String.eqb earned "0" then None
      else Some {| reward_poolAddress := pool;
                   rewardToken := tok;
                   reward_amount := earned |}
  | None => None
  end.

(** The pending rewards reported for one pool. *)
Definition pool_rewards (S : StakingChain) (userAddress pool : string)
  : list PendingReward :=
  match get_pool_info S pool with
  | Some (_, rewardToks, _) =>
      omap (earned_reward S userAddress pool)
           (answered_prefix S userAddress pool (StakingViews.items_or_empty rewardToks))
  | None => []
  end.

(** A staking chain with two pools for one user: the first pool pays two
    reward tokens, the second fails on its second reward token. *)
Definition sample_staking_chain : StakingChain :=
  {| get_user_staked_balance := fun _ _ => Some "70";
     get_user_subscribed_pools := fun _ _ => Some (ArrayOf ["0xP1"; "0xP2"; "0xP3"]);
     get_pool_info := fun pool =>
       if String.eqb pool "0xP3" then None
       else Some ("0xT", ArrayOf ["0xR1"; "0xR2"; "0xR3"], "1000");
     get_earned := fun _ pool tok =>
       if String.eqb pool "0xP2" && String.eqb tok "0xR2" then None
       else if String.eqb tok "0xR3" then Some "0"
       else Some "5" |}.

(** The one error of the GraphQL clients. *)
Definition fetch_failure : exn :=
  Canopy (mkCanopyError FAILED_TO_FETCH_METADATA NETWORK_ERROR).

(** The cache key of the vaults of one chain, and the request for them. *)
Definition chain_key (chainId : Z) : string := "chain-" +++ JS.toString chainId.

Definition metadata_request (chainId : Z) : GraphQLRequest :=
  {| operationName := "GetCanopyMetadata";
     variables := Some (JS.toString chainId);
     api_key_header := None |}.

(** An item that is not hidden and whose address is [vaultAddress] up to
    letter case. *)
Definition listed_at (vaultAddress : string) (item : CanopyMetadataItem) : bool :=
  GraphQLClient.shown item
  && String.eqb (JS.toLowerCase (networkAddress item)) (JS.toLowerCase vaultAddress).

(** A metadata item with the given address and visibility. *)
Definition sample_item (addr : string) (hidden : option bool) : CanopyMetadataItem :=
  {| networkAddress := addr;
     item_displayName := "Vault";
     item_investmentType := "lending";
     item_networkType := "movement";
     item_riskScore := 1;
     isHidden := hidden;
     item_description := EmptyString;
     item_iconURL := EmptyString;
     item_labels := [];
     item_rewardPools := None;
     item_additionalMetadata := [];
     item_paused := false;
     item_token0 := EmptyString;
     item_token1 := EmptyString;
     item_tvl := EmptyString;
     item_totalSupply := None;
     item_token0Balance := EmptyString;
     item_token1Balance := EmptyString;
     item_decimals0 := 8;
     item_decimals1 := 0;
     item_apr := "4.2";
     item_rewardApr := EmptyString |}.

(** An endpoint that always answers the same. *)
Definition always {A} (reply : Reply A) : string -> GraphQLRequest -> Reply A :=
  fun _ _ => reply.

(** The fifth argument of a deposit payload: the minimum shares out. *)
Definition min_shares_out (p : InputEntryFunctionData) : option Arg :=
  functionArguments p !! 4%nat.

(** * Properties *)

(** ** Allocation validation *)

Section AllocationValidation.

Import StrategyAllocator.

Lemma reduce_sum (amounts : list Z) (start : Z) :
  fold_left (fun sum amount => sum + amount) amounts start
  = start + allocated_sum amounts.
Proof.
  revert start. induction amounts as [|a amounts IH]; intros start; simpl.
  - lia.
  - rewrite IH. unfold allocated_sum. lia.
Qed.

Lemma diff_is_abs (x y : Z) :
  (if x >? y then x - y else y - x) = Z.abs (x - y).
Proof. destruct (Z.gtb_spec x y); lia. Qed.

Lemma validateAllocation_cases (allocation : AllocationMap) (totalAmount : Z) :
  (rejected allocation totalAmount
   /\ throws_build_failed (validateAllocation allocation totalAmount))
  \/ (~ rejected allocation totalAmount
      /\ validateAllocation allocation totalAmount = Ok tt).
Proof.
  unfold validateAllocation, rejected, throws_build_failed, raise.
  destruct allocation as [strats amts]; simpl.
  destruct (Nat.eqb_spec (length strats) 0) as [H0|H0].
  { left. split; [left; now destruct strats | eauto]. }
  destruct (Nat.eqb_spec (length strats) (length amts)) as [Hl|Hl]; simpl.
  2:{ left. split; [right; left; assumption | eauto]. }
  rewrite reduce_sum, diff_is_abs, Z.add_0_l.
  destruct (Z.gtb_spec (Z.abs (allocated_sum amts - totalAmount))
              (Z.quot totalAmount 1000)) as [Hd|Hd].
  - left. split; [right; right; lia | eauto].
  - right. split; [|reflexivity].
    intros [He|[Hne|Hgt]]; [subst strats; simpl in H0; lia | congruence | lia].
Qed.

End AllocationValidation.

(** C1. For every allocation map and every positive total amount,
    [validateAllocation] throws, and then a TransactionBuildFailed error,
    exactly when the strategies list is empty, or the two lists differ in
    length, or the sum of the amounts is further from the total than
    [totalAmount / 1000] (truncated division); otherwise it returns
    normally, whether the sum is above or below the total. *)
Theorem validateAllocation_throws_iff (allocation : AllocationMap) (totalAmount : Z) :
  0 < totalAmount ->
  (throws_build_failed (StrategyAllocator.validateAllocation allocation totalAmount)
   <-> rejected allocation totalAmount)
  /\ (StrategyAllocator.validateAllocation allocation totalAmount = Ok tt
      <-> ~ rejected allocation totalAmount)
  /\ (forall x, StrategyAllocator.validateAllocation allocation totalAmount = Throw x ->
      exists msg, x = Canopy (mkCanopyError msg TRANSACTION_BUILD_FAILED)).
Proof.
  intros _.
  destruct (validateAllocation_cases allocation totalAmount)
    as [[Hr [msg Ht]]|[Hr Ho]].
  - repeat split.
    + intros _. exact Hr.
    + intros _. exists msg. exact Ht.
    + rewrite Ht. discriminate.
    + intros Hn. contradiction.
    + intros x Hx. rewrite Ht in Hx. injection Hx as <-. eauto.
  - repeat split.
    + intros [msg Ht]. rewrite Ho in Ht. discriminate.
    + intros Hn. contradiction.
    + intros _. exact Hr.
    + intros _. exact Ho.
    + intros x Hx. rewrite Ho in Hx. discriminate.
Qed.

(** A total of one million with 999 500 allocated over two strategies is
    inside the tolerance of 1000, on the under-allocated side. *)
Lemma validateAllocation_throws_iff_witness :
  0 < 1000000
  /\ StrategyAllocator.validateAllocation
       {| alloc_strategies := ["0xS1"; "0xS2"]; alloc_amounts := [600000; 399500] |}
       1000000 = Ok tt.
Proof.
  split; [lia|].
  apply (validateAllocation_throws_iff
           {| alloc_strategies := ["0xS1"; "0xS2"]; alloc_amounts := [600000; 399500] |}
           1000000); [lia|].
  unfold rejected, allocated_sum; simpl.
  intros [H|[H|H]]; [discriminate | congruence | ].
  vm_compute in H. discriminate.
Defined.

(** ** Packet arrays follow the allocation order *)

Section PacketArrays.

Import PacketGenerator.

Lemma push_allocated_fold (packets : list PacketData) (strats : list string)
    (acc : list string * list (list byte)) :
  fold_left (push_allocated packets) strats acc
  = (acc.1 ++ List.filter (first_packet_non_empty packets) strats,
     acc.2 ++ map (first_packet_bytes packets)
                  (List.filter (first_packet_non_empty packets) strats)).
Proof.
  revert acc. induction strats as [|s strats IH]; intros [names datas]; simpl.
  - now rewrite !app_nil_r.
  - rewrite IH. unfold push_allocated, first_packet_non_empty, first_packet_bytes.
    destruct (find_packet packets s) as [p|] eqn:Hf; simpl; [|reflexivity].
    destruct (non_empty (packet p)); simpl; [|reflexivity].
    rewrite Hf, <- !app_assoc. reflexivity.
Qed.

Lemma find_packet_nil (s : string) : find_packet [] s = None.
Proof. reflexivity. Qed.

Lemma createPacketArrays_allocated (packets : list PacketData) (a : AllocationMap) :
  createPacketArrays packets (Some a)
  = (List.filter (first_packet_non_empty packets) (alloc_strategies a),
     map (first_packet_bytes packets)
         (List.filter (first_packet_non_empty packets) (alloc_strategies a))).
Proof.
  unfold createPacketArrays.
  destruct packets as [|p packets]; simpl length.
  - simpl. induction (alloc_strategies a) as [|s l IH]; [reflexivity|].
    simpl. exact IH.
  - cbn [Nat.eqb]. rewrite push_allocated_fold. reflexivity.
Qed.

Lemma existsb_absent (packets : list PacketData) (s : string) :
  ~ In s (map strategy packets) -> has_non_empty_packet packets s = false.
Proof.
  induction packets as [|p packets IH]; simpl; intros Hn; [reflexivity|].
  destruct (String.eqb_spec (strategy p) s) as [He|He]; simpl.
  - exfalso. apply Hn. now left.
  - apply IH. intros Hin. apply Hn. now right.
Qed.

Lemma first_is_any_without_duplicates (packets : list PacketData) (s : string) :
  List.NoDup (map strategy packets) ->
  first_packet_non_empty packets s = has_non_empty_packet packets s.
Proof.
  unfold first_packet_non_empty, find_packet.
  induction packets as [|p packets IH]; simpl; intros Hnd; [reflexivity|].
  inversion Hnd as [|x l Hnotin Hnd']; subst.
  destruct (String.eqb_spec (strategy p) s) as [He|He]; simpl.
  - subst s. rewrite (existsb_absent packets (strategy p) Hnotin).
    now rewrite orb_false_r.
  - now apply IH.
Qed.

End PacketArrays.

(** C2, as stated, fails when two packets carry the same strategy: with an
    empty packet followed by a non-empty one for strategy [0xA], [find]
    settles on the empty one and the strategy is left out, although it
    has a non-empty packet in the list. *)
Lemma createPacketArrays_duplicate_counterexample :
  let packets :=
    [ {| strategy := "0xA"; packet := [] |};
      {| strategy := "0xA"; packet := ["001"%byte] |} ] in
  let allocation := {| alloc_strategies := ["0xA"]; alloc_amounts := [5] |} in
  (PacketGenerator.createPacketArrays packets (Some allocation)).1 = []
  /\ List.filter (has_non_empty_packet packets) (alloc_strategies allocation) = ["0xA"]
  /\ (PacketGenerator.createPacketArrays packets (Some allocation)).1
     <> List.filter (has_non_empty_packet packets) (alloc_strategies allocation).
Proof. cbv zeta. repeat split; try reflexivity. vm_compute. discriminate. Qed.

(** C2, amended. For every packet list and every supplied allocation,
    [packetStrategies] is the allocation's strategy sequence, in the
    allocation's order, restricted to the strategies whose first packet in
    the packet list is non-empty; [packetData] is aligned with it element
    by element (the bytes of that first packet); a strategy absent from the
    allocation never appears; and when no two packets carry the same
    strategy, the restriction is to the strategies having a non-empty
    packet in the list. *)
Theorem createPacketArrays_follows_allocation
    (packets : list PacketData) (allocation : AllocationMap) :
  let r := PacketGenerator.createPacketArrays packets (Some allocation) in
  r.1 = List.filter (first_packet_non_empty packets) (alloc_strategies allocation)
  /\ r.2 = map (first_packet_bytes packets) r.1
  /\ length r.2 = length r.1
  /\ (forall s, In s r.1 -> In s (alloc_strategies allocation))
  /\ (List.NoDup (map strategy packets) ->
      r.1 = List.filter (has_non_empty_packet packets) (alloc_strategies allocation)).
Proof.
  cbv zeta. rewrite createPacketArrays_allocated. cbn [fst snd].
  split; [reflexivity|]. split; [reflexivity|].
  split; [apply length_map|].
  split.
  - intros s Hin. apply List.filter_In in Hin. tauto.
  - intros Hnd. apply List.filter_ext. intros s.
    now apply first_is_any_without_duplicates.
Qed.

(** Packets generated in the order [0xB], [0xA], [0xC] come back in the
    allocation's order [0xA], [0xB], without the empty one and without the
    strategy the allocation does not name. *)
Lemma createPacketArrays_follows_allocation_witness :
  let packets :=
    [ {| strategy := "0xB"; packet := ["002"%byte] |};
      {| strategy := "0xA"; packet := ["001"%byte] |};
      {| strategy := "0xC"; packet := ["003"%byte] |};
      {| strategy := "0xD"; packet := [] |} ] in
  let allocation :=
    {| alloc_strategies := ["0xA"; "0xD"; "0xB"]; alloc_amounts := [1; 2; 3] |} in
  List.NoDup (map strategy packets)
  /\ (PacketGenerator.createPacketArrays packets (Some allocation)).1
       = List.filter (has_non_empty_packet packets) (alloc_strategies allocation)
  /\ PacketGenerator.createPacketArrays packets (Some allocation)
       = (["0xA"; "0xB"], [["001"%byte]; ["002"%byte]]).
Proof.
  cbv zeta.
  assert (Hnd : List.NoDup ["0xB"; "0xA"; "0xC"; "0xD"]).
  { repeat constructor; simpl; intuition discriminate. }
  split; [exact Hnd|]. split; [|reflexivity].
  apply (createPacketArrays_follows_allocation
           [ {| strategy := "0xB"; packet := ["002"%byte] |};
             {| strategy := "0xA"; packet := ["001"%byte] |};
             {| strategy := "0xC"; packet := ["003"%byte] |};
             {| strategy := "0xD"; packet := [] |} ]
           {| alloc_strategies := ["0xA"; "0xD"; "0xB"]; alloc_amounts := [1; 2; 3] |}).
  exact Hnd.
Defined.

(** ** Packet generation keeps one entry per strategy *)

Section PacketGeneration.

Import PacketGenerator.

Context (W : World) (network : string) (operation : Operation)
        (options : PacketGeneratorOptions).

#[local] Abbreviation entry := (packet_entry W network operation options).

Lemma generate_step_entry (strats : list string) (amts : list Z)
    (packets : list PacketData) (i : nat) (s : string) (a : Z) :
  strats !! i = Some s -> amts !! i = Some a -> s <> EmptyString ->
  generate_step W network strats amts operation options packets i
  = packets ++ [entry s a].
Proof.
  intros Hs Ha Hne. unfold generate_step, packet_entry, packet_or_empty, truthy.
  rewrite Hs, Ha.
  destruct (String.eqb_spec s EmptyString) as [He|_]; [contradiction|]. simpl.
  destruct (a =? 0); [reflexivity|].
  now destruct (generateSinglePacket W network s a operation options).
Qed.

Lemma generate_fold (strats : list string) (amts : list Z) (k : nat) :
  length strats = length amts ->
  List.Forall (fun s => s <> EmptyString) strats ->
  (k <= length strats)%nat ->
  fold_left (generate_step W network strats amts operation options) (seq 0 k) []
  = take k (zip_with entry strats amts).
Proof.
  intros Hlen Hall. induction k as [|k IH]; intros Hk; [reflexivity|].
  rewrite seq_S, fold_left_app, IH by lia. simpl.
  destruct (lookup_lt_is_Some_2 strats k) as [s Hs]; [lia|].
  destruct (lookup_lt_is_Some_2 amts k) as [a Ha]; [lia|].
  assert (Hne : s <> EmptyString).
  { rewrite List.Forall_forall in Hall. apply Hall.
    apply list_elem_of_In. eapply list_elem_of_lookup_2. exact Hs. }
  rewrite (generate_step_entry _ _ _ _ s a Hs Ha Hne).
  symmetry. apply take_S_r. rewrite lookup_zip_with, Hs, Ha. reflexivity.
Qed.

Lemma strategies_of_entries (strats : list string) (amts : list Z) :
  length strats = length amts ->
  map strategy (zip_with entry strats amts) = strats.
Proof.
  revert amts. induction strats as [|s strats IH]; intros [|a amts] Hlen;
    simpl in *; try reflexivity; try discriminate.
  f_equal. apply IH. lia.
Qed.

Lemma generate_step_any (strats : list string) (amts : list Z)
    (packets : list PacketData) (i : nat) (s : string) (a : Z) :
  strats !! i = Some s -> amts !! i = Some a ->
  generate_step W network strats amts operation options packets i
  = packets ++ (if truthy s then [entry s a] else []).
Proof.
  intros Hs Ha. unfold generate_step, packet_entry, packet_or_empty.
  rewrite Hs, Ha. destruct (truthy s); cbn [negb]; [|now rewrite app_nil_r].
  destruct (a =? 0); [reflexivity|].
  now destruct (generateSinglePacket W network s a operation options).
Qed.

Lemma generate_fold_any (strats : list string) (amts : list Z) (k : nat) :
  length strats = length amts -> (k <= length strats)%nat ->
  fold_left (generate_step W network strats amts operation options) (seq 0 k) []
  = map (fun p => entry p.1 p.2)
        (List.filter (fun p => truthy p.1) (take k (zip strats amts))).
Proof.
  intros Hlen. induction k as [|k IH]; intros Hk; [reflexivity|].
  rewrite seq_S, fold_left_app, IH by lia. cbn [fold_left Nat.add].
  destruct (lookup_lt_is_Some_2 strats k) as [s Hs]; [lia|].
  destruct (lookup_lt_is_Some_2 amts k) as [a Ha]; [lia|].
  assert (Hz : zip strats amts !! k = Some (s, a)).
  { rewrite lookup_zip_with, Hs, Ha. reflexivity. }
  rewrite (generate_step_any _ _ _ _ s a Hs Ha).
  rewrite (take_S_r _ _ _ Hz), List.filter_app, List.map_app.
  cbn [List.filter fst]. now destruct (truthy s).
Qed.

Lemma strategies_of_kept (strats : list string) (amts : list Z) :
  length strats = length amts ->
  map strategy
    (map (fun p => entry p.1 p.2) (List.filter (fun p => truthy p.1) (zip strats amts)))
  = List.filter truthy strats.
Proof.
  revert amts. induction strats as [|s strats IH]; intros [|a amts] Hlen;
    try reflexivity; try discriminate.
  cbn [zip_with List.filter fst]. injection Hlen as Hlen.
  destruct (truthy s); cbn [map]; [f_equal|]; now apply IH.
Qed.

Lemma no_broker (c : MovePositionConfig) (coin : string) :
  nameMap c !! coin = None -> ~ In coin JS.Object_prototype_members ->
  JS.get (nameMap c) coin = JS.Undefined.
Proof.
  intros Hnone Hown. unfold JS.get. rewrite Hnone.
  destruct (JS.inherited coin) eqn:Hi; [|reflexivity].
  exfalso. apply Hown. unfold JS.inherited in Hi.
  apply existsb_exists in Hi as (name & Hin & Heq).
  apply String.eqb_eq in Heq. now subst name.
Qed.

Lemma failure_gives_empty (s : string) (a : Z) :
  generation_fails W network operation options s a ->
  packet_or_empty W network operation options s a = [].
Proof.
  unfold generation_fails, packet_or_empty, generateSinglePacket.
  destruct (a =? 0); [reflexivity|].
  intros [Hc|[(c & Hc & Hu)|[(c & Hc & Hb & Hown)|[[Hop Hv]|[(c & Hc & Hp)|[x Hx]]]]]].
  - now rewrite Hc.
  - rewrite Hc, Hu. reflexivity.
  - rewrite Hc. destruct (negb (truthy (apiUrl c))); [reflexivity|].
    now rewrite (no_broker c _ Hb Hown).
  - subst operation.
    destruct (opt_movepositionConfig options) as [c|]; [|reflexivity].
    destruct (negb (truthy (apiUrl c))); [reflexivity|].
    destruct (negb (JS.truthy_property
                      (JS.get (nameMap c) (virtualCoinType options))));
      [reflexivity|].
    unfold getExactAmount. rewrite Hv. reflexivity.
  - rewrite Hc.
    destruct (negb (truthy (apiUrl c))); [reflexivity|].
    destruct (negb (JS.truthy_property
                      (JS.get (nameMap c) (virtualCoinType options))));
      [reflexivity|].
    match goal with |- context [if ?e =? 0 then _ else _] => destruct (e =? 0) end;
      [reflexivity|].
    unfold computePacketData, computePortfolioState, getPortfolioData.
    rewrite Hp. reflexivity.
  - unfold generateSinglePacket in Hx. rewrite Hx. reflexivity.
Qed.

End PacketGeneration.

(** C3, as stated, fails on an input that has an empty strategy string:
    the loop skips that index and the result is shorter than the input. *)
Lemma generatePackets_skips_empty_strategy_counterexample :
  length [EmptyString] = length [5]
  /\ PacketGenerator.generatePackets unreachable_world MOVEMENT_MAINNET
       [EmptyString] [5] deposit_op no_options = Ok []
  /\ ~ (exists packets,
         PacketGenerator.generatePackets unreachable_world MOVEMENT_MAINNET
           [EmptyString] [5] deposit_op no_options = Ok packets
         /\ length packets = length [EmptyString]).
Proof.
  split; [reflexivity|]. split; [reflexivity|].
  intros (packets & Hp & Hl). vm_compute in Hp. injection Hp as <-. discriminate.
Qed.

(** C3, amended. For every equal-length strategies/amounts input,
    [generatePackets] returns normally, and what it returns is, in order,
    one entry for every index whose strategy is a non-empty string: an
    index whose strategy is the empty string is skipped.  When all the
    strategies are non-empty strings the list is as long as the input and
    its element [i] carries [strategies[i]] together with the bytes
    generated for that strategy and amount alone; when the generation for
    a strategy fails (no API configuration, no broker mapping, failed
    exact-amount lookup, unreachable remote service or any thrown error)
    its bytes are empty, and the entries of the other strategies are what
    their own generation gives. *)
Theorem generatePackets_isolates_failures (W : World) (network : string)
    (strats : list string) (amts : list Z) (operation : Operation)
    (options : PacketGeneratorOptions) :
  length strats = length amts ->
  exists packets,
    PacketGenerator.generatePackets W network strats amts operation options = Ok packets
    /\ packets
       = map (fun p => packet_entry W network operation options p.1 p.2)
             (List.filter (fun p => truthy p.1) (zip strats amts))
    /\ map strategy packets = List.filter truthy strats
    /\ (List.Forall (fun s => s <> EmptyString) strats ->
        length packets = length strats
        /\ map strategy packets = strats
        /\ (forall i s a, strats !! i = Some s -> amts !! i = Some a ->
              packets !! i = Some (packet_entry W network operation options s a))
        /\ (forall i s a, strats !! i = Some s -> amts !! i = Some a ->
              generation_fails W network operation options s a ->
              packets !! i = Some {| strategy := s; packet := [] |})).
Proof.
  intros Hlen.
  assert (Hrun : PacketGenerator.generatePackets W network strats amts operation options
                 = Ok (fold_left
                         (PacketGenerator.generate_step W network strats amts
                            operation options)
                         (seq 0 (length strats)) [])).
  { unfold PacketGenerator.generatePackets.
    destruct (Nat.eqb_spec (length strats) (length amts)) as [_|Hn];
      [reflexivity|contradiction]. }
  rewrite Hrun. eexists. split; [reflexivity|].
  assert (Hkept :
    fold_left (PacketGenerator.generate_step W network strats amts operation options)
      (seq 0 (length strats)) []
    = map (fun p => packet_entry W network operation options p.1 p.2)
          (List.filter (fun p => truthy p.1) (zip strats amts))).
  { rewrite (generate_fold_any W network operation options strats amts
               (length strats) Hlen (le_n _)).
    rewrite take_ge by (rewrite length_zip_with; lia). reflexivity. }
  split; [exact Hkept|]. split.
  { rewrite Hkept. now apply strategies_of_kept. }
  intros Hall.
  assert (Hzip :
    fold_left (PacketGenerator.generate_step W network strats amts operation options)
      (seq 0 (length strats)) []
    = zip_with (packet_entry W network operation options) strats amts).
  { rewrite (generate_fold W network operation options strats amts (length strats))
      by (auto; lia).
    apply take_ge. rewrite length_zip_with. lia. }
  rewrite Hzip.
  assert (Hat : forall i s a, strats !! i = Some s -> amts !! i = Some a ->
            zip_with (packet_entry W network operation options) strats amts !! i
            = Some (packet_entry W network operation options s a)).
  { intros i s a Hs Ha. rewrite lookup_zip_with, Hs, Ha. reflexivity. }
  split; [|split; [|split]].
  - rewrite length_zip_with. lia.
  - now apply strategies_of_entries.
  - exact Hat.
  - intros i s a Hs Ha Hf. rewrite (Hat i s a Hs Ha). unfold packet_entry.
    now rewrite (failure_gives_empty W network operation options s a Hf).
Qed.

(** Three strategies, the second of which meets an unreachable portfolio
    endpoint: three entries come back, the second empty, the others
    signed; and with an empty strategy in the middle, two come back. *)
Lemma generatePackets_isolates_failures_witness :
  (exists packets,
      PacketGenerator.generatePackets flaky_world MOVEMENT_MAINNET
        ["0xS1"; "0xS2"; "0xS3"] [10; 20; 30] deposit_op lending_options = Ok packets
      /\ length packets = 3%nat
      /\ packets !! 1%nat = Some {| strategy := "0xS2"; packet := [] |})
  /\ (exists packets,
        PacketGenerator.generatePackets flaky_world MOVEMENT_MAINNET
          ["0xS1"; EmptyString; "0xS3"] [10; 20; 30] deposit_op lending_options
        = Ok packets
        /\ map strategy packets = ["0xS1"; "0xS3"]).
Proof.
  assert (Hall : List.Forall (fun s => s <> EmptyString) ["0xS1"; "0xS2"; "0xS3"]).
  { repeat constructor; discriminate. }
  split.
  - destruct (generatePackets_isolates_failures flaky_world MOVEMENT_MAINNET
                ["0xS1"; "0xS2"; "0xS3"] [10; 20; 30] deposit_op lending_options
                eq_refl)
      as (packets & Hok & _ & _ & Hfull).
    destruct (Hfull Hall) as (Hlen & _ & _ & Hfail).
    exists packets. split; [exact Hok|]. split; [exact Hlen|].
    apply (Hfail 1%nat "0xS2" 20 eq_refl eq_refl).
    unfold generation_fails. do 4 right. left.
    eexists. split; reflexivity.
  - destruct (generatePackets_isolates_failures flaky_world MOVEMENT_MAINNET
                ["0xS1"; EmptyString; "0xS3"] [10; 20; 30] deposit_op lending_options
                eq_refl)
      as (packets & Hok & _ & Hkept & _).
    exists packets. split; [exact Hok|exact Hkept].
Defined.

(** ** Platform classification *)


Lemma lower_keeps_prefix (s : string) :
  JS.startsWith "0x" s = true -> JS.startsWith "0x" (JS.toLowerCase s) = true.
Proof.
  destruct s as [|a [|b s]]; cbn [JS.startsWith]; try discriminate.
  - rewrite andb_false_r. discriminate.
  - destruct (Ascii.eqb_spec "0" a) as [<-|]; [|discriminate].
    destruct (Ascii.eqb_spec "x" b) as [<-|]; [|discriminate].
    intros _. reflexivity.
Qed.

Lemma known_constant_cases (constant name : string) :
  In (constant, name) known_platforms ->
  (constant = MOVEPOSITION_SIMPLE_CONCRETE_ADDRESS /\ name = "MovePosition")
  \/ (constant = ECHELON_SIMPLE_CONCRETE_ADDRESS /\ name = "Echelon")
  \/ (constant = LAYERBANK_SIMPLE_CONCRETE_ADDRESS /\ name = "LayerBank")
  \/ (constant = MERIDIAN_SIMPLE_CONCRETE_ADDRESS /\ name = "Meridian").
Proof.
  unfold known_platforms. simpl.
  intros [H|[H|[H|[H|[]]]]];
    pose proof (f_equal fst H) as Hc; pose proof (f_equal snd H) as Hn;
    simpl in Hc, Hn; subst constant name; tauto.
Qed.

(** Case split over the four known constants. *)
Ltac each_known_constant Hk :=
  apply known_constant_cases in Hk;
  destruct Hk as [[-> ->]|[[-> ->]|[[-> ->]|[-> ->]]]].

Lemma normalize_spelling (constant name given : string) :
  In (constant, name) known_platforms ->
  spelling_of constant given ->
  VaultDetector.normalizeAddress given = JS.slice_from 2 constant
  /\ truthy given = true.
Proof.
  intros Hk (digits & Hlow & Hgiven).
  assert (Hnp : JS.startsWith "0x" digits = false).
  { destruct (JS.startsWith "0x" digits) eqn:Hp; [|reflexivity].
    apply lower_keeps_prefix in Hp. rewrite Hlow in Hp.
    each_known_constant Hk; vm_compute in Hp; discriminate. }
  assert (Hpad : JS.padStart 64 "0" (JS.slice_from 2 constant) = JS.slice_from 2 constant).
  { each_known_constant Hk; reflexivity. }
  assert (Hne : digits <> EmptyString).
  { intros ->. simpl in Hlow. each_known_constant Hk; discriminate. }
  unfold VaultDetector.normalizeAddress.
  destruct Hgiven as [->| ->].
  - rewrite Hnp, Hlow, Hpad. split; [reflexivity|].
    unfold truthy. now destruct digits.
  - change (JS.startsWith "0x" ("0x" +++ digits)) with true. cbv iota.
    change (JS.slice_from 2 ("0x" +++ digits)) with digits.
    rewrite Hlow, Hpad. split; reflexivity.
Qed.

Lemma builder_normalize (value : string) :
  TransactionBuilder.normalizeAddress value
  = "0x" +++ VaultDetector.normalizeAddress value.
Proof. reflexivity. Qed.

Lemma builder_agrees (constant : string) (vault : VaultView) :
  TransactionBuilder.is_platform constant vault
  = VaultDetector.is_platform constant vault.
Proof.
  unfold TransactionBuilder.is_platform, VaultDetector.is_platform.
  destruct (VaultDetector.first_concrete vault) as [c|]; [|reflexivity].
  rewrite !builder_normalize. reflexivity.
Qed.

Lemma platform_name_listed (vault : VaultView) :
  In (VaultDetector.getPlatformName vault) platform_names.
Proof.
  unfold VaultDetector.getPlatformName, platform_names.
  destruct (VaultDetector.isMovePosition vault); [simpl; tauto|].
  destruct (VaultDetector.isEchelon vault); [simpl; tauto|].
  destruct (VaultDetector.isLayerBank vault); [simpl; tauto|].
  destruct (VaultDetector.isMeridian vault); simpl; tauto.
Qed.


(** C4, as stated, fails when the prefix itself is written in upper case:
    the detector tests for the prefix [0x] before it lower-cases, so the
    LayerBank constant written with [0X] keeps its prefix, is padded to a
    different string, and the vault is classified as the default
    platform. *)
Lemma classification_upper_prefix_counterexample :
  let given := "0XAD1B34939F164EC6F6C0157DA3A30BF9E5D408250978691872A79AA584852B85" in
  JS.toLowerCase given = LAYERBANK_SIMPLE_CONCRETE_ADDRESS
  /\ VaultDetector.getPlatformName (vault_of [LAYERBANK_SIMPLE_CONCRETE_ADDRESS])
     = "LayerBank"
  /\ VaultDetector.getPlatformName (vault_of [given]) = "Satay"
  /\ TransactionBuilder.isLayerBank (vault_of [given]) = false
  /\ VaultDetector.getPlatformName (vault_of [given])
     <> VaultDetector.getPlatformName (vault_of [LAYERBANK_SIMPLE_CONCRETE_ADDRESS]).
Proof.
  cbv zeta. split; [reflexivity|]. split; [reflexivity|]. split; [reflexivity|].
  split; [reflexivity|]. vm_compute. discriminate.
Qed.

(** C4, amended. Classification is a total function of the vault: it
    always answers one of the five platform names; a vault with no
    strategies is [Satay]; a vault whose first strategy's concrete address
    spells a known platform constant, with the prefix [0x] as it is
    written or without a prefix and with its hex digits in any letter
    case, is that platform; and the transaction builder's own platform
    tests agree with the detector's. *)
Theorem classification_total_and_normalized :
  (forall vault, In (VaultDetector.getPlatformName vault) platform_names)
  /\ (forall vault, strategies vault = [] ->
        VaultDetector.getPlatformName vault = "Satay")
  /\ (forall vault first rest constant name,
        In (constant, name) known_platforms ->
        strategies vault = first :: rest ->
        spelling_of constant (concreteAddress first) ->
        VaultDetector.getPlatformName vault = name)
  /\ (forall vault,
        TransactionBuilder.isMovePosition vault = VaultDetector.isMovePosition vault
        /\ TransactionBuilder.isEchelon vault = VaultDetector.isEchelon vault
        /\ TransactionBuilder.isLayerBank vault = VaultDetector.isLayerBank vault
        /\ TransactionBuilder.isMeridian vault = VaultDetector.isMeridian vault).
Proof.
  split; [exact platform_name_listed|]. split; [|split].
  - intros vault Hs.
    unfold VaultDetector.getPlatformName, VaultDetector.isMovePosition,
      VaultDetector.isEchelon, VaultDetector.isLayerBank, VaultDetector.isMeridian,
      VaultDetector.is_platform, VaultDetector.first_concrete.
    rewrite Hs. reflexivity.
  - intros vault first rest constant name Hk Hs Hsp.
    destruct (normalize_spelling constant name _ Hk Hsp) as [Hn Ht].
    unfold VaultDetector.getPlatformName, VaultDetector.isMovePosition,
      VaultDetector.isEchelon, VaultDetector.isLayerBank, VaultDetector.isMeridian,
      VaultDetector.is_platform, VaultDetector.first_concrete.
    rewrite Hs. cbn [lookup list_lookup]. rewrite Ht, Hn.
    each_known_constant Hk; vm_compute; reflexivity.
  - intros vault. repeat split; apply builder_agrees.
Qed.

(** The LayerBank constant written without prefix and in upper case. *)
Lemma classification_total_and_normalized_witness :
  In (LAYERBANK_SIMPLE_CONCRETE_ADDRESS, "LayerBank") known_platforms
  /\ spelling_of LAYERBANK_SIMPLE_CONCRETE_ADDRESS
       "AD1B34939F164EC6F6C0157DA3A30BF9E5D408250978691872A79AA584852B85"
  /\ VaultDetector.getPlatformName
       (vault_of ["AD1B34939F164EC6F6C0157DA3A30BF9E5D408250978691872A79AA584852B85";
                  "0x1"])
     = "LayerBank".
Proof.
  assert (Hk : In (LAYERBANK_SIMPLE_CONCRETE_ADDRESS, "LayerBank") known_platforms).
  { unfold known_platforms. simpl. tauto. }
  assert (Hs : spelling_of LAYERBANK_SIMPLE_CONCRETE_ADDRESS
                 "AD1B34939F164EC6F6C0157DA3A30BF9E5D408250978691872A79AA584852B85").
  { eexists. split; [|left; reflexivity]. reflexivity. }
  split; [exact Hk|]. split; [exact Hs|].
  destruct classification_total_and_normalized as (_ & _ & Hspell & _).
  eapply (Hspell _ _ _ _ _ Hk); [reflexivity|exact Hs].
Defined.
(** ** Staking-pool resolution *)

Section Staking.

Import MultiRewardsClient.

Context (abis : Abis) (W : World) (c : t).

Lemma stakeVaultShares_valid (token : string) (amount : Z)
    (user : option string) (explicit : option (list string)) :
  token <> EmptyString -> JS.startsWith "0x" token = true -> 0 < amount ->
  (stakeVaultShares abis W c token amount user explicit).2
  = match (resolve_pool_ids W c token explicit).2 with
    | Ok poolIds => Ok (stake_payload abis W token amount user poolIds)
    | Throw x => rethrow_or_wrap "Failed to create staking transaction"
                   TRANSACTION_BUILD_FAILED x
    end.
Proof.
  intros Hne Hp Ha. unfold stakeVaultShares, truthy.
  destruct (String.eqb_spec token EmptyString) as [|_]; [contradiction|].
  rewrite Hp. cbn [negb].
  destruct (Z.leb_spec amount 0) as [|_]; [lia|].
  cbn [snd]. unfold try_catch, bind.
  now destruct (resolve_pool_ids W c token explicit).2.
Qed.

(** No member of [Object.prototype] starts with [0x]. *)
Lemma prefixed_is_own (token : string) :
  JS.startsWith "0x" token = true -> JS.inherited token = false.
Proof.
  destruct token as [|a [|b token]]; cbn [JS.startsWith]; try discriminate.
  - rewrite andb_false_r. discriminate.
  - destruct (Ascii.eqb_spec "0" a) as [<-|]; [|discriminate].
    intros _. reflexivity.
Qed.

Lemma static_lookup (token : string) :
  JS.startsWith "0x" token = true ->
  hasStaticPoolMapping token
  = bool_decide (is_Some (STAKING_TOKEN_POOL_MAPPINGS !! token))
  /\ getStaticPoolMapping token
     = default [] (STAKING_TOKEN_POOL_MAPPINGS !! token).
Proof.
  intros Hp. unfold hasStaticPoolMapping, getStaticPoolMapping, JS.has, JS.get.
  rewrite (prefixed_is_own token Hp), orb_false_r. split; [reflexivity|].
  now destruct (STAKING_TOKEN_POOL_MAPPINGS !! token).
Qed.

Lemma key_configured :
  MultiRewardsGQLClient.hasApiKey (gqlClient c) = true <-> api_key_configured c.
Proof.
  unfold MultiRewardsGQLClient.hasApiKey, api_key_configured, truthy.
  destruct (MultiRewardsGQLClient.apiKey (gqlClient c)) as [k|].
  - destruct (String.eqb_spec k EmptyString) as [->|Hk]; cbn [negb].
    + split; [discriminate|]. intros (key & Hkey & Hne). now injection Hkey as <-.
    + split; [|reflexivity]. intros _. now exists k.
  - split; [discriminate|]. intros (key & Hkey & _). discriminate.
Qed.

(** The pools of the third layer are the discovered ones. *)
Lemma fetched_is_discovered (token : string) :
  (getStakingPoolsForToken W c token).2 = discovered W c token.
Proof.
  unfold getStakingPoolsForToken, discovered, remembered,
    MultiRewardsGQLClient.fetchStakingPoolsByToken, MultiRewardsGQLClient.fetch_cached.
  change ("pools-" +++ JS.toLowerCase token) with (pool_key token).
  change {| operationName := "GetMRStakingPoolsByToken";
            variables := Some token;
            api_key_header := MultiRewardsGQLClient.api_key_of (gqlClient c) |}
    with (pools_request (gqlClient c) token).
  cbn [snd].
  destruct (MultiRewardsGQLClient.cache (gqlClient c) !! pool_key token) as [answer|].
  - destruct ((date_now W).1 - cached_timestamp answer
              <? MultiRewardsGQLClient.cacheTimeout (gqlClient c)); [reflexivity|].
    now destruct (pools_endpoint W _ _).
  - now destruct (pools_endpoint W _ _).
Qed.

(** The candidate pools once no explicit list was given. *)
Lemma resolve_without_explicit (token : string) (explicit : option (list string)) :
  JS.startsWith "0x" token = true ->
  explicit = None \/ explicit = Some [] ->
  (resolve_pool_ids W c token explicit).2
  = match STAKING_TOKEN_POOL_MAPPINGS !! token with
    | Some (q :: qs) => Ok (q :: qs)
    | Some [] => raise no_pools_message STAKING_POOLS_NOT_FOUND
    | None =>
        if MultiRewardsGQLClient.hasApiKey (gqlClient c) then
          match discovered W c token with
          | pool :: pools => Ok (map pool_id (pool :: pools))
          | [] => raise no_pools_message STAKING_POOLS_NOT_FOUND
          end
        else raise no_source_message STAKING_POOLS_NOT_FOUND
    end.
Proof.
  intros Hp He. destruct (static_lookup token Hp) as [Hhas Hget].
  assert (Hblock :
    (resolve_pool_ids W c token explicit).2
    = do poolIds <-
        (if hasStaticPoolMapping token then Ok (getStaticPoolMapping token)
         else if MultiRewardsGQLClient.hasApiKey (gqlClient c)
              then Ok (map pool_id (getStakingPoolsForToken W c token).2)
              else raise no_source_message STAKING_POOLS_NOT_FOUND);
      if (length poolIds =? 0)%nat
      then raise no_pools_message STAKING_POOLS_NOT_FOUND
      else Ok poolIds).
  { unfold resolve_pool_ids.
    destruct He as [-> | ->];
      destruct (hasStaticPoolMapping token);
      try destruct (MultiRewardsGQLClient.hasApiKey (gqlClient c)); reflexivity. }
  rewrite Hblock, Hhas, Hget, fetched_is_discovered.
  destruct (STAKING_TOKEN_POOL_MAPPINGS !! token) as [[|q qs]|]; try reflexivity.
  cbn [bool_decide decide_rel default].
  replace (bool_decide (is_Some (@None (list string)))) with false
    by (symmetry; apply bool_decide_eq_false_2; intros [x Hx]; discriminate).
  destruct (MultiRewardsGQLClient.hasApiKey (gqlClient c)); [|reflexivity].
  now destruct (discovered W c token).
Qed.

Lemma checks_settle (u : string) (poolIds : list string) :
  promise_all (map (subscription_check W u) poolIds)
  = Ok (map (fun p => (p, subscribed W u p)) poolIds).
Proof.
  induction poolIds as [|p poolIds IH]; [reflexivity|].
  simpl. rewrite IH.
  unfold subscription_check, isUserSubscribed, subscribed, raise.
  now destruct (is_user_subscribed W u p).
Qed.

Lemma unsubscribed_filter (u : string) (poolIds : list string) :
  getUnsubscribedPools W u poolIds
  = List.filter (fun p => negb (subscribed W u p)) poolIds.
Proof.
  unfold getUnsubscribedPools.
  destruct poolIds as [|p0 rest]; [reflexivity|].
  cbn [length Nat.eqb]. rewrite checks_settle. unfold unsubscribed_of_batch.
  induction (p0 :: rest) as [|p l IH]; [reflexivity|].
  simpl. destruct (subscribed W u p); simpl; now rewrite IH.
Qed.

(** The payload written out for non-empty candidates. *)
Lemma stake_payload_call (token : string) (amount : Z) (user : option string)
    (poolIds : list string) :
  poolIds <> [] ->
  stake_payload abis W token amount user poolIds
  = staking_call abis W token amount user poolIds.
Proof.
  intros Hne. unfold stake_payload, staking_call, truthy.
  destruct user as [u|].
  - destruct (String.eqb u EmptyString); cbn [negb].
    + destruct poolIds; [contradiction|reflexivity].
    + rewrite unsubscribed_filter.
      now destruct (List.filter (fun p => negb (subscribed W u p)) poolIds).
  - destruct poolIds; [contradiction|reflexivity].
Qed.

End Staking.

(** C5. For every staking token and amount that [stakeVaultShares]
    accepts (a token starting with [0x], a positive amount), the pools are
    resolved by ordered fallback: a non-empty explicit list is used as it
    is, whatever the static table and the pool index hold; without one,
    the static-table entry of the token is used if present; without that,
    and with an API key configured, the pools that remote discovery finds
    are used (the remembered answer of the pool index while it is fresh,
    else its answer now); with no API key the call fails with
    StakingPoolsNotFound and a message naming the three remedies; and a
    source that resolves to an empty list fails with StakingPoolsNotFound
    too. *)
Theorem stakeVaultShares_pool_fallback (abis : Abis) (W : World)
    (c : MultiRewardsClient.t) (token : string) (amount : Z)
    (user : option string) (explicit : option (list string)) :
  token <> EmptyString -> JS.startsWith "0x" token = true -> 0 < amount ->
  let stake :=
    (MultiRewardsClient.stakeVaultShares abis W c token amount user explicit).2 in
  let uses pools := stake = Ok (staking_call abis W token amount user pools) in
  let fails msg := stake = raise msg STAKING_POOLS_NOT_FOUND in
  (forall p ps, explicit = Some (p :: ps) -> uses (p :: ps))
  /\ (explicit = None \/ explicit = Some [] ->
      match STAKING_TOKEN_POOL_MAPPINGS !! token with
      | Some (q :: qs) => uses (q :: qs)
      | Some [] => fails no_pools_message
      | None =>
          (api_key_configured c ->
           match discovered W c token with
           | pool :: pools => uses (map pool_id (pool :: pools))
           | [] => fails no_pools_message
           end)
          /\ (~ api_key_configured c -> fails no_source_message)
      end)
  /\ JS.includes "1) Provide poolAddresses parameter" no_source_message = true
  /\ JS.includes "2) Ensure staking token is in static mapping" no_source_message = true
  /\ JS.includes "3) Provide sentioApiKey for dynamic lookup" no_source_message = true.
Proof.
  intros Hne Hp Ha. cbv zeta.
  rewrite (stakeVaultShares_valid abis W c token amount user explicit Hne Hp Ha).
  split; [|split; [|repeat split; reflexivity]].
  - intros p ps ->. cbn [MultiRewardsClient.resolve_pool_ids snd bind length Nat.eqb].
    now rewrite stake_payload_call.
  - intros He. rewrite (resolve_without_explicit W c token explicit Hp He).
    destruct (STAKING_TOKEN_POOL_MAPPINGS !! token) as [[|q qs]|].
    + reflexivity.
    + now rewrite stake_payload_call.
    + pose proof (key_configured c) as Hkey.
      destruct (MultiRewardsGQLClient.hasApiKey (MultiRewardsClient.gqlClient c)).
      * split; [|intros Hno; exfalso; apply Hno; now apply Hkey].
        intros _. destruct (discovered W c token) as [|pool pools]; [reflexivity|].
        now rewrite stake_payload_call.
      * split; [|reflexivity].
        intros Hyes. apply Hkey in Hyes. discriminate.
Qed.

(** The four layers at work.  A token of the static table, with a pool
    index that would answer another pool and a configured API key: the
    static pools are used; explicit pools win over both; a token outside
    the table is answered by the pool index when a key is configured, and
    fails with the three remedies when none is. *)
Lemma stakeVaultShares_pool_fallback_witness :
  let listed := "0x3d871f7475a839376b5567de59807db876203c628f71c75dbeefdb60139a10f8" in
  let keyed := MultiRewardsClient.new (Some "key") in
  let keyless := MultiRewardsClient.new None in
  (MultiRewardsClient.stakeVaultShares sample_abis staking_world keyed listed 5
     None None).2
  = Ok (stake_and_subscribe_call sample_abis listed 5
          ["0x12d57c3d4bb2b73726196d5e112406220773cba576577a47b4b45db57e578411"])
  /\ (MultiRewardsClient.stakeVaultShares sample_abis staking_world keyed listed 5
        None (Some ["0xP9"])).2
     = Ok (stake_and_subscribe_call sample_abis listed 5 ["0xP9"])
  /\ (MultiRewardsClient.stakeVaultShares sample_abis staking_world keyed "0xT" 5
        None None).2
     = Ok (stake_and_subscribe_call sample_abis "0xT" 5 ["0xQ"])
  /\ (MultiRewardsClient.stakeVaultShares sample_abis staking_world keyless "0xT" 5
        None None).2
     = raise no_source_message STAKING_POOLS_NOT_FOUND.
Proof.
  cbv zeta.
  assert (Hamount : 0 < 5) by lia.
  assert (Hkeyed : api_key_configured (MultiRewardsClient.new (Some "key"))).
  { exists "key". split; [reflexivity|discriminate]. }
  assert (Hkeyless : ~ api_key_configured (MultiRewardsClient.new None)).
  { intros (key & Hkey & _). discriminate. }
  split; [|split; [|split]].
  - destruct (stakeVaultShares_pool_fallback sample_abis staking_world
                (MultiRewardsClient.new (Some "key"))
                "0x3d871f7475a839376b5567de59807db876203c628f71c75dbeefdb60139a10f8"
                5 None None) as (_ & Hstatic & _); [discriminate|reflexivity|lia|].
    exact (Hstatic (or_introl eq_refl)).
  - destruct (stakeVaultShares_pool_fallback sample_abis staking_world
                (MultiRewardsClient.new (Some "key"))
                "0x3d871f7475a839376b5567de59807db876203c628f71c75dbeefdb60139a10f8"
                5 None (Some ["0xP9"])) as (Hexplicit & _);
      [discriminate|reflexivity|lia|].
    exact (Hexplicit "0xP9" [] eq_refl).
  - destruct (stakeVaultShares_pool_fallback sample_abis staking_world
                (MultiRewardsClient.new (Some "key")) "0xT" 5 None None)
      as (_ & Hremote & _); [discriminate|reflexivity|lia|].
    exact (proj1 (Hremote (or_introl eq_refl)) Hkeyed).
  - destruct (stakeVaultShares_pool_fallback sample_abis staking_world
                (MultiRewardsClient.new None) "0xT" 5 None None)
      as (_ & Hnone & _); [discriminate|reflexivity|lia|].
    exact (proj2 (Hnone (or_introl eq_refl)) Hkeyless).
Defined.

(** C6. When a (non-empty) user address is supplied and the candidate
    pools are [poolIds], the payload lists exactly the candidates the user
    is not subscribed to, in their order, a failed individual check
    counting as not subscribed; a rejected batch would leave all
    candidates in; a non-empty list is carried by the stake-and-subscribe
    entry point and an empty one gives the plain stake entry point with no
    pool argument. *)
Theorem stakeVaultShares_subscription_filter (abis : Abis) (W : World)
    (c : MultiRewardsClient.t) (token : string) (amount : Z)
    (u : string) (explicit : option (list string)) (poolIds : list string) :
  token <> EmptyString -> JS.startsWith "0x" token = true -> 0 < amount ->
  u <> EmptyString ->
  (MultiRewardsClient.resolve_pool_ids W c token explicit).2 = Ok poolIds ->
  let pending := List.filter (fun p => negb (subscribed W u p)) poolIds in
  MultiRewardsClient.getUnsubscribedPools W u poolIds = pending
  /\ (forall x, MultiRewardsClient.unsubscribed_of_batch poolIds (Throw x) = poolIds)
  /\ (MultiRewardsClient.stakeVaultShares abis W c token amount (Some u) explicit).2
     = Ok (match pending with
           | [] => plain_stake_call abis token amount
           | _ :: _ => stake_and_subscribe_call abis token amount pending
           end).
Proof.
  intros Hne Hp Ha Hu Hres. cbv zeta.
  split; [apply unsubscribed_filter|]. split; [reflexivity|].
  rewrite (stakeVaultShares_valid abis W c token amount (Some u) explicit Hne Hp Ha).
  rewrite Hres. unfold MultiRewardsClient.stake_payload, truthy.
  destruct (String.eqb_spec u EmptyString) as [|_]; [contradiction|]. cbn [negb].
  rewrite unsubscribed_filter.
  now destruct (List.filter (fun p => negb (subscribed W u p)) poolIds).
Qed.

(** User [0xU] is subscribed to two of the three candidates: only the third
    is listed. *)
Lemma stakeVaultShares_subscription_filter_witness :
  (MultiRewardsClient.stakeVaultShares sample_abis staking_world
     (MultiRewardsClient.new None) "0xT" 7 (Some "0xU")
     (Some ["0xP1"; "0xP2"; "0xP3"])).2
  = Ok (stake_and_subscribe_call sample_abis "0xT" 7 ["0xP3"]).
Proof.
  apply (stakeVaultShares_subscription_filter sample_abis staking_world
           (MultiRewardsClient.new None) "0xT" 7 "0xU"
           (Some ["0xP1"; "0xP2"; "0xP3"]) ["0xP1"; "0xP2"; "0xP3"]);
    [discriminate | reflexivity | lia | discriminate | reflexivity].
Defined.

(** ** Unstake dispatch *)

Section Unstake.

Lemma colon_is_not_hex (s : string) :
  JS.includes "::" s = true -> JS.all_hex s = false.
Proof.
  induction s as [|a s IH]; [discriminate|].
  cbn [JS.includes JS.all_hex].
  destruct (JS.startsWith "::" (String a s)) eqn:Hp.
  - intros _. cbn [JS.startsWith] in Hp.
    destruct (Ascii.eqb_spec ":" a) as [<-|]; [reflexivity|discriminate].
  - cbn [orb]. intros Hi. rewrite (IH Hi). apply andb_false_r.
Qed.

Lemma colon_after_prefix (s : string) :
  JS.startsWith "0x" s = true -> JS.includes "::" s = true ->
  JS.includes "::" (JS.slice_from 2 s) = true.
Proof.
  destruct s as [|a [|b s]]; cbn [JS.startsWith]; try discriminate.
  - rewrite andb_false_r. discriminate.
  - destruct (Ascii.eqb_spec "0" a) as [<-|]; [|discriminate].
    destruct (Ascii.eqb_spec "x" b) as [<-|]; [|discriminate].
    intros _. cbn [JS.slice_from].
    cbn [JS.includes JS.startsWith Ascii.eqb Bool.eqb andb orb].
    destruct s; intros H; exact H.
Qed.

(** No string with a [::] separator passes [isValidAddress]. *)
Lemma coin_type_is_not_an_address (token : string) :
  JS.includes "::" token = true -> Validation.isValidAddress token = false.
Proof.
  intros Hi. unfold Validation.isValidAddress, Validation.AccountAddress_from_ok.
  destruct (negb (truthy token)); [reflexivity|].
  destruct (JS.startsWith "0x" token) eqn:Hp.
  - rewrite (colon_is_not_hex _ (colon_after_prefix token Hp Hi)).
    now rewrite andb_false_r.
  - rewrite (colon_is_not_hex _ Hi). now rewrite andb_false_r.
Qed.

(** The coin-type branch of [unstake] is never reached: every token that
    would take it is rejected as an invalid token address. *)
Lemma unstake_coin_branch_unreachable (abis : Abis) (c : CanopyClient.t)
    (token : string) (amount : Z) :
  JS.includes "::" token = true ->
  CanopyClient.unstake abis c token amount
  = raise "Invalid token address format" INVALID_TOKEN_ADDRESS.
Proof.
  intros Hi. unfold CanopyClient.unstake, Validation.validateAddress.
  rewrite (coin_type_is_not_an_address token Hi).
  destruct token as [|a token]; [discriminate|]. reflexivity.
Qed.

End Unstake.

(** C7. At the documented coin type [0x1::aptos_coin::AptosCoin] and a
    positive amount, [unstake] does not reach the native-coin withdraw
    entry point: address validation throws InvalidTokenAddress first.  The
    other client class of the same file, which only asks for the [0x]
    prefix, does route the same call to [router::withdraw] with the coin
    type as type argument; and a fungible-asset address is routed to
    [multi_rewards::withdraw] by both. *)
Theorem unstake_coin_type_rejected :
  let c := CanopyClient.new None None in
  let asset := "0x3d871f7475a839376b5567de59807db876203c628f71c75dbeefdb60139a10f8" in
  CanopyClient.unstake sample_abis c "0x1::aptos_coin::AptosCoin" 1
  = raise "Invalid token address format" INVALID_TOKEN_ADDRESS
  /\ CanopyClientInline.unstake sample_abis "0x1::aptos_coin::AptosCoin" 1
     = Ok {| typeArguments := ["0x1::aptos_coin::AptosCoin"];
             functionArguments := [AStr "1"];
             function := "0xMR::router::withdraw" |}
  /\ CanopyClient.unstake sample_abis c asset 1
     = Ok {| function := "0xM::multi_rewards::withdraw";
             typeArguments := [];
             functionArguments := [AStr asset; AStr "1"] |}
  /\ CanopyClientInline.unstake sample_abis asset 1
     = CanopyClient.unstake sample_abis c asset 1.
Proof. cbv zeta. repeat split; vm_compute; reflexivity. Qed.

(** ** Withdraw payload parameters *)

Section WithdrawPayload.

Lemma withdraw_arguments (abis : Abis) (vault : VaultView) (vaultAddress : string)
    (allocationMap : AllocationMap) (packets : list PacketData) (shares : Z) :
  let p := TransactionBuilder.createWithdrawPayload abis vault vaultAddress
             allocationMap packets shares None in
  max_loss p = Some (AStr "100")
  /\ min_amount_out p
     = Some (AStr (if TransactionBuilder.isEchelon vault then "0" else "100")).
Proof.
  cbv zeta. unfold TransactionBuilder.createWithdrawPayload.
  destruct (TransactionBuilder.isEchelon vault).
  - split; reflexivity.
  - destruct (PacketGenerator.createPacketArrays packets (Some allocationMap)).
    split; reflexivity.
Qed.

End WithdrawPayload.

(** C8. The withdraw payload carries [maxLoss = "100"] by default, and its
    minimum-amount-out floor is ["0"] for an Echelon vault and ["100"] for
    every other vault; so a LayerBank vault, which needs no external proof,
    is built with the floor ["100"] that the constants reserve for
    MovePosition. *)
Theorem withdraw_floor_by_platform :
  (forall abis vault vaultAddress allocationMap packets shares,
     let p := TransactionBuilder.createWithdrawPayload abis vault vaultAddress
                allocationMap packets shares None in
     max_loss p = Some (AStr DEFAULT_MAX_LOSS)
     /\ min_amount_out p
        = Some (AStr (if TransactionBuilder.isEchelon vault
                      then WITHDRAW_MIN_AMOUNT_OUT
                      else WITHDRAW_MIN_AMOUNT_OUT_MOVEPOSITION)))
  /\ TransactionBuilder.isMovePosition (vault_of [LAYERBANK_SIMPLE_CONCRETE_ADDRESS])
     = false
  /\ exists p,
       TransactionBuilder.buildWithdrawPayload sample_abis layerbank_world
         (TransactionBuilder.new None None) "0xV" 40 = Ok p
       /\ max_loss p = Some (AStr "100")
       /\ min_amount_out p = Some (AStr "100").
Proof.
  split; [exact withdraw_arguments|]. split; [reflexivity|].
  eexists. split; [vm_compute; reflexivity|]. split; reflexivity.
Qed.

(** ** Pause status plays no part in payload building *)

Section ThrownCodes.

Context {A : Type} (codes : list CanopyErrorCode).

Lemma codes_ok (a : A) : canopy_codes_in codes (Ok a).
Proof. intros e H. discriminate. Qed.

Lemma codes_raise (msg : string) (c : CanopyErrorCode) :
  In c codes -> canopy_codes_in codes (@raise A msg c).
Proof. intros Hc e H. injection H as <-. exact Hc. Qed.

Lemma codes_native (what : string) : canopy_codes_in codes (@Throw A (Native what)).
Proof. intros e H. discriminate. Qed.

Lemma codes_bind {B : Type} (m : result B) (k : B -> result A) :
  canopy_codes_in codes m -> (forall b, canopy_codes_in codes (k b)) ->
  canopy_codes_in codes (bind m k).
Proof.
  intros Hm Hk e. destruct m as [b|x]; simpl.
  - apply Hk.
  - intros H. injection H as ->. now apply Hm.
Qed.

Lemma codes_catch_all (body : result A) (msg : string) (c : CanopyErrorCode) :
  In c codes -> canopy_codes_in codes (try_catch body (fun _ => raise msg c)).
Proof.
  intros Hc e. destruct body as [a|x]; simpl; [discriminate|].
  intros H. injection H as <-. exact Hc.
Qed.

Lemma only_of_wrap (body : result A) (msg : string) (c : CanopyErrorCode) :
  In c codes -> canopy_codes_in codes body ->
  throws_only codes (try_catch body (rethrow_or_wrap msg c)).
Proof.
  intros Hc Hb x. destruct body as [a|[e|what]]; simpl; [discriminate| |].
  - intros H. injection H as <-. exists e. split; [reflexivity|]. now apply Hb.
  - intros H. injection H as <-. eexists. split; [reflexivity|]. exact Hc.
Qed.

Lemma codes_of_only (r : result A) : throws_only codes r -> canopy_codes_in codes r.
Proof.
  intros Ho e H. destruct (Ho _ H) as (e' & He & Hin). injection He as <-. exact Hin.
Qed.

End ThrownCodes.

Create HintDb thrown discriminated.
#[local] Hint Resolve codes_ok codes_raise codes_native codes_catch_all : thrown.
#[local] Hint Extern 1 (In _ operation_codes) => (unfold operation_codes; simpl; tauto) : thrown.

Section PauseStatus.

Context (abis : Abis) (W : World).

Lemma codes_getVaultDetails (a : string) :
  canopy_codes_in operation_codes (VaultDetector.getVaultDetails W a).
Proof.
  unfold VaultDetector.getVaultDetails.
  destruct (vault_view W a); auto with thrown.
Qed.

Lemma codes_validateAllocation (m : AllocationMap) (n : Z) :
  canopy_codes_in operation_codes (StrategyAllocator.validateAllocation m n).
Proof.
  intros e He.
  destruct (validateAllocation_cases m n) as [[_ [msg Ht]]|[_ Ho]].
  - rewrite Ht in He. injection He as <-. simpl. tauto.
  - rewrite Ho in He. discriminate.
Qed.

Lemma codes_generatePacketsIfNeeded (tb : TransactionBuilder.t) (vault : VaultView)
    (strats : list string) (amts : list Z) (op : Operation) (a : string) :
  canopy_codes_in operation_codes
    (TransactionBuilder.generatePacketsIfNeeded abis W tb vault strats amts op a).
Proof.
  unfold TransactionBuilder.generatePacketsIfNeeded, PacketGenerator.generatePackets.
  destruct (negb (TransactionBuilder.isMovePosition vault)); [auto with thrown|].
  destruct (negb (length strats =? length amts)%nat); auto with thrown.
Qed.

Lemma only_buildDepositPayload (tb : TransactionBuilder.t) (a : string) (n : Z) :
  throws_only operation_codes (TransactionBuilder.buildDepositPayload abis W tb a n).
Proof.
  unfold TransactionBuilder.buildDepositPayload.
  apply only_of_wrap; [auto with thrown|].
  apply codes_bind; [apply codes_getVaultDetails|]. intros vault.
  apply codes_bind; [unfold StrategyAllocator.getOptimalAllocation; auto with thrown|].
  intros allocation.
  apply codes_bind; [apply codes_validateAllocation|]. intros _.
  apply codes_bind; [apply codes_generatePacketsIfNeeded|]. intros packets.
  auto with thrown.
Qed.

Lemma only_buildWithdrawPayload (tb : TransactionBuilder.t) (a : string) (n : Z) :
  throws_only operation_codes (TransactionBuilder.buildWithdrawPayload abis W tb a n).
Proof.
  unfold TransactionBuilder.buildWithdrawPayload.
  apply only_of_wrap; [auto with thrown|].
  apply codes_bind; [apply codes_getVaultDetails|]. intros vault.
  apply codes_bind; [unfold StrategyAllocator.getAllocationMap; auto with thrown|].
  intros allocation.
  apply codes_bind; [apply codes_generatePacketsIfNeeded|]. intros packets.
  auto with thrown.
Qed.

Lemma codes_validateVaultInputs (a : string) (n : Z) (op : string) :
  canopy_codes_in operation_codes (Validation.validateVaultInputs a n op).
Proof.
  unfold Validation.validateVaultInputs, Validation.validateAddress,
    Validation.validateAmount.
  apply codes_bind.
  - destruct (negb (truthy a)); [auto with thrown|].
    destruct (negb (Validation.isValidAddress a)); auto with thrown.
  - intros _. destruct (n <=? 0); auto with thrown.
Qed.

Lemma not_paused_code {B : Type} (r : result B) :
  canopy_codes_in operation_codes r -> thrown_code r <> Some VAULT_PAUSED.
Proof.
  intros Hc. destruct r as [b|[e|what]]; simpl; try discriminate.
  intros H. injection H as H. specialize (Hc e eq_refl). rewrite H in Hc.
  unfold operation_codes in Hc. simpl in Hc.
  intuition discriminate.
Qed.

End PauseStatus.

(** C10. No deposit or withdraw operation throws an error with code
    VaultPaused: whatever the chain answers to [vault::is_paused], the
    payload builders (and the public [deposit] and [withdraw] over them)
    return the same result, and the only codes they can throw are
    InvalidVaultAddress, AmountTooSmall, VaultNotFound,
    TransactionBuildFailed and PacketGenerationFailed. *)
Theorem pause_status_is_never_consulted (abis : Abis) (W : World)
    (c : CanopyClient.t) (vaultAddress : string) (amount : Z) :
  let tb := CanopyClient.transactionBuilder c in
  (forall status,
     TransactionBuilder.buildDepositPayload abis (with_pause_status W status) tb
       vaultAddress amount
     = TransactionBuilder.buildDepositPayload abis W tb vaultAddress amount
     /\ TransactionBuilder.buildWithdrawPayload abis (with_pause_status W status) tb
          vaultAddress amount
        = TransactionBuilder.buildWithdrawPayload abis W tb vaultAddress amount)
  /\ (forall status,
        CanopyClient.deposit abis (with_pause_status W status) c vaultAddress amount
        = CanopyClient.deposit abis W c vaultAddress amount
        /\ CanopyClient.withdraw abis (with_pause_status W status) c vaultAddress amount
           = CanopyClient.withdraw abis W c vaultAddress amount)
  /\ throws_only operation_codes
       (TransactionBuilder.buildDepositPayload abis W tb vaultAddress amount)
  /\ throws_only operation_codes
       (TransactionBuilder.buildWithdrawPayload abis W tb vaultAddress amount)
  /\ thrown_code (TransactionBuilder.buildDepositPayload abis W tb vaultAddress amount)
     <> Some VAULT_PAUSED
  /\ thrown_code (TransactionBuilder.buildWithdrawPayload abis W tb vaultAddress amount)
     <> Some VAULT_PAUSED
  /\ thrown_code (CanopyClient.deposit abis W c vaultAddress amount)
     <> Some VAULT_PAUSED
  /\ thrown_code (CanopyClient.withdraw abis W c vaultAddress amount)
     <> Some VAULT_PAUSED.
Proof.
  cbv zeta.
  split; [intros status; split; reflexivity|].
  split; [intros status; split; reflexivity|].
  split; [apply only_buildDepositPayload|].
  split; [apply only_buildWithdrawPayload|].
  split; [apply not_paused_code, codes_of_only, only_buildDepositPayload|].
  split; [apply not_paused_code, codes_of_only, only_buildWithdrawPayload|].
  split; apply not_paused_code; unfold CanopyClient.deposit, CanopyClient.withdraw;
    (apply codes_bind; [apply codes_validateVaultInputs|]); intros _;
    apply codes_of_only;
    [apply only_buildDepositPayload | apply only_buildWithdrawPayload].
Qed.

(** ** Decimal scaling round trip *)

Section Scaling.

(** *** Strings *)

Lemma append_cons (x : ascii) (a b : string) :
  String x a +++ b = String x (a +++ b).
Proof. reflexivity. Qed.

Lemma append_nil_l (b : string) : EmptyString +++ b = b.
Proof. reflexivity. Qed.

Lemma append_nil_r (s : string) : s +++ EmptyString = s.
Proof.
  induction s as [|c s IH]; [reflexivity|]. now rewrite append_cons, IH.
Qed.

Lemma append_assoc (a b c : string) : (a +++ b) +++ c = a +++ (b +++ c).
Proof.
  induction a as [|x a IH]; [reflexivity|]. now rewrite !append_cons, IH.
Qed.

Lemma length_append (a b : string) :
  String.length (a +++ b) = (String.length a + String.length b)%nat.
Proof.
  induction a as [|x a IH]; [reflexivity|]. rewrite append_cons. simpl. now rewrite IH.
Qed.

Lemma length_repeat (c : ascii) (n : nat) : String.length (JS.repeat_char c n) = n.
Proof. induction n as [|n IH]; simpl; [reflexivity|]. now rewrite IH. Qed.

Lemma slice_to_append (a b : string) : JS.slice_to (String.length a) (a +++ b) = a.
Proof.
  induction a as [|x a IH]; [now destruct b|].
  rewrite append_cons. simpl. now rewrite IH.
Qed.

Lemma slice_from_append (a b : string) : JS.slice_from (String.length a) (a +++ b) = b.
Proof.
  induction a as [|x a IH]; [reflexivity|]. rewrite append_cons. exact IH.
Qed.

Lemma digit_is_not_point (c : ascii) : is_digit c = true -> Ascii.eqb "." c = false.
Proof. destruct c as [[|] [|] [|] [|] [|] [|] [|] [|]]; vm_compute; congruence. Qed.

(** *** Splitting at the decimal point *)

Lemma split_aux_point (c : ascii) (s cur : string) :
  JS.split_aux "." (String c s) cur 0
  = if Ascii.eqb "." c then cur :: JS.split_aux "." s EmptyString 0
    else JS.split_aux "." s (cur +++ String c EmptyString) 0.
Proof.
  cbn [JS.split_aux JS.startsWith]. rewrite andb_true_r. reflexivity.
Qed.

Lemma split_digits (s cur : string) :
  all_digits s = true -> JS.split_aux "." s cur 0 = [cur +++ s].
Proof.
  revert cur. induction s as [|c s IH]; intros cur.
  - intros _. now rewrite append_nil_r.
  - cbn [all_digits]. intros [Hc Hs]%andb_prop.
    rewrite split_aux_point, (digit_is_not_point c Hc).
    rewrite (IH _ Hs), append_assoc, append_cons, append_nil_l. reflexivity.
Qed.

Lemma split_at_point (w f cur : string) :
  all_digits w = true -> all_digits f = true ->
  JS.split_aux "." (w +++ "." +++ f) cur 0 = [cur +++ w; f].
Proof.
  revert cur. induction w as [|c w IH]; intros cur.
  - intros _ Hf. rewrite append_nil_l, append_cons, append_nil_l, append_nil_r.
    rewrite split_aux_point. cbn [Ascii.eqb Bool.eqb].
    f_equal. now apply (split_digits f EmptyString).
  - cbn [all_digits]. intros [Hc Hw]%andb_prop Hf. rewrite append_cons.
    rewrite split_aux_point, (digit_is_not_point c Hc).
    rewrite (IH _ Hw Hf), append_assoc, append_cons, append_nil_l. reflexivity.
Qed.

(** *** Padding and stripping the fraction *)

Lemma strip_zeros (k : nat) : JS.strip_trailing_zeros (JS.repeat_char "0" k) = EmptyString.
Proof. induction k; simpl; [reflexivity|]. now rewrite IHk. Qed.

Lemma strip_append_zeros (s : string) (k : nat) :
  JS.strip_trailing_zeros (s +++ JS.repeat_char "0" k) = JS.strip_trailing_zeros s.
Proof.
  induction s as [|c s IH]; [apply strip_zeros|].
  rewrite append_cons. simpl. now rewrite IH.
Qed.

Lemma strip_idempotent (s : string) :
  JS.strip_trailing_zeros (JS.strip_trailing_zeros s) = JS.strip_trailing_zeros s.
Proof.
  induction s as [|c s IH]; simpl; [reflexivity|].
  destruct (JS.strip_trailing_zeros s) as [|c' t] eqn:Hs.
  - destruct (Ascii.eqb c "0") eqn:Hc; simpl; [reflexivity|]. now rewrite Hc.
  - cbn [JS.strip_trailing_zeros] in *. rewrite IH. reflexivity.
Qed.

Lemma slice_to_all (s : string) : JS.slice_to (String.length s) s = s.
Proof.
  rewrite <- (append_nil_r s) at 2. rewrite slice_to_append. reflexivity.
Qed.

(** The padded and cut fraction is the stripped fraction followed by
    zeros, as long as the stripped fraction fits. *)
Lemma padded_fraction (f : string) (d : nat) :
  (String.length (JS.strip_trailing_zeros f) <= d)%nat ->
  JS.slice_to d (JS.padEnd d "0" f)
  = JS.strip_trailing_zeros f
    +++ JS.repeat_char "0" (d - String.length (JS.strip_trailing_zeros f)).
Proof.
  unfold JS.padEnd. revert d. induction f as [|c f IH]; intros d.
  - cbn [JS.strip_trailing_zeros String.length]. intros _.
    rewrite !append_nil_l, !Nat.sub_0_r.
    rewrite <- (length_repeat "0" d) at 1. apply slice_to_all.
  - destruct d as [|d].
    + intros Hl.
      destruct (JS.strip_trailing_zeros (String c f)); [reflexivity|].
      cbn [String.length] in Hl. lia.
    + cbn [JS.strip_trailing_zeros String.length Nat.sub].
      rewrite append_cons. cbn [JS.slice_to].
      destruct (JS.strip_trailing_zeros f) as [|c' t] eqn:Hs.
      * intros _. rewrite IH by (cbn [String.length]; lia).
        cbn [String.length]. rewrite Nat.sub_0_r, append_nil_l.
        destruct (Ascii.eqb_spec c "0") as [->|_].
        -- rewrite append_nil_l. reflexivity.
        -- rewrite append_cons, append_nil_l. cbn [String.length Nat.sub].
           now rewrite Nat.sub_0_r.
      * intros Hl. cbn [String.length] in Hl.
        rewrite IH by (cbn [String.length]; lia).
        rewrite append_cons. reflexivity.
Qed.

Lemma all_digits_append (a b : string) :
  all_digits a = true -> all_digits b = true -> all_digits (a +++ b) = true.
Proof.
  induction a as [|c a IH]; [tauto|].
  cbn [all_digits]. intros [Hc Ha]%andb_prop Hb.
  rewrite append_cons. cbn [all_digits]. rewrite Hc. now apply IH.
Qed.

Lemma all_digits_zeros (k : nat) : all_digits (JS.repeat_char "0" k) = true.
Proof. induction k as [|k IH]; [reflexivity|]. exact IH. Qed.

Lemma all_digits_strip (s : string) :
  all_digits s = true -> all_digits (JS.strip_trailing_zeros s) = true.
Proof.
  induction s as [|c s IH]; simpl; [tauto|].
  intros [Hc Hs]%andb_prop. specialize (IH Hs).
  destruct (JS.strip_trailing_zeros s).
  - destruct (Ascii.eqb c "0"); simpl; [reflexivity|]. now rewrite Hc.
  - cbn [all_digits] in *. now rewrite Hc.
Qed.

(** *** [BigInt] followed by [toString] drops leading zeros *)

Lemma digits_parse (s : string) :
  all_digits s = true -> exists u, NilEmpty.uint_of_string s = Some u.
Proof.
  induction s as [|c s IH]; simpl; [eauto|].
  intros [Hc Hs]%andb_prop. destruct (IH Hs) as [u ->].
  destruct c as [[|] [|] [|] [|] [|] [|] [|] [|]]; try discriminate Hc;
    simpl; eauto.
Qed.

Lemma string_of_nzhead (u : Decimal.uint) :
  NilEmpty.string_of_uint (Decimal.nzhead u)
  = drop_leading_zeros (NilEmpty.string_of_uint u).
Proof. induction u; simpl; auto. Qed.

Lemma string_of_unorm (u : Decimal.uint) :
  NilZero.string_of_uint (Decimal.unorm u) = canonical (NilEmpty.string_of_uint u).
Proof.
  unfold Decimal.unorm, canonical. rewrite <- string_of_nzhead.
  destruct (Decimal.nzhead u); reflexivity.
Qed.

Lemma to_int_of_N (m : N) : Z.to_int (Z.of_N m) = Decimal.Pos (N.to_uint m).
Proof. destruct m; reflexivity. Qed.

Lemma digit_is_plain (c : ascii) :
  is_digit c = true ->
  JS.is_whitespace c = false
  /\ Ascii.eqb c "+" = false /\ Ascii.eqb c "-" = false
  /\ Ascii.eqb (JS.lower_char c) "x" = false
  /\ Ascii.eqb (JS.lower_char c) "o" = false
  /\ Ascii.eqb (JS.lower_char c) "b" = false.
Proof.
  destruct c as [[|] [|] [|] [|] [|] [|] [|] [|]]; intros H;
    try discriminate H; repeat split; reflexivity.
Qed.

Lemma trim_end_digits (s : string) : all_digits s = true -> JS.trim_end s = s.
Proof.
  induction s as [|c s IH]; [reflexivity|].
  cbn [all_digits JS.trim_end]. intros [Hc Hs]%andb_prop. rewrite (IH Hs).
  destruct (digit_is_plain c Hc) as (-> & _). now destruct s.
Qed.

Lemma trim_digits (s : string) : all_digits s = true -> JS.trim s = s.
Proof.
  intros Hs. unfold JS.trim.
  assert (Hstart : JS.trim_start s = s).
  { destruct s as [|c s]; [reflexivity|]. cbn [all_digits] in Hs.
    apply andb_prop in Hs as [Hc _]. cbn [JS.trim_start].
    now destruct (digit_is_plain c Hc) as (-> & _). }
  rewrite Hstart. now apply trim_end_digits.
Qed.

(** On a string of decimal digits [BigInt] reads the decimal number. *)
Lemma BigInt_of_digits (s : string) :
  all_digits s = true ->
  JS.BigInt s = match NilEmpty.uint_of_string s with
                | Some u => Some (Z.of_N (N.of_uint u))
                | None => None
                end.
Proof.
  intros Hs. unfold JS.BigInt. rewrite (trim_digits s Hs).
  destruct s as [|a rest]; [reflexivity|].
  pose proof Hs as Hall. cbn [all_digits] in Hs. apply andb_prop in Hs as [Ha Hrest].
  destruct (digit_is_plain a Ha) as (_ & -> & -> & _).
  destruct rest as [|b digits]; [reflexivity|].
  cbn [all_digits] in Hrest. apply andb_prop in Hrest as [Hb _].
  destruct (digit_is_plain b Hb) as (_ & _ & _ & -> & -> & ->).
  rewrite !andb_false_r. reflexivity.
Qed.

Lemma toString_BigInt (s : string) :
  all_digits s = true ->
  exists n, JS.BigInt s = Some n /\ JS.toString n = canonical s.
Proof.
  intros Hs. destruct (digits_parse s Hs) as [u Hu].
  rewrite (BigInt_of_digits s Hs). unfold JS.toString. rewrite Hu.
  eexists. split; [reflexivity|].
  rewrite to_int_of_N. cbn [NilZero.string_of_int].
  rewrite DecimalN.Unsigned.to_of, string_of_unorm.
  now rewrite (NilEmpty.sus s u Hu).
Qed.

(** *** Padding the canonical digits back *)

Lemma length_drop_leading_zeros (p : string) :
  (String.length (drop_leading_zeros p) <= String.length p)%nat.
Proof.
  induction p as [|c p IH]; simpl; [lia|].
  destruct (Ascii.eqb c "0"); simpl; lia.
Qed.

Lemma length_canonical (p : string) :
  (String.length (canonical p) <= S (String.length p))%nat.
Proof.
  unfold canonical. pose proof (length_drop_leading_zeros p) as H.
  destruct (drop_leading_zeros p); simpl in *; lia.
Qed.

Lemma canonical_zero (p : string) : canonical (String "0" p) = canonical p.
Proof. reflexivity. Qed.

Lemma pad_canonical (p : string) :
  JS.padStart (S (String.length p)) "0" (canonical p) = String "0" p.
Proof.
  unfold JS.padStart. induction p as [|c p IH].
  - reflexivity.
  - destruct (Ascii.eqb_spec c "0") as [->|Hc].
    + rewrite canonical_zero. cbn [String.length].
      pose proof (length_canonical p) as Hl.
      replace (S (S (String.length p)) - String.length (canonical p))%nat
        with (S (S (String.length p) - String.length (canonical p)))%nat by lia.
      cbn [JS.repeat_char]. rewrite append_cons, IH. reflexivity.
    + unfold canonical. cbn [drop_leading_zeros].
      apply Ascii.eqb_neq in Hc. rewrite Hc. cbn [String.length].
      replace (S (S (String.length p)) - S (String.length p))%nat with 1%nat by lia.
      reflexivity.
Qed.

Lemma canonical_no_leading_zero (w p : string) :
  w <> EmptyString -> JS.startsWith "0" w = false -> canonical (w +++ p) = w +++ p.
Proof.
  destruct w as [|c w]; [contradiction|]. intros _. cbn [JS.startsWith].
  rewrite andb_true_r. intros Hc. unfold canonical.
  rewrite append_cons. cbn [drop_leading_zeros].
  rewrite Ascii.eqb_sym, Hc. reflexivity.
Qed.

(** The digits [scaleFromDecimals] cuts: the whole part then the padded
    fraction. *)
Lemma padded_digits (w p : string) :
  canonical_whole w ->
  JS.padStart (String.length p + 1) "0" (canonical (w +++ p)) = w +++ p.
Proof.
  intros (_ & Hne & [->|Hz]).
  - rewrite append_cons, append_nil_l, canonical_zero, Nat.add_1_r.
    apply pad_canonical.
  - rewrite (canonical_no_leading_zero w p Hne Hz). unfold JS.padStart.
    replace (String.length p + 1 - String.length (w +++ p))%nat with 0%nat.
    + reflexivity.
    + rewrite length_append. destruct w; [contradiction|]. simpl. lia.
Qed.

(** *** The two functions *)

Lemma scaleFromDecimals_digits (n : Z) (w f : string) (d : nat) :
  canonical_whole w ->
  (String.length (JS.strip_trailing_zeros f) <= d)%nat ->
  JS.toString n = canonical (w +++ JS.slice_to d (JS.padEnd d "0" f)) ->
  Utils.scaleFromDecimals n d = stripped w f.
Proof.
  intros Hw Hl Hn. unfold Utils.scaleFromDecimals. rewrite Hn.
  set (p := JS.slice_to d (JS.padEnd d "0" f)).
  assert (Hp : p = JS.strip_trailing_zeros f
                   +++ JS.repeat_char "0" (d - String.length (JS.strip_trailing_zeros f)))
    by (apply padded_fraction; exact Hl).
  assert (Hlen : String.length p = d).
  { rewrite Hp, length_append, length_repeat. lia. }
  assert (Hstr : JS.padStart (d + 1) "0" (canonical (w +++ p)) = w +++ p).
  { rewrite <- Hlen. now apply padded_digits. }
  rewrite Hstr, length_append, Hlen, Nat.add_sub.
  rewrite slice_to_append, slice_from_append.
  assert (Hs : JS.strip_trailing_zeros p = JS.strip_trailing_zeros f).
  { rewrite Hp, strip_append_zeros. apply strip_idempotent. }
  rewrite Hs. unfold stripped, truthy.
  destruct Hw as (_ & Hne & _).
  destruct w as [|c w]; [contradiction|]. cbn [String.eqb negb].
  now destruct (JS.strip_trailing_zeros f).
Qed.

Lemma round_trip_parts (s w f : string) (d : nat) :
  JS.split "." s = [w] /\ f = EmptyString \/ JS.split "." s = [w; f] ->
  canonical_whole w -> all_digits f = true ->
  (String.length (JS.strip_trailing_zeros f) <= d)%nat ->
  round_trip s d = Ok (stripped w f).
Proof.
  intros Hsplit Hw Hf Hl. unfold round_trip, Utils.scaleToDecimals.
  assert (Hparts : default EmptyString (JS.split "." s !! 0%nat) = w
                   /\ default EmptyString (JS.split "." s !! 1%nat) = f).
  { destruct Hsplit as [[-> ->]| ->]; split; reflexivity. }
  destruct Hparts as [-> ->].
  assert (Hd : all_digits (w +++ JS.slice_to d (JS.padEnd d "0" f)) = true).
  { apply all_digits_append; [apply Hw|].
    rewrite padded_fraction by exact Hl.
    apply all_digits_append; [now apply all_digits_strip|apply all_digits_zeros]. }
  destruct (toString_BigInt _ Hd) as (n & -> & Hn). simpl.
  f_equal. now apply scaleFromDecimals_digits.
Qed.

End Scaling.

(** C9, as stated, fails when the string has more than [d] fractional
    digits (they are cut off), so in particular for every fractional
    string at [d = 0], and when the whole part has leading zeros. *)
Lemma scale_round_trip_counterexample :
  (2 <= 18)%nat
  /\ round_trip "1.23456" 2 = Ok "1.23"
  /\ without_trailing_zeros "1.23456" = "1.23456"
  /\ round_trip "0.5" 0 = Ok "0"
  /\ without_trailing_zeros "0.5" = "0.5"
  /\ round_trip "007" 2 = Ok "7"
  /\ round_trip "1.23456" 2 <> Ok (without_trailing_zeros "1.23456").
Proof. repeat split; try reflexivity; try lia. vm_compute. discriminate. Qed.

(** C9, amended. For every decimal string made of a canonical whole part
    (digits without superfluous leading zeros) and, optionally, a point
    and fractional digits of which at most [d] remain once trailing zeros
    are stripped, and for every decimal count [d],
    [scaleFromDecimals(scaleToDecimals(s, d), d)] reproduces [s] with the
    trailing fractional zeros stripped, and without a decimal point when
    the result is a whole number. *)
Theorem scale_round_trip (whole fraction : string) (d : nat) :
  canonical_whole whole ->
  all_digits fraction = true ->
  (String.length (JS.strip_trailing_zeros fraction) <= d)%nat ->
  round_trip (whole +++ "." +++ fraction) d = Ok (stripped whole fraction)
  /\ round_trip whole d = Ok whole
  /\ (JS.strip_trailing_zeros fraction = EmptyString ->
      round_trip (whole +++ "." +++ fraction) d = Ok whole).
Proof.
  intros Hw Hf Hl.
  assert (Hpoint : round_trip (whole +++ "." +++ fraction) d = Ok (stripped whole fraction)).
  { apply (round_trip_parts _ whole fraction d); auto.
    right. unfold JS.split. now rewrite split_at_point by (auto; apply Hw). }
  split; [exact Hpoint|]. split.
  - apply (round_trip_parts whole whole EmptyString d); auto; [|simpl; lia].
    left. split; [|reflexivity]. unfold JS.split. now rewrite split_digits by apply Hw.
  - intros Hz. rewrite Hpoint. unfold stripped. now rewrite Hz.
Qed.

(** [12.3400] at six decimals is [12340000], and comes back as [12.34]. *)
Lemma scale_round_trip_witness :
  canonical_whole "12"
  /\ all_digits "3400" = true
  /\ (String.length (JS.strip_trailing_zeros "3400") <= 6)%nat
  /\ Utils.scaleToDecimals "12.3400" 6 = Ok 12340000
  /\ round_trip "12.3400" 6 = Ok "12.34".
Proof.
  assert (Hw : canonical_whole "12").
  { split; [reflexivity|]. split; [discriminate|right; reflexivity]. }
  assert (Hl : (String.length (JS.strip_trailing_zeros "3400") <= 6)%nat).
  { simpl. lia. }
  split; [exact Hw|]. split; [reflexivity|]. split; [exact Hl|].
  split; [reflexivity|].
  exact (proj1 (scale_round_trip "12" "3400" 6 Hw eq_refl Hl)).
Defined.

(** * Further properties *)

(** ** Parsing the allocation map *)

Section AllocationParsing.

Import StrategyAllocator.

Lemma filter_fold (strats : list string) (amts : list Z) (k : nat) :
  (k <= Nat.min (length strats) (length amts))%nat ->
  fold_left (filter_step strats amts) (seq 0 k) ([], [])
  = (map fst (List.filter kept_allocation (take k (zip strats amts))),
     map snd (List.filter kept_allocation (take k (zip strats amts)))).
Proof.
  induction k as [|k IH]; intros Hk; [reflexivity|].
  rewrite seq_S, fold_left_app, IH by lia. simpl.
  destruct (lookup_lt_is_Some_2 strats k) as [s Hs]; [lia|].
  destruct (lookup_lt_is_Some_2 amts k) as [a Ha]; [lia|].
  assert (Hz : zip strats amts !! k = Some (s, a)).
  { rewrite lookup_zip_with, Hs, Ha. reflexivity. }
  rewrite (take_S_r _ _ _ Hz), List.filter_app, !List.map_app.
  unfold filter_step. rewrite Ha, Hs. cbn [fst snd List.filter].
  change (kept_allocation (s, a)) with (negb (a =? 0) && truthy s && (a >? 0)).
  destruct (negb (a =? 0) && truthy s && (a >? 0)); simpl;
    now rewrite ?app_nil_r.
Qed.

Lemma filterZeroAllocations_pairs (strats : list string) (amts : list Z) :
  filterZeroAllocations strats amts
  = {| alloc_strategies := map fst (List.filter kept_allocation (zip strats amts));
       alloc_amounts := map snd (List.filter kept_allocation (zip strats amts)) |}.
Proof.
  unfold filterZeroAllocations. rewrite filter_fold by lia. cbn [fst snd].
  rewrite take_ge; [reflexivity|].
  rewrite length_zip_with. lia.
Qed.

Lemma parse_entry_thrown (data : list (option RawEntry)) (x : exn) :
  fold_left parse_entry data (Throw x) = Throw x.
Proof. induction data as [|e data IH]; [reflexivity|]. exact IH. Qed.

Lemma parse_pair_thrown (pairs : list (option (string * RawValue))) (x : exn) :
  fold_left parse_pair pairs (Throw x) = Throw x.
Proof. induction pairs as [|p pairs IH]; [reflexivity|]. exact IH. Qed.

Lemma parse_entries_readable (data : list (option RawEntry))
    (acc : list string * list Z) :
  (forallb readable_entry data = true ->
   exists r, fold_left parse_entry data (Ok acc) = Ok r)
  /\ (forallb readable_entry data = false ->
      exists x, fold_left parse_entry data (Ok acc) = Throw x).
Proof.
  revert acc. induction data as [|e data IH]; intros acc.
  - split; [eauto|discriminate].
  - cbn [forallb fold_left]. unfold parse_entry at 2 4, readable_entry at 1 3.
    cbn [bind].
    destruct e as [e|];
      [destruct (entry_key e) as [inner|]; destruct (entry_value e)|];
      cbn [andb]; try apply IH;
      (split; [discriminate|]; intros _; rewrite parse_entry_thrown; eauto).
Qed.

Lemma parse_pairs_readable (pairs : list (option (string * RawValue)))
    (acc : list string * list Z) :
  (forallb readable_pair pairs = true ->
   exists r, fold_left parse_pair pairs (Ok acc) = Ok r)
  /\ (forallb readable_pair pairs = false ->
      exists x, fold_left parse_pair pairs (Ok acc) = Throw x).
Proof.
  revert acc. induction pairs as [|p pairs IH]; intros acc.
  - split; [eauto|discriminate].
  - cbn [forallb fold_left]. unfold parse_pair at 2 4, readable_pair at 1 3.
    cbn [bind].
    destruct p as [[s [|n|]]|]; cbn [snd andb]; try apply IH;
      (split; [discriminate|]; intros _; rewrite parse_pair_thrown; eauto).
Qed.

Lemma parse_result (raw : RawAllocation) :
  (exists r, parseAllocationMap raw = Ok (filterZeroAllocations r.1 r.2)
             /\ readable raw = true)
  \/ (parseAllocationMap raw
      = raise "Failed to parse allocation map" TRANSACTION_BUILD_FAILED
      /\ readable raw = false).
Proof.
  unfold parseAllocationMap, readable.
  destruct raw as [data| |pairs|].
  - destruct (forallb readable_entry data) eqn:Hr.
    + destruct (proj1 (parse_entries_readable data ([], [])) Hr) as [r ->].
      left. exists r. split; reflexivity.
    + destruct (proj2 (parse_entries_readable data ([], [])) Hr) as [x ->].
      right. split; reflexivity.
  - right. split; reflexivity.
  - destruct (forallb readable_pair pairs) eqn:Hr.
    + destruct (proj1 (parse_pairs_readable pairs ([], [])) Hr) as [r ->].
      left. exists r. split; reflexivity.
    + destruct (proj2 (parse_pairs_readable pairs ([], [])) Hr) as [x ->].
      right. split; reflexivity.
  - left. exists ([], []). split; reflexivity.
Qed.

Lemma kept_pairs_invariant (l : list (string * Z)) :
  length (map fst (List.filter kept_allocation l))
  = length (map snd (List.filter kept_allocation l))
  /\ List.Forall (fun a => 0 < a) (map snd (List.filter kept_allocation l))
  /\ List.Forall (fun s => s <> EmptyString) (map fst (List.filter kept_allocation l)).
Proof.
  split; [now rewrite !length_map|].
  induction l as [|[s a] l [IHa IHs]]; [split; constructor|].
  cbn [List.filter]. destruct (kept_allocation (s, a)) eqn:Hk; [|now split].
  unfold kept_allocation in Hk. cbn [fst snd] in Hk.
  apply andb_prop in Hk as [[_ Hs]%andb_prop Ha].
  cbn [map fst snd]. split; constructor; auto.
  - apply Z.gtb_lt in Ha. lia.
  - unfold truthy in Hs. intros ->. discriminate.
Qed.

End AllocationParsing.

Lemma parsed_lengths (raw : RawAllocation) (a : AllocationMap) :
  StrategyAllocator.parseAllocationMap raw = Ok a ->
  length (alloc_strategies a) = length (alloc_amounts a).
Proof.
  intros Hp. destruct (parse_result raw) as [(r & Hr & _)|[Hr _]];
    rewrite Hr in Hp; [|discriminate].
  injection Hp as <-. rewrite filterZeroAllocations_pairs.
  cbn [alloc_strategies alloc_amounts]. now rewrite !length_map.
Qed.

(** X1. Whatever the view answered, a parsed allocation map has as many
    amounts as strategies, only positive amounts and only non-empty
    strategy addresses. *)
Theorem parsed_allocation_invariant (raw : RawAllocation) (a : AllocationMap) :
  StrategyAllocator.parseAllocationMap raw = Ok a ->
  length (alloc_strategies a) = length (alloc_amounts a)
  /\ List.Forall (fun amount => 0 < amount) (alloc_amounts a)
  /\ List.Forall (fun s => s <> EmptyString) (alloc_strategies a).
Proof.
  intros Hp. destruct (parse_result raw) as [(r & Hr & _)|[Hr _]].
  - rewrite Hr in Hp. injection Hp as <-.
    rewrite filterZeroAllocations_pairs. cbn [alloc_strategies alloc_amounts].
    apply kept_pairs_invariant.
  - rewrite Hr in Hp. discriminate.
Qed.

Lemma parsed_allocation_invariant_witness :
  StrategyAllocator.parseAllocationMap sample_raw_map
  = Ok {| alloc_strategies := ["0xS1"]; alloc_amounts := [600] |}
  /\ List.Forall (fun amount => 0 < amount) [600].
Proof.
  split; [reflexivity|].
  exact (proj1 (proj2 (parsed_allocation_invariant sample_raw_map
                          {| alloc_strategies := ["0xS1"]; alloc_amounts := [600] |}
                          eq_refl))).
Defined.

(** X2. [filterZeroAllocations] keeps, in their order, exactly the pairs
    of a strategy and its amount (paired by index, up to the shorter of
    the two lists) whose amount is positive and whose strategy is not the
    empty string. *)
Theorem filterZeroAllocations_keeps_positive_pairs
    (strats : list string) (amts : list Z) :
  let kept := List.filter kept_allocation (zip strats amts) in
  StrategyAllocator.filterZeroAllocations strats amts
  = {| alloc_strategies := map fst kept; alloc_amounts := map snd kept |}
  /\ (forall s a, In (s, a) kept <-> In (s, a) (zip strats amts)
                                     /\ 0 < a /\ s <> EmptyString).
Proof.
  cbv zeta. split; [apply filterZeroAllocations_pairs|].
  intros s a. rewrite List.filter_In. unfold kept_allocation, truthy. cbn [fst snd].
  split.
  - intros [Hin Hk]. split; [exact Hin|].
    apply andb_prop in Hk as [[_ Hs]%andb_prop Ha]. apply Z.gtb_lt in Ha.
    split; [lia|]. intros ->. discriminate.
  - intros (Hin & Ha & Hs). split; [exact Hin|].
    destruct (String.eqb_spec s EmptyString) as [|_]; [contradiction|].
    destruct (Z.eqb_spec a 0); [lia|]. destruct (Z.gtb_spec a 0); [reflexivity|lia].
Qed.

Lemma unreadable_element {A} (f : A -> bool) (l : list A) (x : A) :
  In x l -> f x = false -> forallb f l = false.
Proof.
  intros Hin Hx. destruct (forallb f l) eqn:Hall; [|reflexivity].
  rewrite forallb_forall in Hall. rewrite (Hall x Hin) in Hx. discriminate.
Qed.

(** X3. [parseAllocationMap] fails, with TransactionBuildFailed, exactly
    when the loop it enters throws: in the map shape when [data] cannot be
    iterated, an entry is null or undefined, or an entry with a key
    carries a value [BigInt] cannot read; in the array shape when an
    element is no pair or a pair has no amount [BigInt] can read.  A
    result of neither shape (a primitive, null, or an object without
    [data] that is no array) is not an error but the empty allocation. *)
Theorem parseAllocationMap_fails_iff_unreadable (raw : RawAllocation) :
  let failure := raise "Failed to parse allocation map" TRANSACTION_BUILD_FAILED in
  (readable raw = true <-> exists a, StrategyAllocator.parseAllocationMap raw = Ok a)
  /\ (readable raw = false <-> StrategyAllocator.parseAllocationMap raw = failure)
  /\ StrategyAllocator.parseAllocationMap RawOther
     = Ok {| alloc_strategies := []; alloc_amounts := [] |}
  /\ StrategyAllocator.parseAllocationMap RawDataNotIterable = failure
  /\ (forall data,
        In None data
        \/ (exists inner, In (Some {| entry_key := Some inner;
                                      entry_value := RvMalformed |}) data) ->
        StrategyAllocator.parseAllocationMap (RawSimpleMap data) = failure)
  /\ (forall pairs,
        In None pairs
        \/ (exists strategy, In (Some (strategy, RvAbsent)) pairs)
        \/ (exists strategy, In (Some (strategy, RvMalformed)) pairs) ->
        StrategyAllocator.parseAllocationMap (RawPairs pairs) = failure).
Proof.
  cbv zeta.
  assert (Hfails : forall r, readable r = false ->
            StrategyAllocator.parseAllocationMap r
            = raise "Failed to parse allocation map" TRANSACTION_BUILD_FAILED).
  { intros r Hr. destruct (parse_result r) as [(a & _ & Hy)|[Ha _]]; [|exact Ha].
    rewrite Hy in Hr. discriminate. }
  split; [|split; [|split; [|split; [|split]]]].
  - destruct (parse_result raw) as [(r & Hr & Hy)|[Hr Hn]]; rewrite Hr.
    + split; eauto.
    + split; [congruence|]. intros [a Ha]. discriminate.
  - destruct (parse_result raw) as [(r & Hr & Hy)|[Hr Hn]]; rewrite Hr.
    + split; [congruence|discriminate].
    + split; [reflexivity|]. intros _. exact Hn.
  - reflexivity.
  - reflexivity.
  - intros data Hin. apply Hfails. cbn [readable].
    destruct Hin as [Hin|[inner Hin]];
      exact (unreadable_element readable_entry data _ Hin eq_refl).
  - intros pairs Hin. apply Hfails. cbn [readable].
    destruct Hin as [Hin|[[strategy Hin]|[strategy Hin]]];
      exact (unreadable_element readable_pair pairs _ Hin eq_refl).
Qed.

Section AllocationViews.

Import StrategyAllocator.

Context (W : World).

Lemma getOptimalAllocation_cases (vaultAddress : string) (amount : Z) :
  (exists raw a,
      get_allocations_view W vaultAddress (JS.toString amount) = Some raw
      /\ parseAllocationMap raw = Ok a
      /\ getOptimalAllocation W vaultAddress amount = Ok a)
  \/ ((get_allocations_view W vaultAddress (JS.toString amount) = None
       \/ exists raw,
            get_allocations_view W vaultAddress (JS.toString amount) = Some raw
            /\ readable raw = false)
      /\ getOptimalAllocation W vaultAddress amount
         = raise "Failed to get optimal allocation" TRANSACTION_BUILD_FAILED).
Proof.
  unfold getOptimalAllocation.
  destruct (get_allocations_view W vaultAddress (JS.toString amount)) as [raw|].
  - cbn [view_or_throw bind].
    destruct (parse_result raw) as [(r & Hr & _)|[Hr Hn]]; rewrite Hr.
    + left. eauto.
    + right. split; [right; eauto|reflexivity].
  - right. split; [now left|reflexivity].
Qed.

Lemma getAllocationMap_cases (vaultAddress : string) (shares : Z) :
  (exists raw a,
      get_withdrawal_map_view W vaultAddress (JS.toString shares) = Some raw
      /\ parseAllocationMap raw = Ok a
      /\ getAllocationMap W vaultAddress shares = Ok a)
  \/ ((get_withdrawal_map_view W vaultAddress (JS.toString shares) = None
       \/ exists raw,
            get_withdrawal_map_view W vaultAddress (JS.toString shares) = Some raw
            /\ readable raw = false)
      /\ getAllocationMap W vaultAddress shares
         = raise "Failed to get withdrawal map" TRANSACTION_BUILD_FAILED).
Proof.
  unfold getAllocationMap.
  destruct (get_withdrawal_map_view W vaultAddress (JS.toString shares)) as [raw|].
  - cbn [view_or_throw bind].
    destruct (parse_result raw) as [(r & Hr & _)|[Hr Hn]]; rewrite Hr.
    + left. eauto.
    + right. split; [right; eauto|reflexivity].
  - right. split; [now left|reflexivity].
Qed.

End AllocationViews.

(** X4. [getOptimalAllocation] and [getAllocationMap] fail exactly when
    the view call fails or its answer is unreadable, and then always with
    their own TransactionBuildFailed message: the parser's message never
    reaches the caller. *)
Theorem allocation_views_mask_the_cause (W : World) (vaultAddress : string) (n : Z) :
  ((exists x, StrategyAllocator.getOptimalAllocation W vaultAddress n = Throw x)
   <-> get_allocations_view W vaultAddress (JS.toString n) = None
       \/ exists raw, get_allocations_view W vaultAddress (JS.toString n) = Some raw
                      /\ readable raw = false)
  /\ (forall x, StrategyAllocator.getOptimalAllocation W vaultAddress n = Throw x ->
        x = Canopy (mkCanopyError "Failed to get optimal allocation"
                                  TRANSACTION_BUILD_FAILED))
  /\ ((exists x, StrategyAllocator.getAllocationMap W vaultAddress n = Throw x)
      <-> get_withdrawal_map_view W vaultAddress (JS.toString n) = None
          \/ exists raw, get_withdrawal_map_view W vaultAddress (JS.toString n) = Some raw
                         /\ readable raw = false)
  /\ (forall x, StrategyAllocator.getAllocationMap W vaultAddress n = Throw x ->
        x = Canopy (mkCanopyError "Failed to get withdrawal map"
                                  TRANSACTION_BUILD_FAILED)).
Proof.
  assert (Hsound : forall raw a,
             StrategyAllocator.parseAllocationMap raw = Ok a -> readable raw = true).
  { intros raw a Ha. destruct (parse_result raw) as [(r & _ & Hy)|[Hr _]];
      [exact Hy|]. rewrite Hr in Ha. discriminate. }
  split; [|split; [|split]].
  - destruct (getOptimalAllocation_cases W vaultAddress n)
      as [(raw & a & Hv & Hp & Ho)|[Hc Ht]].
    + rewrite Ho, Hv. split; [intros [x Hx]; discriminate|].
      intros [H|(raw' & Hraw & Hn)]; [discriminate|].
      injection Hraw as <-. rewrite (Hsound raw a Hp) in Hn. discriminate.
    + rewrite Ht. split; [now intros _|]. intros _. eexists. reflexivity.
  - intros x Hx.
    destruct (getOptimalAllocation_cases W vaultAddress n)
      as [(raw & a & _ & _ & Ho)|[_ Ht]]; rewrite ?Ho, ?Ht in Hx;
      [discriminate|]. now injection Hx as <-.
  - destruct (getAllocationMap_cases W vaultAddress n)
      as [(raw & a & Hv & Hp & Ho)|[Hc Ht]].
    + rewrite Ho, Hv. split; [intros [x Hx]; discriminate|].
      intros [H|(raw' & Hraw & Hn)]; [discriminate|].
      injection Hraw as <-. rewrite (Hsound raw a Hp) in Hn. discriminate.
    + rewrite Ht. split; [now intros _|]. intros _. eexists. reflexivity.
  - intros x Hx.
    destruct (getAllocationMap_cases W vaultAddress n)
      as [(raw & a & _ & _ & Ho)|[_ Ht]]; rewrite ?Ho, ?Ht in Hx;
      [discriminate|]. now injection Hx as <-.
Qed.

(** X5. An allocation returned by [getOptimalAllocation] passes
    [validateAllocation] exactly when it is non-empty and its amounts sum
    to the total within the tolerance: the length-mismatch rejection
    cannot occur after parsing. *)
Theorem parsed_allocation_validation (W : World) (vaultAddress : string)
    (amount : Z) (a : AllocationMap) :
  StrategyAllocator.getOptimalAllocation W vaultAddress amount = Ok a ->
  (StrategyAllocator.validateAllocation a amount = Ok tt
   <-> alloc_strategies a <> []
       /\ Z.abs (allocated_sum (alloc_amounts a) - amount) <= Z.quot amount 1000)
  /\ StrategyAllocator.validateAllocation a amount
     <> raise "Mismatched strategies and amounts" TRANSACTION_BUILD_FAILED.
Proof.
  intros Ho.
  assert (Hlen : length (alloc_strategies a) = length (alloc_amounts a)).
  { destruct (getOptimalAllocation_cases W vaultAddress amount)
      as [(raw & a' & _ & Hp & Ho')|[_ Ht]]; rewrite ?Ho', ?Ht in Ho.
    - injection Ho as <-. now apply (parsed_lengths raw).
    - discriminate. }
  unfold StrategyAllocator.validateAllocation.
  destruct (Nat.eqb_spec (length (alloc_strategies a)) 0) as [H0|H0].
  { split; [|discriminate]. split; [discriminate|].
    intros [Hne _]. destruct (alloc_strategies a); [contradiction|discriminate]. }
  destruct (Nat.eqb_spec (length (alloc_strategies a)) (length (alloc_amounts a)))
    as [_|Hn]; [|contradiction]. cbn [negb].
  rewrite reduce_sum, diff_is_abs, Z.add_0_l.
  destruct (Z.gtb_spec (Z.abs (allocated_sum (alloc_amounts a) - amount))
              (Z.quot amount 1000)) as [Hd|Hd].
  - split; [|discriminate]. split; [discriminate|]. intros [_ Hle]. lia.
  - split; [|discriminate]. split; [|reflexivity]. intros _. split; [|lia].
    intros He. rewrite He in H0. contradiction.
Qed.

Lemma parsed_allocation_validation_witness :
  StrategyAllocator.getOptimalAllocation allocation_world "0xV" 600
  = Ok {| alloc_strategies := ["0xS1"]; alloc_amounts := [600] |}
  /\ StrategyAllocator.validateAllocation
       {| alloc_strategies := ["0xS1"]; alloc_amounts := [600] |} 600 = Ok tt.
Proof.
  split; [reflexivity|].
  apply (parsed_allocation_validation allocation_world "0xV" 600
           {| alloc_strategies := ["0xS1"]; alloc_amounts := [600] |} eq_refl).
  split; [discriminate|]. vm_compute. discriminate.
Defined.

(** ** Packet generation and packet arrays *)


(** X6. [generatePackets] throws, with PacketGenerationFailed, exactly
    when the two arrays differ in length; otherwise it returns one entry
    for every index whose strategy is a non-empty string, in order, and
    skips the others. *)
Theorem generatePackets_throws_iff_mismatch (W : World) (network : string)
    (strats : list string) (amts : list Z) (operation : Operation)
    (options : PacketGeneratorOptions) :
  (length strats <> length amts ->
   PacketGenerator.generatePackets W network strats amts operation options
   = raise "Strategies and amounts arrays must have the same length"
           PACKET_GENERATION_FAILED)
  /\ (length strats = length amts ->
      PacketGenerator.generatePackets W network strats amts operation options
      = Ok (map (fun p => packet_entry W network operation options p.1 p.2)
                (List.filter (fun p => truthy p.1) (zip strats amts)))).
Proof.
  unfold PacketGenerator.generatePackets.
  destruct (Nat.eqb_spec (length strats) (length amts)) as [He|Hn]; cbn [negb].
  - split; [contradiction|]. intros _. f_equal.
    rewrite (generate_fold_any W network operation options strats amts
               (length strats) He) by lia.
    rewrite take_ge; [reflexivity|]. rewrite length_zip_with. lia.
  - split; [reflexivity|]. contradiction.
Qed.

Lemma generatePackets_throws_iff_mismatch_witness :
  length ["0xS1"; "0xS2"] <> length [5]
  /\ PacketGenerator.generatePackets unreachable_world MOVEMENT_MAINNET
       ["0xS1"; "0xS2"] [5] deposit_op no_options
     = raise "Strategies and amounts arrays must have the same length"
             PACKET_GENERATION_FAILED.
Proof.
  assert (Hn : length ["0xS1"; "0xS2"] <> length [5]) by discriminate.
  split; [exact Hn|].
  exact (proj1 (generatePackets_throws_iff_mismatch unreachable_world MOVEMENT_MAINNET
                  ["0xS1"; "0xS2"] [5] deposit_op no_options) Hn).
Defined.

Section PacketArraysMore.

Import PacketGenerator.

Lemma push_generated_fold (packets : list PacketData)
    (acc : list string * list (list byte)) :
  fold_left push_generated packets acc
  = (acc.1 ++ map strategy (with_bytes packets),
     acc.2 ++ map packet (with_bytes packets)).
Proof.
  revert acc. induction packets as [|p packets IH]; intros [names datas].
  - cbn. now rewrite !app_nil_r.
  - cbn [fold_left]. rewrite IH. unfold push_generated, with_bytes.
    cbn [List.filter fst snd].
    destruct (non_empty (packet p)); cbn [fst snd map]; [|reflexivity].
    now rewrite <- !app_assoc.
Qed.

Lemma createPacketArrays_generated (packets : list PacketData) :
  createPacketArrays packets None
  = (map strategy (with_bytes packets), map packet (with_bytes packets)).
Proof.
  unfold createPacketArrays. destruct packets as [|p packets]; [reflexivity|].
  cbn [length Nat.eqb]. now rewrite push_generated_fold.
Qed.

Lemma with_bytes_non_empty (packets : list PacketData) :
  List.Forall (fun bytes => bytes <> []) (map packet (with_bytes packets)).
Proof.
  unfold with_bytes. induction packets as [|p packets IH]; [constructor|].
  cbn [List.filter]. destruct (non_empty (packet p)) eqn:Hn; [|exact IH].
  cbn [map]. constructor; [|exact IH]. intros He. rewrite He in Hn. discriminate.
Qed.

Lemma first_bytes_non_empty (packets : list PacketData) (strats : list string) :
  List.Forall (fun bytes => bytes <> [])
    (map (first_packet_bytes packets)
         (List.filter (first_packet_non_empty packets) strats)).
Proof.
  induction strats as [|s strats IH]; [constructor|].
  cbn [List.filter]. destruct (first_packet_non_empty packets s) eqn:Hn; [|exact IH].
  cbn [map]. constructor; [|exact IH].
  unfold first_packet_non_empty, first_packet_bytes in *.
  destruct (find_packet packets s) as [p|]; [|discriminate].
  intros He. rewrite He in Hn. discriminate.
Qed.

Lemma find_packet_app (l1 l2 : list PacketData) (s : string) :
  find_packet (l1 ++ l2) s
  = match find_packet l1 s with
    | Some p => Some p
    | None => find_packet l2 s
    end.
Proof.
  unfold find_packet. induction l1 as [|p l1 IH]; [reflexivity|].
  cbn [app List.find]. now destruct (String.eqb (strategy p) s).
Qed.

(** With strategies that do not repeat, [find] settles on the entry
    generated for the strategy asked for. *)
Lemma find_among_entries (W : World) (network : string) (operation : Operation)
    (options : PacketGeneratorOptions) (strats : list string) (amts : list Z)
    (s : string) :
  ~ In s strats ->
  find_packet (zip_with (packet_entry W network operation options) strats amts) s
  = None.
Proof.
  revert amts. induction strats as [|s0 strats IH]; intros [|a amts] Hn;
    try reflexivity.
  cbn [zip_with find_packet List.find packet_entry strategy].
  unfold find_packet in IH.
  destruct (String.eqb_spec s0 s) as [->|_].
  - exfalso. apply Hn. now left.
  - apply IH. intros Hin. apply Hn. now right.
Qed.

Lemma allocation_order_is_generation_order (W : World) (network : string)
    (operation : Operation) (options : PacketGeneratorOptions)
    (strats : list string) (amts : list Z) (seen : list PacketData) :
  length strats = length amts -> List.NoDup strats ->
  (forall s, In s strats -> find_packet seen s = None) ->
  let entries := zip_with (packet_entry W network operation options) strats amts in
  List.filter (first_packet_non_empty (seen ++ entries)) strats
  = map strategy (with_bytes entries)
  /\ map (first_packet_bytes (seen ++ entries))
         (List.filter (first_packet_non_empty (seen ++ entries)) strats)
     = map packet (with_bytes entries).
Proof.
  cbv zeta. revert amts seen.
  induction strats as [|s strats IH]; intros [|a amts] seen Hlen Hnd Hseen;
    try discriminate; [split; reflexivity|].
  inversion Hnd as [|? ? Hnotin Hnd']; subst.
  cbn [zip_with].
  set (e := packet_entry W network operation options s a).
  set (rest := zip_with (packet_entry W network operation options) strats amts).
  assert (Hfind : find_packet (seen ++ e :: rest) s = Some e).
  { rewrite find_packet_app, (Hseen s (or_introl eq_refl)).
    unfold find_packet. cbn [List.find]. subst e. cbn [packet_entry strategy].
    now rewrite String.eqb_refl. }
  assert (Hsplit : seen ++ e :: rest = (seen ++ [e]) ++ rest)
    by now rewrite <- app_assoc.
  assert (Hseen' : forall s', In s' strats -> find_packet (seen ++ [e]) s' = None).
  { intros s' Hin. rewrite find_packet_app, (Hseen s' (or_intror Hin)).
    unfold find_packet. cbn [List.find]. subst e. cbn [packet_entry strategy].
    destruct (String.eqb_spec s s') as [->|_]; [contradiction|reflexivity]. }
  destruct (IH amts (seen ++ [e]) ltac:(simpl in Hlen; lia) Hnd' Hseen')
    as [IHs IHb].
  fold rest in IHs, IHb. rewrite <- Hsplit in IHs, IHb.
  assert (Hne : first_packet_non_empty (seen ++ e :: rest) s = non_empty (packet e)).
  { unfold first_packet_non_empty. now rewrite Hfind. }
  assert (Hby : first_packet_bytes (seen ++ e :: rest) s = packet e).
  { unfold first_packet_bytes. now rewrite Hfind. }
  unfold with_bytes. cbn [List.filter]. fold (with_bytes rest). rewrite Hne.
  destruct (non_empty (packet e)).
  - cbn [map]. rewrite Hby, IHb, IHs. split; reflexivity.
  - rewrite IHb, IHs. split; reflexivity.
Qed.

End PacketArraysMore.

(** X7. Without an allocation, [createPacketArrays] returns the strategies
    and bytes of the packets that have bytes, in the order of the packet
    list; with or without an allocation the two arrays are equally long
    and no returned byte sequence is empty. *)
Theorem createPacketArrays_keeps_non_empty (packets : list PacketData)
    (allocation : option AllocationMap) :
  PacketGenerator.createPacketArrays packets None
  = (map strategy (with_bytes packets), map packet (with_bytes packets))
  /\ length (PacketGenerator.createPacketArrays packets allocation).1
     = length (PacketGenerator.createPacketArrays packets allocation).2
  /\ List.Forall (fun bytes => bytes <> [])
       (PacketGenerator.createPacketArrays packets allocation).2.
Proof.
  split; [apply createPacketArrays_generated|].
  destruct allocation as [a|].
  - rewrite createPacketArrays_allocated. cbn [fst snd].
    split; [now rewrite length_map|apply first_bytes_non_empty].
  - rewrite createPacketArrays_generated. cbn [fst snd].
    split; [now rewrite !length_map|apply with_bytes_non_empty].
Qed.

(** X8. When the allocation's strategies are non-empty and pairwise
    distinct, the packets generated for it and then arranged by
    [createPacketArrays] along that allocation come out in the order they
    were generated: strategy [i] of the result is paired with the bytes
    generated for it. *)
Theorem generated_packets_align_with_allocation (W : World) (network : string)
    (operation : Operation) (options : PacketGeneratorOptions)
    (allocation : AllocationMap) (packets : list PacketData) :
  length (alloc_strategies allocation) = length (alloc_amounts allocation) ->
  List.NoDup (alloc_strategies allocation) ->
  List.Forall (fun s => s <> EmptyString) (alloc_strategies allocation) ->
  PacketGenerator.generatePackets W network (alloc_strategies allocation)
    (alloc_amounts allocation) operation options = Ok packets ->
  PacketGenerator.createPacketArrays packets (Some allocation)
  = (map strategy (with_bytes packets), map packet (with_bytes packets))
  /\ packets = zip_with (packet_entry W network operation options)
                 (alloc_strategies allocation) (alloc_amounts allocation).
Proof.
  intros Hlen Hnd Hall Hgen.
  assert (Hok : packets = zip_with (packet_entry W network operation options)
                           (alloc_strategies allocation) (alloc_amounts allocation)).
  { unfold PacketGenerator.generatePackets in Hgen.
    destruct (Nat.eqb_spec (length (alloc_strategies allocation))
                (length (alloc_amounts allocation))) as [_|Hn]; [|contradiction].
    cbn [negb] in Hgen. injection Hgen as <-.
    rewrite (generate_fold W network operation options _ _ _ Hlen Hall) by lia.
    apply take_ge. rewrite length_zip_with. lia. }
  subst packets. split; [|reflexivity].
  rewrite createPacketArrays_allocated.
  destruct (allocation_order_is_generation_order W network operation options
              (alloc_strategies allocation) (alloc_amounts allocation) []
              Hlen Hnd (fun _ _ => eq_refl)) as [Hs Hb].
  cbn [app] in Hs, Hb. now rewrite Hb, Hs.
Qed.

Lemma generated_packets_align_with_allocation_witness :
  let allocation :=
    {| alloc_strategies := ["0xS1"; "0xS2"; "0xS3"]; alloc_amounts := [10; 20; 30] |} in
  exists packets,
    PacketGenerator.generatePackets flaky_world MOVEMENT_MAINNET
      (alloc_strategies allocation) (alloc_amounts allocation) deposit_op
      lending_options = Ok packets
    /\ PacketGenerator.createPacketArrays packets (Some allocation)
       = (["0xS1"; "0xS3"], [["042"%byte]; ["042"%byte]]).
Proof.
  cbv zeta. eexists. split; [reflexivity|].
  assert (Hnd : List.NoDup ["0xS1"; "0xS2"; "0xS3"]).
  { repeat constructor; simpl; intuition discriminate. }
  assert (Hall : List.Forall (fun s => s <> EmptyString) ["0xS1"; "0xS2"; "0xS3"]).
  { repeat constructor; discriminate. }
  destruct (generated_packets_align_with_allocation flaky_world MOVEMENT_MAINNET
              deposit_op lending_options
              {| alloc_strategies := ["0xS1"; "0xS2"; "0xS3"];
                 alloc_amounts := [10; 20; 30] |}
              _ eq_refl Hnd Hall eq_refl) as [Harr _].
  rewrite Harr. reflexivity.
Defined.

(** X9. Whatever goes wrong while a single packet is generated (portfolio
    fetch, packet request, hex decoding), the error that leaves
    [generateSinglePacket] is PacketGenerationFailed with the message of
    [computePacketData]; the portfolio-state message never surfaces. *)
Theorem generateSinglePacket_error_kind (W : World) (network : string)
    (s : string) (a : Z) (operation : Operation) (options : PacketGeneratorOptions)
    (x : exn) :
  PacketGenerator.generateSinglePacket W network s a operation options = Throw x ->
  x = Canopy (mkCanopyError "Failed to compute packet data" PACKET_GENERATION_FAILED).
Proof.
  unfold PacketGenerator.generateSinglePacket.
  destruct (opt_movepositionConfig options) as [c|]; [|discriminate].
  destruct (negb (truthy (apiUrl c))); [discriminate|].
  cbv zeta.
  destruct (negb (JS.truthy_property
                    (JS.get (nameMap c) (virtualCoinType options))));
    [discriminate|].
  match goal with |- context [if ?e =? 0 then _ else _] => destruct (e =? 0) end;
    [discriminate|].
  unfold PacketGenerator.computePacketData, try_catch.
  match goal with |- match ?body with _ => _ end = _ -> _ => destruct body end;
    [discriminate|].
  intros H. injection H as <-. reflexivity.
Qed.

Lemma generateSinglePacket_error_kind_witness :
  exists x,
    PacketGenerator.generateSinglePacket flaky_world MOVEMENT_MAINNET "0xS2" 20
      deposit_op lending_options = Throw x
    /\ x = Canopy (mkCanopyError "Failed to compute packet data"
                                 PACKET_GENERATION_FAILED).
Proof.
  eexists. split; [reflexivity|].
  apply (generateSinglePacket_error_kind flaky_world MOVEMENT_MAINNET "0xS2" 20
           deposit_op lending_options).
  reflexivity.
Defined.

(** ** The payload builders *)

Section Builders.

Context (abis : Abis) (W : World) (tb : TransactionBuilder.t).

Lemma packets_if_needed_ok (vault : VaultView) (strats : list string)
    (amts : list Z) (op : Operation) (a : string) :
  length strats = length amts ->
  exists packets,
    TransactionBuilder.generatePacketsIfNeeded abis W tb vault strats amts op a
    = Ok packets
    /\ (TransactionBuilder.isMovePosition vault = false -> packets = []).
Proof.
  intros Hlen. unfold TransactionBuilder.generatePacketsIfNeeded.
  destruct (TransactionBuilder.isMovePosition vault); cbn [negb].
  - unfold PacketGenerator.generatePackets.
    destruct (Nat.eqb_spec (length strats) (length amts)) as [_|Hn]; [|contradiction].
    cbn [negb]. eexists. split; [reflexivity|discriminate].
  - exists []. split; reflexivity.
Qed.

Lemma validated_lengths (a : AllocationMap) (n : Z) :
  StrategyAllocator.validateAllocation a n = Ok tt ->
  length (alloc_strategies a) = length (alloc_amounts a)
  /\ alloc_strategies a <> [].
Proof.
  intros Hv. destruct (validateAllocation_cases a n) as [[_ [msg Ht]]|[Hr _]].
  - rewrite Ht in Hv. discriminate.
  - unfold rejected in Hr. split.
    + destruct (Nat.eq_dec (length (alloc_strategies a)) (length (alloc_amounts a)));
        [assumption|]. exfalso. apply Hr. right. now left.
    + intros He. apply Hr. now left.
Qed.

(** The deposit pipeline, step by step. *)
Lemma buildDepositPayload_cases (vaultAddress : string) (amount : Z) :
  (vault_view W vaultAddress = None
   /\ TransactionBuilder.buildDepositPayload abis W tb vaultAddress amount
      = raise "Failed to get vault details" VAULT_NOT_FOUND)
  \/ (exists vault, vault_view W vaultAddress = Some vault
      /\ ((exists x, StrategyAllocator.getOptimalAllocation W vaultAddress amount = Throw x)
          /\ TransactionBuilder.buildDepositPayload abis W tb vaultAddress amount
             = raise "Failed to get optimal allocation" TRANSACTION_BUILD_FAILED
          \/ exists a,
               StrategyAllocator.getOptimalAllocation W vaultAddress amount = Ok a
               /\ ((exists msg,
                      StrategyAllocator.validateAllocation a amount
                      = raise msg TRANSACTION_BUILD_FAILED
                      /\ TransactionBuilder.buildDepositPayload abis W tb vaultAddress
                           amount = raise msg TRANSACTION_BUILD_FAILED)
                   \/ exists packets,
                        StrategyAllocator.validateAllocation a amount = Ok tt
                        /\ TransactionBuilder.generatePacketsIfNeeded abis W tb vault
                             (alloc_strategies a) (alloc_amounts a) deposit_op
                             vaultAddress = Ok packets
                        /\ TransactionBuilder.buildDepositPayload abis W tb
                             vaultAddress amount
                           = Ok (TransactionBuilder.createDepositPayload abis vault
                                   vaultAddress a packets amount)))).
Proof.
  unfold TransactionBuilder.buildDepositPayload, VaultDetector.getVaultDetails.
  destruct (vault_view W vaultAddress) as [vault|]; [|left; split; reflexivity].
  right. exists vault. split; [reflexivity|]. cbn [bind].
  destruct (getOptimalAllocation_cases W vaultAddress amount)
    as [(raw & a & _ & _ & Ho)|[_ Ht]].
  - right. exists a. split; [exact Ho|]. rewrite Ho. cbn [bind].
    destruct (validateAllocation_cases a amount) as [[_ [msg Hm]]|[_ Hv]].
    + left. exists msg. rewrite Hm. split; reflexivity.
    + right. destruct (validated_lengths a amount Hv) as [Hlen _].
      destruct (packets_if_needed_ok vault _ _ deposit_op vaultAddress Hlen)
        as (packets & Hp & _).
      exists packets. rewrite Hv. cbn [bind]. rewrite Hp. repeat split; reflexivity.
  - left. rewrite Ht. split; [eauto|reflexivity].
Qed.

(** The withdraw pipeline, step by step. *)
Lemma buildWithdrawPayload_cases (vaultAddress : string) (shares : Z) :
  (vault_view W vaultAddress = None
   /\ TransactionBuilder.buildWithdrawPayload abis W tb vaultAddress shares
      = raise "Failed to get vault details" VAULT_NOT_FOUND)
  \/ (exists vault, vault_view W vaultAddress = Some vault
      /\ ((exists x, StrategyAllocator.getAllocationMap W vaultAddress shares = Throw x)
          /\ TransactionBuilder.buildWithdrawPayload abis W tb vaultAddress shares
             = raise "Failed to get withdrawal map" TRANSACTION_BUILD_FAILED
          \/ exists a packets,
               StrategyAllocator.getAllocationMap W vaultAddress shares = Ok a
               /\ TransactionBuilder.generatePacketsIfNeeded abis W tb vault
                    (alloc_strategies a) (alloc_amounts a) withdraw_op
                    vaultAddress = Ok packets
               /\ TransactionBuilder.buildWithdrawPayload abis W tb vaultAddress shares
                  = Ok (TransactionBuilder.createWithdrawPayload abis vault
                          vaultAddress a packets shares None))).
Proof.
  unfold TransactionBuilder.buildWithdrawPayload, VaultDetector.getVaultDetails.
  destruct (vault_view W vaultAddress) as [vault|]; [|left; split; reflexivity].
  right. exists vault. split; [reflexivity|]. cbn [bind].
  destruct (getAllocationMap_cases W vaultAddress shares)
    as [(raw & a & _ & Hparse & Ho)|[_ Ht]].
  - right. exists a.
    destruct (packets_if_needed_ok vault _ _ withdraw_op vaultAddress
                (parsed_lengths raw a Hparse)) as (packets & Hp & _).
    exists packets. rewrite Ho. cbn [bind]. rewrite Hp. repeat split; reflexivity.
  - left. rewrite Ht. split; [eauto|reflexivity].
Qed.

End Builders.

(** X10. The payload builders never fail with PacketGenerationFailed: the
    arrays they hand to the packet generator are always equally long, so
    their only error codes are VaultNotFound and TransactionBuildFailed. *)
Theorem builders_never_fail_on_packets (abis : Abis) (W : World)
    (tb : TransactionBuilder.t) (vaultAddress : string) (n : Z) :
  throws_only builder_codes
    (TransactionBuilder.buildDepositPayload abis W tb vaultAddress n)
  /\ throws_only builder_codes
       (TransactionBuilder.buildWithdrawPayload abis W tb vaultAddress n)
  /\ thrown_code (TransactionBuilder.buildDepositPayload abis W tb vaultAddress n)
     <> Some PACKET_GENERATION_FAILED
  /\ thrown_code (TransactionBuilder.buildWithdrawPayload abis W tb vaultAddress n)
     <> Some PACKET_GENERATION_FAILED.
Proof.
  assert (Hd : throws_only builder_codes
                 (TransactionBuilder.buildDepositPayload abis W tb vaultAddress n)).
  { intros x Hx.
    destruct (buildDepositPayload_cases abis W tb vaultAddress n)
      as [[_ Hb]|(vault & _ & [[_ Hb]|(a & _ & [(msg & _ & Hb)|(pk & _ & _ & Hb)])])];
      rewrite Hb in Hx; try discriminate;
      injection Hx as <-; eexists; (split; [reflexivity|]); simpl; tauto. }
  assert (Hw : throws_only builder_codes
                 (TransactionBuilder.buildWithdrawPayload abis W tb vaultAddress n)).
  { intros x Hx.
    destruct (buildWithdrawPayload_cases abis W tb vaultAddress n)
      as [[_ Hb]|(vault & _ & [[_ Hb]|(a & pk & _ & _ & Hb)])];
      rewrite Hb in Hx; try discriminate;
      injection Hx as <-; eexists; (split; [reflexivity|]); simpl; tauto. }
  split; [exact Hd|]. split; [exact Hw|].
  split.
  - destruct (TransactionBuilder.buildDepositPayload abis W tb vaultAddress n)
      as [p|[e|what]]; simpl; try discriminate.
    destruct (Hd _ eq_refl) as (e' & He & Hin). injection He as <-.
    intros H. injection H as H. rewrite H in Hin. simpl in Hin.
    intuition discriminate.
  - destruct (TransactionBuilder.buildWithdrawPayload abis W tb vaultAddress n)
      as [p|[e|what]]; simpl; try discriminate.
    destruct (Hw _ eq_refl) as (e' & He & Hin). injection He as <-.
    intros H. injection H as H. rewrite H in Hin. simpl in Hin.
    intuition discriminate.
Qed.

Lemma arrays_of_no_packets (allocation : AllocationMap) :
  PacketGenerator.createPacketArrays [] (Some allocation) = ([], []).
Proof. reflexivity. Qed.

(** X11. For a vault that is not on the lending platform the builders
    never touch the lending API: replacing its two endpoints changes
    nothing, and a built payload carries the vault address, no strategy,
    no packet and the amount as its first four arguments. *)
Theorem other_platforms_build_without_packets (abis : Abis) (W : World)
    (tb : TransactionBuilder.t) (vaultAddress : string) (n : Z) (vault : VaultView)
    (Hvault : vault_view W vaultAddress = Some vault)
    (Hplatform : TransactionBuilder.isMovePosition vault = false) :
  (forall portfolio post,
      TransactionBuilder.buildDepositPayload abis (with_lending_api W portfolio post)
        tb vaultAddress n
      = TransactionBuilder.buildDepositPayload abis W tb vaultAddress n
      /\ TransactionBuilder.buildWithdrawPayload abis
           (with_lending_api W portfolio post) tb vaultAddress n
         = TransactionBuilder.buildWithdrawPayload abis W tb vaultAddress n)
  /\ (forall p,
        TransactionBuilder.buildDepositPayload abis W tb vaultAddress n = Ok p ->
        packetless_arguments p vaultAddress n)
  /\ (forall p,
        TransactionBuilder.buildWithdrawPayload abis W tb vaultAddress n = Ok p ->
        packetless_arguments p vaultAddress n).
Proof.
  assert (Hnone : forall W' strats amts op a,
             TransactionBuilder.generatePacketsIfNeeded abis W' tb vault strats amts
               op a = Ok []).
  { intros. unfold TransactionBuilder.generatePacketsIfNeeded.
    now rewrite Hplatform. }
  split; [|split].
  - intros portfolio post.
    unfold TransactionBuilder.buildDepositPayload,
      TransactionBuilder.buildWithdrawPayload, VaultDetector.getVaultDetails.
    cbn [with_lending_api vault_view]. rewrite Hvault. cbn [bind].
    change (StrategyAllocator.getOptimalAllocation
              (with_lending_api W portfolio post) vaultAddress n)
      with (StrategyAllocator.getOptimalAllocation W vaultAddress n).
    change (StrategyAllocator.getAllocationMap
              (with_lending_api W portfolio post) vaultAddress n)
      with (StrategyAllocator.getAllocationMap W vaultAddress n).
    split.
    + destruct (StrategyAllocator.getOptimalAllocation W vaultAddress n) as [a|x];
        [|reflexivity]. cbn [bind].
      destruct (StrategyAllocator.validateAllocation a n) as [[]|x]; [|reflexivity].
      cbn [bind]. now rewrite !Hnone.
    + destruct (StrategyAllocator.getAllocationMap W vaultAddress n) as [a|x];
        [|reflexivity]. cbn [bind]. now rewrite !Hnone.
  - intros p Hp.
    destruct (buildDepositPayload_cases abis W tb vaultAddress n)
      as [[_ Hb]|(v & Hv & [[_ Hb]|(a & _ & [(msg & _ & Hb)|(pk & _ & Hpk & Hb)])])];
      rewrite Hb in Hp; try discriminate.
    rewrite Hvault in Hv. injection Hv as <-. rewrite Hnone in Hpk.
    injection Hpk as <-. injection Hp as <-.
    unfold packetless_arguments, TransactionBuilder.createDepositPayload.
    destruct (TransactionBuilder.isEchelon vault);
      [|rewrite arrays_of_no_packets]; reflexivity.
  - intros p Hp.
    destruct (buildWithdrawPayload_cases abis W tb vaultAddress n)
      as [[_ Hb]|(v & Hv & [[_ Hb]|(a & pk & _ & Hpk & Hb)])];
      rewrite Hb in Hp; try discriminate.
    rewrite Hvault in Hv. injection Hv as <-. rewrite Hnone in Hpk.
    injection Hpk as <-. injection Hp as <-.
    unfold packetless_arguments, TransactionBuilder.createWithdrawPayload.
    destruct (TransactionBuilder.isEchelon vault);
      [|rewrite arrays_of_no_packets]; reflexivity.
Qed.

Lemma other_platforms_build_without_packets_witness :
  exists p,
    TransactionBuilder.buildWithdrawPayload sample_abis layerbank_world
      (TransactionBuilder.new None None) "0xV" 40 = Ok p
    /\ packetless_arguments p "0xV" 40.
Proof.
  eexists. split; [reflexivity|].
  refine (proj2 (proj2 (other_platforms_build_without_packets sample_abis
                          layerbank_world (TransactionBuilder.new None None) "0xV" 40
                          (vault_of [LAYERBANK_SIMPLE_CONCRETE_ADDRESS])
                          eq_refl eq_refl)) _ eq_refl).
Defined.

(** X12. Only the deposit path validates the allocation.  When the chain
    proposes no strategy at all, a deposit is refused with "No strategies
    available for allocation", while a withdrawal of the same vault is
    built all the same, with empty strategy and packet arguments. *)
Theorem empty_allocation_blocks_deposit_only (abis : Abis) (W : World)
    (tb : TransactionBuilder.t) (vaultAddress : string) (n : Z) (vault : VaultView)
    (Hvault : vault_view W vaultAddress = Some vault) :
  (forall a,
      StrategyAllocator.getOptimalAllocation W vaultAddress n = Ok a ->
      alloc_strategies a = [] ->
      TransactionBuilder.buildDepositPayload abis W tb vaultAddress n
      = raise "No strategies available for allocation" TRANSACTION_BUILD_FAILED)
  /\ (forall a,
        StrategyAllocator.getAllocationMap W vaultAddress n = Ok a ->
        alloc_strategies a = [] ->
        exists p,
          TransactionBuilder.buildWithdrawPayload abis W tb vaultAddress n = Ok p
          /\ packetless_arguments p vaultAddress n).
Proof.
  split.
  - intros a Ha He.
    unfold TransactionBuilder.buildDepositPayload, VaultDetector.getVaultDetails.
    rewrite Hvault. cbn [bind]. rewrite Ha. cbn [bind].
    unfold StrategyAllocator.validateAllocation. rewrite He. reflexivity.
  - intros a Ha He.
    destruct (getAllocationMap_cases W vaultAddress n)
      as [(raw & a' & _ & Hparse & Ho)|[_ Ht]]; [|rewrite Ht in Ha; discriminate].
    rewrite Ho in Ha. injection Ha as ->.
    pose proof (parsed_lengths raw a Hparse) as Hlen.
    destruct a as [strats amts]. cbn [alloc_strategies alloc_amounts] in *.
    subst strats. destruct amts as [|z amts]; [|discriminate].
    unfold TransactionBuilder.buildWithdrawPayload, VaultDetector.getVaultDetails.
    rewrite Hvault. cbn [bind]. rewrite Ho. cbn [bind alloc_strategies alloc_amounts].
    assert (Hpk : TransactionBuilder.generatePacketsIfNeeded abis W tb vault [] []
                    withdraw_op vaultAddress = Ok []).
    { unfold TransactionBuilder.generatePacketsIfNeeded.
      destruct (TransactionBuilder.isMovePosition vault); reflexivity. }
    rewrite Hpk. cbn [bind try_catch]. eexists. split; [reflexivity|].
    unfold packetless_arguments, TransactionBuilder.createWithdrawPayload.
    destruct (TransactionBuilder.isEchelon vault); reflexivity.
Qed.

Lemma empty_allocation_blocks_deposit_only_witness :
  TransactionBuilder.buildDepositPayload sample_abis shapeless_world
    (TransactionBuilder.new None None) "0xV" 40
  = raise "No strategies available for allocation" TRANSACTION_BUILD_FAILED
  /\ exists p,
       TransactionBuilder.buildWithdrawPayload sample_abis shapeless_world
         (TransactionBuilder.new None None) "0xV" 40 = Ok p
       /\ packetless_arguments p "0xV" 40.
Proof.
  destruct (empty_allocation_blocks_deposit_only sample_abis shapeless_world
              (TransactionBuilder.new None None) "0xV" 40 (vault_of ["0x1"]) eq_refl)
    as [Hd Hw].
  split.
  - exact (Hd {| alloc_strategies := []; alloc_amounts := [] |} eq_refl eq_refl).
  - exact (Hw {| alloc_strategies := []; alloc_amounts := [] |} eq_refl eq_refl).
Defined.

(** ** Address and type-name normalisation *)

Section Normalisation.

Lemma lower_char_idempotent (c : ascii) :
  JS.lower_char (JS.lower_char c) = JS.lower_char c.
Proof. destruct c as [[] [] [] [] [] [] [] []]; reflexivity. Qed.

Lemma lower_idempotent (s : string) :
  JS.toLowerCase (JS.toLowerCase s) = JS.toLowerCase s.
Proof.
  induction s as [|c s IH]; [reflexivity|].
  cbn [JS.toLowerCase]. now rewrite lower_char_idempotent, IH.
Qed.

Lemma lower_append (a b : string) :
  JS.toLowerCase (a +++ b) = JS.toLowerCase a +++ JS.toLowerCase b.
Proof.
  induction a as [|c a IH]; [now rewrite !append_nil_l|].
  rewrite append_cons. cbn [JS.toLowerCase]. now rewrite append_cons, IH.
Qed.

Lemma lower_zeros (k : nat) :
  JS.toLowerCase (JS.repeat_char "0" k) = JS.repeat_char "0" k.
Proof.
  induction k as [|k IH]; [reflexivity|].
  cbn [JS.repeat_char JS.toLowerCase]. now rewrite IH.
Qed.

Lemma length_lower (s : string) : String.length (JS.toLowerCase s) = String.length s.
Proof. induction s as [|c s IH]; [reflexivity|]. simpl. now rewrite IH. Qed.

Lemma repeat_char_add (c : ascii) (a b : nat) :
  JS.repeat_char c (a + b) = JS.repeat_char c a +++ JS.repeat_char c b.
Proof.
  induction a as [|a IH]; [now rewrite append_nil_l|].
  cbn [Nat.add JS.repeat_char]. now rewrite append_cons, IH.
Qed.

Lemma padStart_long (n : nat) (c : ascii) (s : string) :
  (n <= String.length s)%nat -> JS.padStart n c s = s.
Proof.
  intros H. unfold JS.padStart.
  replace (n - String.length s)%nat with 0%nat by lia.
  apply append_nil_l.
Qed.

Lemma length_padStart (n : nat) (c : ascii) (s : string) :
  String.length (JS.padStart n c s) = Nat.max n (String.length s).
Proof. unfold JS.padStart. rewrite length_append, length_repeat. lia. Qed.

Lemma lower_padStart (n : nat) (s : string) :
  JS.toLowerCase (JS.padStart n "0" (JS.toLowerCase s))
  = JS.padStart n "0" (JS.toLowerCase s).
Proof.
  unfold JS.padStart. rewrite lower_append, lower_zeros, lower_idempotent.
  now rewrite length_lower.
Qed.

(** A normalised address is left alone by the unprefixed normaliser. *)
Lemma normalized_is_stable (value : string) :
  JS.padStart 64 "0" (JS.toLowerCase (VaultDetector.normalizeAddress value))
  = VaultDetector.normalizeAddress value.
Proof.
  unfold VaultDetector.normalizeAddress.
  rewrite lower_padStart. apply padStart_long.
  rewrite length_padStart. lia.
Qed.

Lemma normalize_prefixed (s : string) :
  TransactionBuilder.normalizeAddress ("0x" +++ s)
  = "0x" +++ JS.padStart 64 "0" (JS.toLowerCase s).
Proof. reflexivity. Qed.

Lemma normalize_body (digits : string) (k : nat) :
  (k + String.length digits <= 64)%nat ->
  "0x" +++ JS.padStart 64 "0" (JS.toLowerCase (JS.repeat_char "0" k +++ digits))
  = canonical_address digits.
Proof.
  intros Hk. unfold canonical_address, JS.padStart. f_equal.
  rewrite lower_append, lower_zeros, length_append, length_repeat, length_lower.
  rewrite <- append_assoc, <- repeat_char_add. do 2 f_equal. lia.
Qed.

Lemma normalize_twice (value : string) :
  TransactionBuilder.normalizeAddress (TransactionBuilder.normalizeAddress value)
  = TransactionBuilder.normalizeAddress value.
Proof.
  assert (Hb : TransactionBuilder.normalizeAddress value
               = "0x" +++ VaultDetector.normalizeAddress value) by reflexivity.
  rewrite Hb at 1 2. rewrite normalize_prefixed.
  now rewrite normalized_is_stable.
Qed.

(** *** Type names *)

Lemma split_aux_colons (c : ascii) (s cur : string) :
  JS.split_aux "::" (String c s) cur 0
  = if JS.startsWith "::" (String c s)
    then cur :: JS.split_aux "::" s EmptyString 1
    else JS.split_aux "::" s (cur +++ String c EmptyString) 0.
Proof. reflexivity. Qed.

Lemma no_separator_at (c : ascii) (s : string) :
  Ascii.eqb ":" c = false -> JS.startsWith "::" (String c s) = false.
Proof. intros H. cbn [JS.startsWith]. now rewrite H. Qed.

Lemma split_last_segment (a cur : string) :
  colon_free a = true -> JS.split_aux "::" a cur 0 = [cur +++ a].
Proof.
  revert cur. induction a as [|c a IH]; intros cur H.
  - now rewrite append_nil_r.
  - cbn [colon_free] in H. apply andb_prop in H as [Hc Ha].
    apply negb_true_iff in Hc.
    rewrite split_aux_colons, (no_separator_at _ _ Hc), (IH _ Ha).
    now rewrite append_assoc, append_cons, append_nil_l.
Qed.

Lemma split_segment (a rest cur : string) :
  colon_free a = true ->
  JS.split_aux "::" (a +++ "::" +++ rest) cur 0
  = (cur +++ a) :: JS.split_aux "::" rest EmptyString 0.
Proof.
  revert cur. induction a as [|c a IH]; intros cur H.
  - rewrite append_nil_l, append_nil_r. reflexivity.
  - cbn [colon_free] in H. apply andb_prop in H as [Hc Ha].
    apply negb_true_iff in Hc.
    rewrite append_cons, split_aux_colons, (no_separator_at _ _ Hc), (IH _ Ha).
    now rewrite append_assoc, append_cons, append_nil_l.
Qed.

Lemma split_three (pkg m t : string) :
  colon_free pkg = true -> colon_free m = true -> colon_free t = true ->
  JS.split "::" (pkg +++ "::" +++ m +++ "::" +++ t) = [pkg; m; t].
Proof.
  intros Hp Hm Ht. unfold JS.split.
  rewrite (split_segment _ _ _ Hp), (split_segment _ _ _ Hm),
    (split_last_segment _ _ Ht).
  now rewrite !append_nil_l.
Qed.

Lemma split_more (pkg m t rest : string) :
  colon_free pkg = true -> colon_free m = true -> colon_free t = true ->
  exists more,
    JS.split "::" (pkg +++ "::" +++ m +++ "::" +++ t +++ "::" +++ rest)
    = pkg :: m :: t :: more.
Proof.
  intros Hp Hm Ht. unfold JS.split.
  rewrite (split_segment _ _ _ Hp), (split_segment _ _ _ Hm),
    (split_segment _ _ _ Ht).
  rewrite !append_nil_l. eauto.
Qed.

Lemma colon_free_append (a b : string) :
  colon_free a = true -> colon_free b = true -> colon_free (a +++ b) = true.
Proof.
  induction a as [|c a IH]; [now rewrite append_nil_l|].
  rewrite append_cons. cbn [colon_free]. intros H Hb.
  apply andb_prop in H as [Hc Ha]. now rewrite Hc, IH.
Qed.

Lemma colon_free_zeros (k : nat) : colon_free (JS.repeat_char "0" k) = true.
Proof. induction k as [|k IH]; [reflexivity|]. exact IH. Qed.

Lemma lower_char_colon (c : ascii) :
  Ascii.eqb ":" (JS.lower_char c) = Ascii.eqb ":" c.
Proof. destruct c as [[] [] [] [] [] [] [] []]; reflexivity. Qed.

Lemma colon_free_lower (s : string) :
  colon_free (JS.toLowerCase s) = colon_free s.
Proof.
  induction s as [|c s IH]; [reflexivity|].
  cbn [JS.toLowerCase colon_free]. now rewrite lower_char_colon, IH.
Qed.

Lemma colon_free_slice (n : nat) (s : string) :
  colon_free s = true -> colon_free (JS.slice_from n s) = true.
Proof.
  revert s. induction n as [|n IH]; intros [|c s] H; try assumption.
  cbn [JS.slice_from]. cbn [colon_free] in H.
  apply andb_prop in H as [_ H]. now apply IH.
Qed.

Lemma colon_free_normalized (value : string) :
  colon_free value = true ->
  colon_free (TransactionBuilder.normalizeAddress value) = true.
Proof.
  intros H. unfold TransactionBuilder.normalizeAddress, JS.padStart.
  apply (colon_free_append "0x"); [reflexivity|].
  apply colon_free_append; [apply colon_free_zeros|].
  rewrite colon_free_lower.
  destruct (JS.startsWith "0x" value); [now apply colon_free_slice|assumption].
Qed.

End Normalisation.

(** X13. Normalising an address twice gives the same result as once, and
    the detector's unprefixed normaliser cannot tell an address from its
    normalised form: the platform comparison is unaffected by an earlier
    normalisation. *)
Theorem normalizeAddress_idempotent (value : string) :
  TransactionBuilder.normalizeAddress (TransactionBuilder.normalizeAddress value)
  = TransactionBuilder.normalizeAddress value
  /\ VaultDetector.normalizeAddress (TransactionBuilder.normalizeAddress value)
     = VaultDetector.normalizeAddress value
  /\ JS.startsWith "0x" (TransactionBuilder.normalizeAddress value) = true
  /\ (66 <= String.length (TransactionBuilder.normalizeAddress value))%nat.
Proof.
  assert (Hb : TransactionBuilder.normalizeAddress value
               = "0x" +++ VaultDetector.normalizeAddress value) by reflexivity.
  repeat split.
  - apply normalize_twice.
  - rewrite Hb.
    change (VaultDetector.normalizeAddress
              ("0x" +++ VaultDetector.normalizeAddress value))
      with (JS.padStart 64 "0"
              (JS.toLowerCase (VaultDetector.normalizeAddress value))).
    apply normalized_is_stable.
  - rewrite Hb, length_append. unfold VaultDetector.normalizeAddress.
    rewrite length_padStart. simpl. lia.
Qed.

(** X14. Spellings of one address of at most 64 digits (leading zeros,
    upper or lower case, with the [0x] prefix or without) all normalise
    to the same 66-character string. *)
Theorem normalizeAddress_spellings (digits : string) (k : nat)
    (Hfits : (k + String.length digits <= 64)%nat) :
  TransactionBuilder.normalizeAddress ("0x" +++ JS.repeat_char "0" k +++ digits)
  = canonical_address digits
  /\ TransactionBuilder.normalizeAddress ("0x" +++ JS.toLowerCase digits)
     = canonical_address digits
  /\ (JS.startsWith "0x" digits = false ->
      TransactionBuilder.normalizeAddress digits = canonical_address digits)
  /\ String.length (canonical_address digits) = 66%nat.
Proof.
  assert (H0 : (0 + String.length digits <= 64)%nat) by lia.
  repeat split.
  - rewrite normalize_prefixed. now apply normalize_body.
  - rewrite normalize_prefixed, lower_idempotent.
    rewrite <- (normalize_body digits 0 H0). now rewrite append_nil_l.
  - intros Hp. unfold TransactionBuilder.normalizeAddress. rewrite Hp.
    rewrite <- (normalize_body digits 0 H0). now rewrite append_nil_l.
  - unfold canonical_address.
    rewrite !length_append, length_repeat, length_lower. simpl. lia.
Qed.

Lemma normalizeAddress_spellings_witness :
  TransactionBuilder.normalizeAddress "0x00A" = canonical_address "A"
  /\ TransactionBuilder.normalizeAddress "0xa" = canonical_address "A"
  /\ TransactionBuilder.normalizeAddress "A" = canonical_address "A".
Proof.
  assert (Hfits : (2 + String.length "A" <= 64)%nat) by (simpl; lia).
  destruct (normalizeAddress_spellings "A" 2 Hfits) as (H1 & H2 & H3 & _).
  split; [exact H1|]. split; [exact H2|]. exact (H3 eq_refl).
Defined.

(** X15. A type name is normalised segment by segment: the package is
    normalised as an address (a leading [@] dropped), the module and the
    type are kept, and everything after a third [::] is lost, so type
    arguments that contain [::] are cut.  A name without [::] gets
    [undefined] for the two missing segments, and a normalised
    three-segment name is a fixed point. *)
Theorem normalizeTypeName_segments (pkg m t : string)
    (Hpkg : colon_free pkg = true) (Hm : colon_free m = true)
    (Ht : colon_free t = true) :
  TransactionBuilder.normalizeTypeName (pkg +++ "::" +++ m +++ "::" +++ t)
  = TransactionBuilder.normalizeAddress (package_of pkg) +++ "::" +++ m +++ "::" +++ t
  /\ (forall rest,
        TransactionBuilder.normalizeTypeName
          (pkg +++ "::" +++ m +++ "::" +++ t +++ "::" +++ rest)
        = TransactionBuilder.normalizeTypeName (pkg +++ "::" +++ m +++ "::" +++ t))
  /\ TransactionBuilder.normalizeTypeName pkg
     = TransactionBuilder.normalizeAddress (package_of pkg) +++ "::undefined::undefined"
  /\ TransactionBuilder.normalizeTypeName
       (TransactionBuilder.normalizeTypeName (pkg +++ "::" +++ m +++ "::" +++ t))
     = TransactionBuilder.normalizeTypeName (pkg +++ "::" +++ m +++ "::" +++ t).
Proof.
  assert (Hthree : forall p, colon_free p = true ->
             TransactionBuilder.normalizeTypeName (p +++ "::" +++ m +++ "::" +++ t)
             = TransactionBuilder.normalizeAddress (package_of p)
               +++ "::" +++ m +++ "::" +++ t).
  { intros p Hp. unfold TransactionBuilder.normalizeTypeName.
    rewrite (split_three p m t Hp Hm Ht). reflexivity. }
  split; [now apply Hthree|]. split; [|split].
  - intros rest. rewrite (Hthree pkg Hpkg).
    unfold TransactionBuilder.normalizeTypeName.
    destruct (split_more pkg m t rest Hpkg Hm Ht) as [more ->]. reflexivity.
  - unfold TransactionBuilder.normalizeTypeName, JS.split.
    rewrite (split_last_segment pkg EmptyString Hpkg), append_nil_l. reflexivity.
  - rewrite (Hthree pkg Hpkg).
    assert (Hfree : colon_free (package_of pkg) = true).
    { unfold package_of. destruct (JS.startsWith "@" pkg);
        [now apply colon_free_slice|assumption]. }
    rewrite (Hthree _ (colon_free_normalized _ Hfree)).
    assert (Hat : package_of (TransactionBuilder.normalizeAddress (package_of pkg))
                  = TransactionBuilder.normalizeAddress (package_of pkg))
      by reflexivity.
    rewrite Hat, normalize_twice. reflexivity.
Qed.

Lemma normalizeTypeName_segments_witness :
  TransactionBuilder.normalizeTypeName "0x1::coin::CoinStore<0x1::aptos_coin::AptosCoin>"
  = TransactionBuilder.normalizeTypeName "0x1::coin::CoinStore<0x1"
  /\ TransactionBuilder.normalizeTypeName "0x1::coin::CoinStore<0x1"
     = canonical_address "1" +++ "::coin::CoinStore<0x1".
Proof.
  destruct (normalizeTypeName_segments "0x1" "coin" "CoinStore<0x1"
              eq_refl eq_refl eq_refl) as (H1 & H2 & _).
  split.
  - exact (H2 "aptos_coin::AptosCoin>").
  - exact H1.
Defined.

(** ** Input validation and the staking entry points *)

Section AddressArrays.

Import Validation.

Context (addressType : AddressType).

Lemma valid_is_truthy (a : string) : isValidAddress a = true -> truthy a = true.
Proof.
  unfold isValidAddress. destruct (truthy a); [reflexivity|discriminate].
Qed.

Lemma check_fold_throw (items : list (nat * string)) (x : exn) :
  fold_left (check_indexed addressType) items (Throw x) = Throw x.
Proof. induction items as [|i items IH]; [reflexivity|exact IH]. Qed.

Lemma check_step_valid (k : nat) (a : string) :
  isValidAddress a = true -> check_indexed addressType (Ok tt) (k, a) = Ok tt.
Proof.
  intros H. unfold check_indexed. cbn [bind snd].
  now rewrite (valid_is_truthy a H), H.
Qed.

Lemma check_step_invalid (k : nat) (a : string) :
  isValidAddress a = false ->
  check_indexed addressType (Ok tt) (k, a)
  = raise (offender_message addressType a k) (getErrorCodeForAddressType addressType).
Proof.
  intros H. unfold check_indexed, offender_message. cbn [bind snd fst].
  rewrite H. now destruct (truthy a).
Qed.

Lemma check_fold_valid (l : list string) (k : nat) :
  forallb isValidAddress l = true ->
  fold_left (check_indexed addressType) (combine (seq k (length l)) l) (Ok tt) = Ok tt.
Proof.
  revert k. induction l as [|a l IH]; intros k H; [reflexivity|].
  cbn [forallb] in H. apply andb_prop in H as [Ha Hl].
  cbn [length seq combine fold_left].
  rewrite (check_step_valid k a Ha). now apply IH.
Qed.

Lemma check_fold_offender (pre post : list string) (bad : string) (k : nat) :
  forallb isValidAddress pre = true ->
  isValidAddress bad = false ->
  fold_left (check_indexed addressType)
    (combine (seq k (length (pre ++ bad :: post))) (pre ++ bad :: post)) (Ok tt)
  = raise (offender_message addressType bad (k + length pre))
          (getErrorCodeForAddressType addressType).
Proof.
  revert k. induction pre as [|a pre IH]; intros k Hpre Hbad.
  - cbn [app length seq combine fold_left].
    rewrite (check_step_invalid k bad Hbad), Nat.add_0_r.
    apply check_fold_throw.
  - cbn [forallb] in Hpre. apply andb_prop in Hpre as [Ha Hpre].
    cbn [app length seq combine fold_left].
    rewrite (check_step_valid k a Ha), (IH (S k) Hpre Hbad).
    now rewrite Nat.add_succ_r.
Qed.

Lemma first_failure {A} (f : A -> bool) (l : list A) :
  forallb f l = false ->
  exists pre bad post,
    l = pre ++ bad :: post /\ forallb f pre = true /\ f bad = false.
Proof.
  induction l as [|a l IH]; [discriminate|].
  cbn [forallb]. destruct (f a) eqn:Ha.
  - cbn [andb]. intros H. destruct (IH H) as (pre & bad & post & -> & Hp & Hb).
    exists (a :: pre), bad, post. cbn [forallb]. now rewrite Ha, Hp.
  - intros _. exists [], a, l. now rewrite Ha.
Qed.

Lemma validateAddressArray_offender (pre post : list string) (bad : string) :
  forallb isValidAddress pre = true ->
  isValidAddress bad = false ->
  validateAddressArray (pre ++ bad :: post) addressType
  = raise (offender_message addressType bad (length pre))
          (getErrorCodeForAddressType addressType).
Proof.
  intros Hpre Hbad. unfold validateAddressArray.
  destruct (Nat.eqb_spec (length (pre ++ bad :: post)) 0) as [H0|_].
  - rewrite length_app in H0. cbn [length] in H0. lia.
  - now rewrite (check_fold_offender pre post bad 0 Hpre Hbad).
Qed.

Lemma validateAddressArray_cases (l : list string) :
  (l <> [] /\ forallb isValidAddress l = true
   /\ validateAddressArray l addressType = Ok tt)
  \/ ((l = [] \/ forallb isValidAddress l = false)
      /\ exists msg c,
           validateAddressArray l addressType = raise msg c
           /\ In c [INVALID_INPUT; getErrorCodeForAddressType addressType]).
Proof.
  destruct l as [|a l].
  - right. split; [now left|]. do 2 eexists. split; [reflexivity|]. now left.
  - destruct (forallb isValidAddress (a :: l)) eqn:Hall.
    + left. split; [discriminate|]. split; [reflexivity|].
      unfold validateAddressArray. cbn [length Nat.eqb].
      exact (check_fold_valid (a :: l) 0 Hall).
    + right. split; [now right|].
      destruct (first_failure _ _ Hall) as (pre & bad & post & -> & Hp & Hb).
      rewrite (validateAddressArray_offender pre post bad Hp Hb).
      do 2 eexists. split; [reflexivity|]. right. now left.
Qed.

End AddressArrays.

(** X16. [validateAddressArray] accepts exactly the non-empty lists whose
    addresses are all valid, and otherwise throws a Canopy error whose
    code is InvalidInput or the code of the address type. *)
Theorem validateAddressArray_accepts_iff (addresses : list string)
    (addressType : Validation.AddressType) :
  (Validation.validateAddressArray addresses addressType = Ok tt
   <-> addresses <> [] /\ forallb Validation.isValidAddress addresses = true)
  /\ throws_only
       [INVALID_INPUT; Validation.getErrorCodeForAddressType addressType]
       (Validation.validateAddressArray addresses addressType).
Proof.
  destruct (validateAddressArray_cases addressType addresses)
    as [(Hne & Hall & Hok)|[Hbad (msg & c & Hr & Hin)]].
  - split; [tauto|]. intros x Hx. rewrite Hok in Hx. discriminate.
  - split.
    + rewrite Hr. split; [discriminate|].
      intros [Hne Hall]. destruct Hbad as [He|Hf]; [contradiction|congruence].
    + intros x Hx. rewrite Hr in Hx. injection Hx as <-.
      eexists. split; [reflexivity|exact Hin].
Qed.

Lemma validateAddressArray_accepts_iff_witness :
  Validation.validateAddressArray
    ["0x1"; "3d871f7475a839376b5567de59807db876203c628f71c75dbeefdb60139a10f8";
     "0x0000d871f7475a839376b5567de59807db876203c628f71c75dbeefdb60139A1"]
    Validation.pool_t
  = Ok tt
  /\ Validation.validateAddressArray ["0x1"; "0xabc"] Validation.pool_t <> Ok tt
  /\ Validation.validateAddressArray ["0x10"] Validation.pool_t <> Ok tt.
Proof.
  split; [|split].
  - apply (proj1 (validateAddressArray_accepts_iff _ Validation.pool_t)).
    split; [discriminate|reflexivity].
  - intros H. apply (proj1 (validateAddressArray_accepts_iff _ Validation.pool_t)) in H.
    destruct H as [_ H]. discriminate H.
  - intros H. apply (proj1 (validateAddressArray_accepts_iff _ Validation.pool_t)) in H.
    destruct H as [_ H]. discriminate H.
Defined.

(** X17. The error of [validateAddressArray] names the first address that
    fails: its index in the message when it is a non-empty string, the
    "must be a string" message when it is empty; later addresses are not
    looked at. *)
Theorem validateAddressArray_reports_first (addressType : Validation.AddressType)
    (pre post : list string) (bad : string)
    (Hpre : forallb Validation.isValidAddress pre = true)
    (Hbad : Validation.isValidAddress bad = false) :
  Validation.validateAddressArray (pre ++ bad :: post) addressType
  = raise (offender_message addressType bad (length pre))
          (Validation.getErrorCodeForAddressType addressType)
  /\ forall post',
       Validation.validateAddressArray (pre ++ bad :: post') addressType
       = Validation.validateAddressArray (pre ++ bad :: post) addressType.
Proof.
  split.
  - now apply validateAddressArray_offender.
  - intros post'. now rewrite !validateAddressArray_offender.
Qed.

Lemma validateAddressArray_reports_first_witness :
  Validation.validateAddressArray ["0x1"; "0xzz"; "nope"] Validation.pool_t
  = raise "Invalid pool address format at index 1" INVALID_POOL_ADDRESS.
Proof.
  exact (proj1 (validateAddressArray_reports_first Validation.pool_t
                  ["0x1"] ["nope"] "0xzz" eq_refl eq_refl)).
Defined.

Section ClientChecks.

Context (abis : Abis) (c : CanopyClient.t).

Lemma validateVaultInputs_cases (vaultAddress : string) (amount : Z) (operation : string) :
  (Validation.isValidAddress vaultAddress = true /\ 0 < amount
   /\ Validation.validateVaultInputs vaultAddress amount operation = Ok tt)
  \/ ((Validation.isValidAddress vaultAddress = false \/ amount <= 0)
      /\ exists msg cd,
           Validation.validateVaultInputs vaultAddress amount operation = raise msg cd
           /\ In cd [INVALID_VAULT_ADDRESS; AMOUNT_TOO_SMALL]).
Proof.
  unfold Validation.validateVaultInputs, Validation.validateAddress,
    Validation.validateAmount.
  destruct (Validation.isValidAddress vaultAddress) eqn:Hv.
  - rewrite (valid_is_truthy _ Hv). cbn [negb bind].
    destruct (Z.leb_spec amount 0) as [Hn|Hn].
    + right. split; [now right|]. do 2 eexists. split; [reflexivity|]. right. now left.
    + left. now repeat split.
  - right. split; [now left|].
    destruct (truthy vaultAddress); cbn [negb];
      do 2 eexists; (split; [reflexivity|now left]).
Qed.

End ClientChecks.

(** X18. A deposit or withdrawal with an invalid vault address or an
    amount that is not positive is refused before the chain is asked
    anything: the result is the same on every chain, and it is an
    InvalidVaultAddress or AmountTooSmall error. *)
Theorem invalid_inputs_rejected_offline (abis : Abis) (c : CanopyClient.t)
    (vaultAddress : string) (amount : Z)
    (Hinvalid : Validation.isValidAddress vaultAddress = false \/ amount <= 0) :
  (forall W W',
      CanopyClient.deposit abis W c vaultAddress amount
      = CanopyClient.deposit abis W' c vaultAddress amount
      /\ CanopyClient.withdraw abis W c vaultAddress amount
         = CanopyClient.withdraw abis W' c vaultAddress amount)
  /\ (forall W,
        exists e e',
          CanopyClient.deposit abis W c vaultAddress amount = Throw (Canopy e)
          /\ CanopyClient.withdraw abis W c vaultAddress amount = Throw (Canopy e')
          /\ In (code e) [INVALID_VAULT_ADDRESS; AMOUNT_TOO_SMALL]
          /\ code e' = code e).
Proof.
  unfold CanopyClient.deposit, CanopyClient.withdraw.
  destruct (validateVaultInputs_cases vaultAddress amount "deposit")
    as [(Hv & Ha & _)|[_ (msg & cd & Hd & Hin)]].
  { destruct Hinvalid as [H|H]; [congruence|lia]. }
  destruct (validateVaultInputs_cases vaultAddress amount "withdraw")
    as [(Hv & Ha & _)|[_ (msg' & cd' & Hw & Hin')]].
  { destruct Hinvalid as [H|H]; [congruence|lia]. }
  rewrite Hd, Hw. split.
  - intros W W'. split; reflexivity.
  - intros W. do 2 eexists. split; [reflexivity|]. split; [reflexivity|].
    split; [exact Hin|]. cbn [code].
    revert Hd Hw. unfold Validation.validateVaultInputs, Validation.validateAddress,
      Validation.validateAmount.
    destruct (negb (truthy vaultAddress)).
    { intros Hd Hw. injection Hd as _ <-. injection Hw as _ <-. reflexivity. }
    destruct (negb (Validation.isValidAddress vaultAddress)).
    { intros Hd Hw. injection Hd as _ <-. injection Hw as _ <-. reflexivity. }
    cbn [bind]. destruct (amount <=? 0); [|discriminate].
    intros Hd Hw. injection Hd as _ <-. injection Hw as _ <-. reflexivity.
Qed.

Lemma invalid_inputs_rejected_offline_witness :
  CanopyClient.deposit sample_abis layerbank_world (CanopyClient.new None None)
    "0xV" 40
  = CanopyClient.deposit sample_abis shapeless_world (CanopyClient.new None None)
      "0xV" 40.
Proof.
  exact (proj1 (proj1 (invalid_inputs_rejected_offline sample_abis
                         (CanopyClient.new None None) "0xV" 40
                         (or_introl eq_refl))
                  layerbank_world shapeless_world)).
Defined.

(** ** Staking entry points *)

Section StakingEntryPoints.

Import StakingEntry.

Lemma check_each_ok (xs : list string) (msg : string) (c : CanopyErrorCode) :
  forallb well_prefixed xs = true -> check_each xs msg c = Ok tt.
Proof.
  induction xs as [|x xs IH]; [reflexivity|].
  cbn [forallb check_each]. intros H. apply andb_prop in H as [Hx Hxs].
  rewrite Hx. cbn [negb]. now apply IH.
Qed.

Lemma check_each_fails (xs : list string) (msg : string) (c : CanopyErrorCode) :
  forallb well_prefixed xs = false -> check_each xs msg c = raise msg c.
Proof.
  induction xs as [|x xs IH]; [discriminate|].
  cbn [forallb check_each]. destruct (well_prefixed x); cbn [negb andb];
    [exact IH|reflexivity].
Qed.

Lemma forallb_filter {A} (f g : A -> bool) (l : list A) :
  forallb f l = true -> forallb f (List.filter g l) = true.
Proof.
  induction l as [|a l IH]; [reflexivity|].
  cbn [forallb List.filter]. intros H. apply andb_prop in H as [Ha Hl].
  destruct (g a); cbn [forallb]; [rewrite Ha|]; now apply IH.
Qed.

Lemma pools_to_subscribe_prefixed (W : World) (user : option string)
    (poolIds : list string) :
  forallb well_prefixed poolIds = true ->
  forallb well_prefixed (pools_to_subscribe W user poolIds) = true.
Proof.
  intros H. unfold pools_to_subscribe.
  destruct user as [u|]; [|exact H].
  destruct (truthy u); [|exact H].
  rewrite unsubscribed_filter. now apply forallb_filter.
Qed.

Lemma resolve_explicit (W : World) (c : MultiRewardsClient.t) (token : string)
    (p : string) (ps : list string) :
  MultiRewardsClient.resolve_pool_ids W c token (Some (p :: ps))
  = (c, Ok (p :: ps)).
Proof. reflexivity. Qed.

Lemma stake_payload_pools (abis : Abis) (W : World) (token : string) (amount : Z)
    (user : option string) (poolIds : list string) :
  MultiRewardsClient.stake_payload abis W token amount user poolIds
  = match pools_to_subscribe W user poolIds with
    | q :: qs =>
        {| typeArguments := [];
           functionArguments :=
             [ AStr token; AStr (JS.toString amount); AStrs (q :: qs) ];
           function := MULTI_REWARDS_ROUTER_ABI_address abis
                       +++ "::router::stake_and_subscribe_fa" |}
    | [] =>
        {| typeArguments := [];
           functionArguments := [ AStr token; AStr (JS.toString amount) ];
           function := MULTI_REWARDS_ABI_address abis +++ "::multi_rewards::stake" |}
    end.
Proof.
  unfold MultiRewardsClient.stake_payload.
  change (match user with
          | Some u => if truthy u
                      then MultiRewardsClient.getUnsubscribedPools W u poolIds
                      else poolIds
          | None => poolIds
          end) with (pools_to_subscribe W user poolIds).
  now destruct (pools_to_subscribe W user poolIds).
Qed.

End StakingEntryPoints.

(** X19. [unstake] succeeds exactly when the token is a valid address
    that carries the [0x] prefix and the amount is positive, and what it
    then builds is always the fungible-asset withdrawal; a valid address
    written without the prefix passes validation and is refused
    afterwards by the withdrawal builder, as an invalid vault address. *)
Theorem unstake_succeeds_iff (abis : Abis) (c : CanopyClient.t)
    (token : string) (amount : Z) :
  (forall p,
      CanopyClient.unstake abis c token amount = Ok p
      <-> Validation.isValidAddress token = true
          /\ JS.startsWith "0x" token = true
          /\ 0 < amount
          /\ p = fa_withdraw_call abis token amount)
  /\ (Validation.isValidAddress token = true ->
      JS.startsWith "0x" token = false ->
      0 < amount ->
      Validation.validateAddress token Validation.token_t = Ok tt
      /\ CanopyClient.unstake abis c token amount
         = raise "Staking token address is required and must be in valid format (0x...)"
                 INVALID_VAULT_ADDRESS).
Proof.
  destruct (JS.includes "::" token) eqn:Hi.
  { rewrite (unstake_coin_branch_unreachable abis c token amount Hi).
    rewrite (coin_type_is_not_an_address token Hi).
    split; [|discriminate].
    intros p. split; [discriminate|]. now intros [H _]. }
  unfold CanopyClient.unstake, Validation.validateAddress, Validation.validateAmount,
    MultiRewardsClient.withdrawFa.
  rewrite Hi.
  destruct (Validation.isValidAddress token) eqn:Hv.
  2:{ split; [|discriminate].
      intros p. destruct (truthy token); cbn [negb bind];
        (split; [discriminate|now intros [H _]]). }
  rewrite (valid_is_truthy _ Hv). cbn [negb bind orb].
  destruct (Z.leb_spec amount 0) as [Hn|Hn]; cbn [bind].
  { split; [|intros _ _ H; lia].
    intros p. split; [discriminate|]. intros (_ & _ & H & _). lia. }
  destruct (JS.startsWith "0x" token); cbn [negb].
  - split; [|discriminate].
    intros p. destruct (Z.leb_spec amount 0) as [Hn'|_]; [lia|].
    unfold fa_withdraw_call. split.
    + intros H. injection H as <-. now repeat split.
    + intros (_ & _ & _ & ->). reflexivity.
  - split; [|now intros _ _ _].
    intros p. split; [discriminate|]. now intros (_ & H & _).
Qed.

Lemma unstake_succeeds_iff_witness :
  let token := "0x3d871f7475a839376b5567de59807db876203c628f71c75dbeefdb60139a10f8" in
  let c := CanopyClient.new None None in
  CanopyClient.unstake sample_abis c token 7 = Ok (fa_withdraw_call sample_abis token 7)
  /\ Validation.isValidAddress "a" = true
  /\ CanopyClient.unstake sample_abis c "a" 7
     = raise "Staking token address is required and must be in valid format (0x...)"
             INVALID_VAULT_ADDRESS.
Proof.
  cbv zeta.
  assert (Hamount : 0 < 7) by lia.
  split; [|split].
  - exact (proj2 (proj1 (unstake_succeeds_iff sample_abis (CanopyClient.new None None)
                           "0x3d871f7475a839376b5567de59807db876203c628f71c75dbeefdb60139a10f8"
                           7) _)
                 (conj eq_refl (conj eq_refl (conj Hamount eq_refl)))).
  - reflexivity.
  - exact (proj2 (proj2 (unstake_succeeds_iff sample_abis (CanopyClient.new None None)
                           "a" 7) eq_refl eq_refl Hamount)).
Defined.

(** X20. An explicitly empty list of pools makes the client's [stake]
    fail with InvalidInput, the client unchanged, although
    [stakeVaultShares] underneath treats an empty list exactly like an
    absent one and would fall back to the other pool sources. *)
Theorem stake_rejects_empty_pool_list (abis : Abis) (W : World)
    (c : CanopyClient.t) (token : string) (amount : Z) (user : option string)
    (Htoken : Validation.isValidAddress token = true)
    (Hamount : 0 < amount)
    (Huser : match user with
             | Some u => Validation.isValidAddress u = true
             | None => True
             end) :
  CanopyClient.stake abis W c token amount user (Some [])
  = (c, raise "At least one pool address is required" INVALID_INPUT)
  /\ MultiRewardsClient.stakeVaultShares abis W (CanopyClient.multiRewardsClient c)
       token amount user (Some [])
     = MultiRewardsClient.stakeVaultShares abis W (CanopyClient.multiRewardsClient c)
         token amount user None
  /\ (CanopyClient.stake abis W c token amount user None).2
     = (MultiRewardsClient.stakeVaultShares abis W (CanopyClient.multiRewardsClient c)
          token amount user None).2.
Proof.
  assert (Hchecks : forall pools,
             CanopyClient.stake_checks token amount user pools
             = match pools with
               | Some ps => Validation.validateAddressArray ps Validation.pool_t
               | None => Ok tt
               end).
  { intros pools. unfold CanopyClient.stake_checks, Validation.validateAddress,
      Validation.validateAmount.
    rewrite Htoken, (valid_is_truthy _ Htoken). cbn [negb bind].
    destruct (Z.leb_spec amount 0) as [|_]; [lia|]. cbn [bind].
    destruct user as [u|]; [|reflexivity].
    rewrite Huser, (valid_is_truthy _ Huser). reflexivity. }
  unfold CanopyClient.stake. rewrite !Hchecks.
  split; [|split]; reflexivity.
Qed.

Lemma stake_rejects_empty_pool_list_witness :
  let token := "0x3d871f7475a839376b5567de59807db876203c628f71c75dbeefdb60139a10f8" in
  let user := "0x7bf3653bf8b02d19b56916daaf959b95b4564ecd35d9abdb323d0690d5fdd0e7" in
  CanopyClient.stake sample_abis layerbank_world (CanopyClient.new None None)
    token 5 (Some user) (Some [])
  = (CanopyClient.new None None,
     raise "At least one pool address is required" INVALID_INPUT).
Proof.
  cbv zeta.
  assert (Hamount : 0 < 5) by lia.
  exact (proj1 (stake_rejects_empty_pool_list sample_abis layerbank_world
                  (CanopyClient.new None None)
                  "0x3d871f7475a839376b5567de59807db876203c628f71c75dbeefdb60139a10f8"
                  5
                  (Some "0x7bf3653bf8b02d19b56916daaf959b95b4564ecd35d9abdb323d0690d5fdd0e7")
                  eq_refl Hamount eq_refl)).
Defined.

(** X21. With explicit pools that all carry the [0x] prefix,
    [stakeVaultShares] builds what [stakeFa] builds for the pools the
    user has not joined yet; the two agree on every error as well, and
    the client is left as it was. *)
Theorem stakeVaultShares_is_stakeFa (abis : Abis) (W : World)
    (c : MultiRewardsClient.t) (token : string) (amount : Z)
    (user : option string) (p : string) (ps : list string)
    (Hpools : forallb StakingEntry.well_prefixed (p :: ps) = true) :
  MultiRewardsClient.stakeVaultShares abis W c token amount user (Some (p :: ps))
  = (c, StakingEntry.stakeFa abis token amount
          (Some (pools_to_subscribe W user (p :: ps)))).
Proof.
  unfold MultiRewardsClient.stakeVaultShares, StakingEntry.stakeFa.
  destruct (negb (truthy token)); [reflexivity|].
  destruct (negb (JS.startsWith "0x" token)); [reflexivity|].
  destruct (amount <=? 0); [reflexivity|].
  rewrite resolve_explicit. cbn [fst snd bind try_catch]. f_equal.
  rewrite stake_payload_pools.
  pose proof (pools_to_subscribe_prefixed W user (p :: ps) Hpools) as Hsub.
  destruct (pools_to_subscribe W user (p :: ps)) as [|q qs]; [reflexivity|].
  now rewrite (check_each_ok _ _ _ Hsub).
Qed.

Lemma stakeVaultShares_is_stakeFa_witness :
  (MultiRewardsClient.stakeVaultShares sample_abis staking_world
     (MultiRewardsClient.new None) "0xabc" 5 None (Some ["0xP1"; "0xP2"])).2
  = StakingEntry.stakeFa sample_abis "0xabc" 5 (Some ["0xP1"; "0xP2"]).
Proof.
  rewrite (stakeVaultShares_is_stakeFa sample_abis staking_world
             (MultiRewardsClient.new None) "0xabc" 5 None
             "0xP1" ["0xP2"] eq_refl).
  reflexivity.
Defined.

(** X22. [stakeVaultShares] never looks at the format of the pools it is
    given: where [stakeFa] refuses a list with a pool that lacks the [0x]
    prefix, [stakeVaultShares] without a user address builds the
    subscription call with that very list. *)
Theorem stakeVaultShares_skips_pool_format (abis : Abis) (W : World)
    (c : MultiRewardsClient.t) (token : string) (amount : Z)
    (p : string) (ps : list string)
    (Htoken : StakingEntry.well_prefixed token = true)
    (Hamount : 0 < amount)
    (Hbad : forallb StakingEntry.well_prefixed (p :: ps) = false) :
  StakingEntry.stakeFa abis token amount (Some (p :: ps))
  = raise "Invalid pool address format" INVALID_POOL_ADDRESS
  /\ MultiRewardsClient.stakeVaultShares abis W c token amount None (Some (p :: ps))
     = (c, Ok {| typeArguments := [];
                 functionArguments :=
                   [ AStr token; AStr (JS.toString amount); AStrs (p :: ps) ];
                 function := MULTI_REWARDS_ROUTER_ABI_address abis
                             +++ "::router::stake_and_subscribe_fa" |}).
Proof.
  unfold StakingEntry.well_prefixed in Htoken.
  apply andb_prop in Htoken as [Ht Hp].
  unfold MultiRewardsClient.stakeVaultShares, StakingEntry.stakeFa.
  rewrite Ht, Hp. cbn [negb].
  destruct (Z.leb_spec amount 0) as [|_]; [lia|].
  split.
  - now rewrite (check_each_fails _ _ _ Hbad).
  - reflexivity.
Qed.

Lemma stakeVaultShares_skips_pool_format_witness :
  StakingEntry.stakeFa sample_abis "0xabc" 5 (Some ["0xP1"; "P2"])
  = raise "Invalid pool address format" INVALID_POOL_ADDRESS
  /\ thrown_code
       (MultiRewardsClient.stakeVaultShares sample_abis staking_world
          (MultiRewardsClient.new None) "0xabc" 5 None
          (Some ["0xP1"; "P2"])).2 = None.
Proof.
  assert (Hamount : 0 < 5) by lia.
  destruct (stakeVaultShares_skips_pool_format sample_abis staking_world
              (MultiRewardsClient.new None) "0xabc" 5
              "0xP1" ["P2"] eq_refl Hamount eq_refl) as [Hfa Hvs].
  split; [exact Hfa|]. rewrite Hvs. reflexivity.
Defined.

(** X23. The client's [claimRewards] succeeds exactly for a non-empty list
    of tokens that are all valid addresses and all carry the [0x] prefix;
    the payload is then the claim call over the list as given. *)
Theorem claimRewards_succeeds_iff (abis : Abis) (stakingTokens : list string)
    (p : InputEntryFunctionData) :
  ClientStaking.claimRewards abis stakingTokens = Ok p
  <-> stakingTokens <> []
      /\ forallb Validation.isValidAddress stakingTokens = true
      /\ forallb StakingEntry.well_prefixed stakingTokens = true
      /\ p = claim_call abis stakingTokens.
Proof.
  unfold ClientStaking.claimRewards.
  destruct (validateAddressArray_cases Validation.token_t stakingTokens)
    as [(Hne & Hall & Hok)|[Hbad (msg & cd & Hr & _)]].
  - rewrite Hok. cbn [bind]. unfold StakingEntry.claimRewards.
    destruct stakingTokens as [|t ts]; [contradiction|].
    cbn [length Nat.eqb].
    destruct (forallb StakingEntry.well_prefixed (t :: ts)) eqn:Hw.
    + rewrite (check_each_ok _ _ _ Hw). cbn [bind]. unfold claim_call. split.
      * intros H. injection H as <-. now repeat split.
      * intros (_ & _ & _ & ->). reflexivity.
    + rewrite (check_each_fails _ _ _ Hw). cbn [bind].
      split; [discriminate|]. intros (_ & _ & H & _). discriminate.
  - rewrite Hr. cbn [bind]. split; [discriminate|].
    intros (Hne & Hall & _). destruct Hbad as [He|Hf]; [contradiction|congruence].
Qed.

Lemma claimRewards_succeeds_iff_witness :
  let token := "0x3d871f7475a839376b5567de59807db876203c628f71c75dbeefdb60139a10f8" in
  ClientStaking.claimRewards sample_abis [token; "0x1"]
  = Ok (claim_call sample_abis [token; "0x1"])
  /\ ClientStaking.claimRewards sample_abis ["0xabc"] <> Ok (claim_call sample_abis ["0xabc"])
  /\ ClientStaking.claimRewards sample_abis ["a"] <> Ok (claim_call sample_abis ["a"]).
Proof.
  cbv zeta. split; [|split].
  - apply (proj2 (claimRewards_succeeds_iff sample_abis _ _)).
    split; [discriminate|]. split; [reflexivity|]. split; reflexivity.
  - intros H. apply (proj1 (claimRewards_succeeds_iff sample_abis _ _)) in H.
    destruct H as (_ & H & _). discriminate H.
  - intros H. apply (proj1 (claimRewards_succeeds_iff sample_abis _ _)) in H.
    destruct H as (_ & _ & H & _). discriminate H.
Defined.

(** ** The staking position *)

Section StakingPosition.

Import StakingViews.

Context (S : StakingChain) (userAddress : string).

Lemma collect_rewards_prefix (pool : string) (rewardToks : list string)
    (pending : list PendingReward) :
  (collect_rewards S userAddress pool rewardToks pending).1
  = pending ++ omap (earned_reward S userAddress pool)
                    (answered_prefix S userAddress pool rewardToks).
Proof.
  revert pending. induction rewardToks as [|tok rest IH]; intros pending.
  - cbn [collect_rewards answered_prefix omap fst]. now rewrite app_nil_r.
  - cbn [collect_rewards answered_prefix]. unfold getUserEarned.
    destruct (get_earned S userAddress pool tok) as [earned|] eqn:He.
    + rewrite IH. cbn [omap list_omap]. unfold earned_reward at 2. rewrite He.
      destruct (String.eqb earned "0"); cbn [negb]; [reflexivity|].
      now rewrite <- app_assoc.
    + cbn [fst omap list_omap]. now rewrite app_nil_r.
Qed.

Lemma collect_pool_rewards (pending : list PendingReward) (pool : string) :
  collect_pool S userAddress pending pool
  = pending ++ pool_rewards S userAddress pool.
Proof.
  unfold collect_pool, getPoolInfo, pool_rewards.
  destruct (get_pool_info S pool) as [[[stakingTok rewardToks] total]|].
  - cbn [rewardTokens]. apply collect_rewards_prefix.
  - now rewrite app_nil_r.
Qed.

Lemma collect_pools (pools : list string) (pending : list PendingReward) :
  fold_left (collect_pool S userAddress) pools pending
  = pending ++ concat (map (pool_rewards S userAddress) pools).
Proof.
  revert pending. induction pools as [|pool pools IH]; intros pending.
  - cbn [fold_left map concat]. now rewrite app_nil_r.
  - cbn [fold_left map concat]. rewrite IH, collect_pool_rewards.
    now rewrite <- app_assoc.
Qed.

Lemma position_cases (stakingToken : string) :
  (exists balance pools,
      get_user_staked_balance S userAddress stakingToken = Some balance
      /\ get_user_subscribed_pools S userAddress stakingToken = Some pools
      /\ getUserStakingPosition S userAddress stakingToken
         = Ok {| position_stakingToken := stakingToken;
                 totalStaked := balance;
                 subscribedPools := items_or_empty pools;
                 pendingRewards :=
                   concat (map (pool_rewards S userAddress) (items_or_empty pools)) |})
  \/ ((get_user_staked_balance S userAddress stakingToken = None
       \/ get_user_subscribed_pools S userAddress stakingToken = None)
      /\ getUserStakingPosition S userAddress stakingToken
         = raise "Failed to get user staking position" NETWORK_ERROR).
Proof.
  unfold getUserStakingPosition, getUserStakedBalance, getUserSubscribedPools.
  destruct (get_user_staked_balance S userAddress stakingToken) as [balance|].
  - destruct (get_user_subscribed_pools S userAddress stakingToken) as [pools|].
    + left. exists balance, pools. split; [reflexivity|]. split; [reflexivity|].
      cbn [bind try_catch]. now rewrite collect_pools.
    + right. split; [now right|reflexivity].
  - right. split; [now left|reflexivity].
Qed.

End StakingPosition.

(** X24. [getUserStakingPosition] fails only when the balance view or the
    subscribed-pools view fails, and then always with the same
    NetworkError message; a pool whose information or rewards cannot be
    read never makes the call fail. *)
Theorem staking_position_fails_iff (S : StakingChain)
    (userAddress stakingToken : string) :
  ((exists x, StakingViews.getUserStakingPosition S userAddress stakingToken = Throw x)
   <-> get_user_staked_balance S userAddress stakingToken = None
       \/ get_user_subscribed_pools S userAddress stakingToken = None)
  /\ (forall x,
        StakingViews.getUserStakingPosition S userAddress stakingToken = Throw x ->
        x = Canopy (mkCanopyError "Failed to get user staking position" NETWORK_ERROR))
  /\ (forall S',
        get_user_staked_balance S' = get_user_staked_balance S ->
        get_user_subscribed_pools S' = get_user_subscribed_pools S ->
        thrown_code (StakingViews.getUserStakingPosition S' userAddress stakingToken)
        = thrown_code (StakingViews.getUserStakingPosition S userAddress stakingToken)).
Proof.
  assert (Hcode : forall T,
             thrown_code (StakingViews.getUserStakingPosition T userAddress stakingToken)
             = match get_user_staked_balance T userAddress stakingToken,
                     get_user_subscribed_pools T userAddress stakingToken with
               | Some _, Some _ => None
               | _, _ => Some NETWORK_ERROR
               end).
  { intros T.
    destruct (position_cases T userAddress stakingToken)
      as [(b & ps & Hb & Hp & Hr)|[[Hb|Hp] Hr]]; rewrite Hr.
    - now rewrite Hb, Hp.
    - now rewrite Hb.
    - rewrite Hp. now destruct (get_user_staked_balance T userAddress stakingToken). }
  destruct (position_cases S userAddress stakingToken)
    as [(b & ps & Hb & Hp & Hr)|[Hnone Hr]].
  - split; [|split].
    + rewrite Hr, Hb, Hp. split; [intros [x Hx]; discriminate|].
      intros [H|H]; discriminate.
    + intros x Hx. rewrite Hr in Hx. discriminate.
    + intros S' Hsb Hsp. rewrite !Hcode, Hsb, Hsp. reflexivity.
  - split; [|split].
    + rewrite Hr. split; [now intros _|]. intros _. eexists. reflexivity.
    + intros x Hx. rewrite Hr in Hx. now injection Hx as <-.
    + intros S' Hsb Hsp. rewrite !Hcode, Hsb, Hsp. reflexivity.
Qed.

(** X25. The pending rewards of a staking position are, pool by pool in
    the order of the subscribed pools, the rewards of the pool's tokens
    read before the first failing [get_earned], without the ones equal to
    ["0"]: a pool whose information cannot be read contributes nothing,
    and a failure in the middle of a pool keeps what was read before. *)
Theorem staking_position_rewards (S : StakingChain)
    (userAddress stakingToken : string) (position : UserStakingPosition)
    (Hposition : StakingViews.getUserStakingPosition S userAddress stakingToken
                 = Ok position) :
  pendingRewards position
  = concat (map (pool_rewards S userAddress) (subscribedPools position))
  /\ (forall r, In r (pendingRewards position) ->
        In (reward_poolAddress r) (subscribedPools position)
        /\ reward_amount r <> "0"
        /\ get_earned S userAddress (reward_poolAddress r) (rewardToken r)
           = Some (reward_amount r)).
Proof.
  destruct (position_cases S userAddress stakingToken)
    as [(b & ps & _ & _ & Hr)|[_ Hr]]; rewrite Hr in Hposition; [|discriminate].
  injection Hposition as <-. cbn [pendingRewards subscribedPools].
  split; [reflexivity|].
  intros r Hin. apply in_concat in Hin as (rs & Hrs & Hin).
  apply in_map_iff in Hrs as (pool & <- & Hpool).
  unfold pool_rewards in Hin.
  destruct (get_pool_info S pool) as [[[st toks] total]|]; [|contradiction].
  apply list_elem_of_In, list_elem_of_omap in Hin as (tok & _ & He).
  unfold earned_reward in He.
  destruct (get_earned S userAddress pool tok) as [earned|] eqn:Hearned;
    [|discriminate].
  destruct (String.eqb_spec earned "0") as [|Hne]; [discriminate|].
  injection He as <-. cbn [reward_poolAddress reward_amount rewardToken].
  now repeat split.
Qed.

Lemma staking_position_rewards_witness :
  exists position,
    StakingViews.getUserStakingPosition sample_staking_chain "0xU" "0xT" = Ok position
    /\ pendingRewards position
       = [ {| reward_poolAddress := "0xP1"; rewardToken := "0xR1"; reward_amount := "5" |};
           {| reward_poolAddress := "0xP1"; rewardToken := "0xR2"; reward_amount := "5" |};
           {| reward_poolAddress := "0xP2"; rewardToken := "0xR1"; reward_amount := "5" |} ].
Proof.
  eexists. split; [reflexivity|].
  rewrite (proj1 (staking_position_rewards sample_staking_chain "0xU" "0xT" _ eq_refl)).
  reflexivity.
Defined.

(** ** Scaling back and forth *)

Section ScalingBack.

Lemma slice_join (k : nat) (s : string) : JS.slice_to k s +++ JS.slice_from k s = s.
Proof.
  revert s. induction k as [|k IH]; intros [|c s]; try reflexivity.
  cbn [JS.slice_to JS.slice_from]. now rewrite append_cons, IH.
Qed.

Lemma length_slice_to (k : nat) (s : string) :
  (k <= String.length s)%nat -> String.length (JS.slice_to k s) = k.
Proof.
  revert s. induction k as [|k IH]; intros [|c s] H; try reflexivity.
  - simpl in H. lia.
  - simpl in *. rewrite IH; lia.
Qed.

Lemma all_digits_parts (a b : string) :
  all_digits (a +++ b) = true -> all_digits a = true /\ all_digits b = true.
Proof.
  induction a as [|c a IH]; [now rewrite append_nil_l|].
  rewrite append_cons. cbn [all_digits]. intros H.
  apply andb_prop in H as [Hc H]. destruct (IH H) as [Ha Hb].
  now rewrite Hc, Ha.
Qed.

Lemma strip_decompose (f : string) :
  f = JS.strip_trailing_zeros f
      +++ JS.repeat_char "0"
            (String.length f - String.length (JS.strip_trailing_zeros f)).
Proof.
  induction f as [|c f IH]; [reflexivity|].
  cbn [JS.strip_trailing_zeros].
  destruct (JS.strip_trailing_zeros f) as [|t ts] eqn:Hs.
  - rewrite append_nil_l in IH. cbn [String.length] in IH.
    rewrite Nat.sub_0_r in IH.
    destruct (Ascii.eqb_spec c "0") as [->|_].
    + rewrite append_nil_l. cbn [String.length]. rewrite Nat.sub_0_r.
      cbn [JS.repeat_char]. now rewrite <- IH.
    + rewrite append_cons, append_nil_l. cbn [String.length].
      replace (S (String.length f) - 1)%nat with (String.length f) by lia.
      now rewrite <- IH.
  - rewrite append_cons. cbn [String.length].
    replace (S (String.length f) - S (S (String.length ts)))%nat
      with (String.length f - String.length (String t ts))%nat
      by (cbn [String.length]; lia).
    now rewrite <- IH.
Qed.

Lemma length_strip (f : string) :
  (String.length (JS.strip_trailing_zeros f) <= String.length f)%nat.
Proof.
  pose proof (f_equal String.length (strip_decompose f)) as H.
  rewrite length_append, length_repeat in H. lia.
Qed.

Lemma all_digits_of_uint (u : Decimal.uint) :
  all_digits (NilEmpty.string_of_uint u) = true.
Proof. induction u; simpl; auto. Qed.

Lemma string_of_unorm_plain (u : Decimal.uint) :
  NilZero.string_of_uint (Decimal.unorm u)
  = NilEmpty.string_of_uint (Decimal.unorm u).
Proof. unfold Decimal.unorm. now destruct (Decimal.nzhead u). Qed.

Lemma toString_of_uint (n : Z) :
  0 <= n ->
  exists u, JS.toString n = NilEmpty.string_of_uint u /\ Z.of_N (N.of_uint u) = n.
Proof.
  intros Hn. exists (N.to_uint (Z.to_N n)). split.
  - unfold JS.toString. rewrite <- (Z2N.id n Hn) at 1. rewrite to_int_of_N.
    cbn [NilZero.string_of_int].
    rewrite <- (DecimalN.Unsigned.of_to (Z.to_N n)) at 1.
    rewrite DecimalN.Unsigned.to_of, string_of_unorm_plain.
    now rewrite <- DecimalN.Unsigned.to_of, DecimalN.Unsigned.of_to.
  - rewrite DecimalN.Unsigned.of_to. now apply Z2N.id.
Qed.

Lemma zeros_before_digits (u : Decimal.uint) (j : nat) :
  exists v,
    NilEmpty.uint_of_string (JS.repeat_char "0" j +++ NilEmpty.string_of_uint u)
    = Some v
    /\ N.of_uint v = N.of_uint u.
Proof.
  induction j as [|j (v & Hv & Hval)].
  - exists u. rewrite append_nil_l. split; [apply NilEmpty.usu|reflexivity].
  - exists (Decimal.D0 v). cbn [JS.repeat_char]. rewrite append_cons.
    cbn [NilEmpty.uint_of_string]. rewrite Hv. split; [reflexivity|exact Hval].
Qed.

Lemma all_digits_padded (n : Z) (k : nat) :
  0 <= n -> all_digits (JS.padStart k "0" (JS.toString n)) = true.
Proof.
  intros Hn. destruct (toString_of_uint n Hn) as (u & Hu & _).
  unfold JS.padStart. apply all_digits_append; [apply all_digits_zeros|].
  rewrite Hu. apply all_digits_of_uint.
Qed.

Lemma BigInt_padded (n : Z) (k : nat) :
  0 <= n -> JS.BigInt (JS.padStart k "0" (JS.toString n)) = Some n.
Proof.
  intros Hn. rewrite (BigInt_of_digits _ (all_digits_padded n k Hn)).
  destruct (toString_of_uint n Hn) as (u & Hu & Hval).
  unfold JS.padStart. rewrite Hu.
  destruct (zeros_before_digits u (k - String.length (NilEmpty.string_of_uint u)))
    as (v & -> & Hv).
  now rewrite Hv, Hval.
Qed.

(** Scaling the printed form [whole.fraction] of a digit string cut at
    [d] digits from the right reads the digit string back. *)
Lemma scaleToDecimals_stripped (w f : string) :
  all_digits w = true -> all_digits f = true ->
  Utils.scaleToDecimals (stripped w f) (String.length f)
  = match JS.BigInt (w +++ f) with
    | Some n => Ok n
    | None => Throw (Native "SyntaxError")
    end.
Proof.
  intros Hw Hf. unfold Utils.scaleToDecimals, stripped.
  pose proof (strip_decompose f) as Hdec.
  pose proof (length_strip f) as Hlen.
  destruct (JS.strip_trailing_zeros f) as [|t ts] eqn:Hs.
  - unfold JS.split. rewrite (split_digits w EmptyString Hw), append_nil_l.
    cbn [lookup list_lookup default option_map from_option id].
    rewrite (padded_fraction EmptyString (String.length f)) by (simpl; lia).
    cbn [JS.strip_trailing_zeros String.length]. rewrite append_nil_l, Nat.sub_0_r.
    rewrite append_nil_l in Hdec. cbn [String.length] in Hdec.
    rewrite Nat.sub_0_r in Hdec. now rewrite <- Hdec.
  - assert (Ht : all_digits (String t ts) = true).
    { rewrite <- Hs. now apply all_digits_strip. }
    unfold JS.split. rewrite (split_at_point w (String t ts) EmptyString Hw Ht).
    rewrite append_nil_l.
    cbn [lookup list_lookup default option_map from_option id].
    assert (Hidem : JS.strip_trailing_zeros (String t ts) = String t ts).
    { rewrite <- Hs. apply strip_idempotent. }
    rewrite (padded_fraction (String t ts) (String.length f))
      by (rewrite Hidem; exact Hlen).
    rewrite Hidem. now rewrite <- Hdec.
Qed.

End ScalingBack.

(** X26. Printing a non-negative amount with [scaleFromDecimals] and
    reading it back with [scaleToDecimals] at the same number of decimals
    gives the amount again, for every number of decimals. *)
Theorem scale_back_and_forth (n : Z) (d : nat) (Hn : 0 <= n) :
  Utils.scaleToDecimals (Utils.scaleFromDecimals n d) d = Ok n.
Proof.
  pose proof (BigInt_padded n (d + 1) Hn) as Hbig.
  pose proof (all_digits_padded n (d + 1) Hn) as Hdigits.
  assert (Hlong : (d + 1 <= String.length (JS.padStart (d + 1) "0" (JS.toString n)))%nat).
  { rewrite length_padStart. lia. }
  unfold Utils.scaleFromDecimals.
  set (str := JS.padStart (d + 1) "0" (JS.toString n)) in *.
  set (k := (String.length str - d)%nat).
  pose proof (slice_join k str) as Hjoin.
  assert (Hk : String.length (JS.slice_to k str) = k)
    by (apply length_slice_to; unfold k; lia).
  assert (Hf : String.length (JS.slice_from k str) = d).
  { pose proof (f_equal String.length Hjoin) as H.
    rewrite length_append, Hk in H. unfold k in *. lia. }
  rewrite <- Hjoin in Hdigits, Hbig.
  destruct (all_digits_parts _ _ Hdigits) as [Hw Hfd].
  assert (Htruthy : truthy (JS.slice_to k str) = true).
  { destruct (JS.slice_to k str); [simpl in Hk; unfold k in Hk; lia|reflexivity]. }
  rewrite Htruthy.
  pose proof (scaleToDecimals_stripped _ _ Hw Hfd) as Hscale.
  rewrite Hf, Hbig in Hscale. rewrite <- Hscale. f_equal.
  unfold stripped, truthy.
  now destruct (JS.strip_trailing_zeros (JS.slice_from k str)).
Qed.

Lemma scale_back_and_forth_witness :
  Utils.scaleFromDecimals 1500 6 = "0.0015"
  /\ Utils.scaleToDecimals "0.0015" 6 = Ok 1500.
Proof.
  assert (Hn : 0 <= 1500) by lia.
  split; [reflexivity|].
  exact (scale_back_and_forth 1500 6 Hn).
Defined.

(** ** The GraphQL caches *)

Section PoolCache.

Import MultiRewardsGQLClient.

Context (server : string -> GraphQLRequest -> Reply (list MRStakingPool)).

Lemma fetch_cached_cases (c : t) (key : string) (request : GraphQLRequest)
    (now later : Z) :
  (exists e, cache c !! key = Some e
             /\ now - cached_timestamp e < cacheTimeout c
             /\ fetch_cached c key request server now later = (c, Ok (cached_data e)))
  \/ ((cache c !! key = None
       \/ exists e, cache c !! key = Some e
                    /\ cacheTimeout c <= now - cached_timestamp e)
      /\ ((exists pools,
              server (endpoint c) request = Data pools
              /\ fetch_cached c key request server now later
                 = ({| endpoint := endpoint c;
                       apiKey := apiKey c;
                       cache := <[key := {| cached_data := pools;
                                            cached_timestamp := later |}]> (cache c);
                       cacheTimeout := cacheTimeout c |}, Ok pools))
          \/ (server (endpoint c) request = NoData
              /\ fetch_cached c key request server now later = (c, Ok []))
          \/ (fetch_cached c key request server now later = (c, Throw fetch_failure)))).
Proof.
  unfold fetch_cached.
  assert (Hconsult :
    (exists pools,
        server (endpoint c) request = Data pools
        /\ match server (endpoint c) request with
           | Data pools =>
               ({| endpoint := endpoint c;
                   apiKey := apiKey c;
                   cache := <[key := {| cached_data := pools;
                                        cached_timestamp := later |}]> (cache c);
                   cacheTimeout := cacheTimeout c |}, Ok pools)
           | NoData => (c, Ok [])
           | _ => (c, raise FAILED_TO_FETCH_METADATA NETWORK_ERROR)
           end
           = ({| endpoint := endpoint c;
                 apiKey := apiKey c;
                 cache := <[key := {| cached_data := pools;
                                      cached_timestamp := later |}]> (cache c);
                 cacheTimeout := cacheTimeout c |}, Ok pools))
    \/ (server (endpoint c) request = NoData
        /\ match server (endpoint c) request with
           | Data pools =>
               ({| endpoint := endpoint c;
                   apiKey := apiKey c;
                   cache := <[key := {| cached_data := pools;
                                        cached_timestamp := later |}]> (cache c);
                   cacheTimeout := cacheTimeout c |}, Ok pools)
           | NoData => (c, Ok [])
           | _ => (c, raise FAILED_TO_FETCH_METADATA NETWORK_ERROR)
           end = (c, Ok []))
    \/ match server (endpoint c) request with
       | Data pools =>
           ({| endpoint := endpoint c;
               apiKey := apiKey c;
               cache := <[key := {| cached_data := pools;
                                    cached_timestamp := later |}]> (cache c);
               cacheTimeout := cacheTimeout c |}, Ok pools)
       | NoData => (c, Ok [])
       | _ => (c, raise FAILED_TO_FETCH_METADATA NETWORK_ERROR)
       end = (c, Throw fetch_failure)).
  { destruct (server (endpoint c) request) as [| | | |pools].
    - right. right. reflexivity.
    - right. right. reflexivity.
    - right. right. reflexivity.
    - right. left. split; reflexivity.
    - left. exists pools. split; reflexivity. }
  destruct (cache c !! key) as [e|].
  - destruct (Z.ltb_spec (now - cached_timestamp e) (cacheTimeout c)) as [Hf|Hs].
    + left. exists e. repeat split. exact Hf.
    + right. split; [right; exists e; split; [reflexivity|exact Hs]|exact Hconsult].
  - right. split; [now left|exact Hconsult].
Qed.

End PoolCache.

(** X27. A call of [fetchStakingPoolsByToken] never touches the endpoint,
    the API key, the timeout or the cache entries of other keys; when it
    throws, the error is the NetworkError of the GraphQL clients and the
    client is unchanged, so a failure neither evicts an entry nor is
    answered from a stale one. *)
Theorem pool_cache_frame (c : MultiRewardsGQLClient.t) (stakingToken : string)
    (server : string -> GraphQLRequest -> Reply (list MRStakingPool))
    (now later : Z) :
  let out :=
    MultiRewardsGQLClient.fetchStakingPoolsByToken c stakingToken server now later in
  MultiRewardsGQLClient.endpoint out.1 = MultiRewardsGQLClient.endpoint c
  /\ MultiRewardsGQLClient.apiKey out.1 = MultiRewardsGQLClient.apiKey c
  /\ MultiRewardsGQLClient.cacheTimeout out.1 = MultiRewardsGQLClient.cacheTimeout c
  /\ (forall k, k <> pool_key stakingToken ->
        MultiRewardsGQLClient.cache out.1 !! k = MultiRewardsGQLClient.cache c !! k)
  /\ (forall x, out.2 = Throw x -> x = fetch_failure /\ out.1 = c)
  /\ (out.1 <> c ->
      exists pools,
        server (MultiRewardsGQLClient.endpoint c) (pools_request c stakingToken)
        = Data pools
        /\ out.2 = Ok pools
        /\ MultiRewardsGQLClient.cache out.1 !! pool_key stakingToken
           = Some {| cached_data := pools; cached_timestamp := later |}).
Proof.
  cbv zeta. unfold MultiRewardsGQLClient.fetchStakingPoolsByToken.
  change ("pools-" +++ JS.toLowerCase stakingToken) with (pool_key stakingToken).
  change {| operationName := "GetMRStakingPoolsByToken";
            variables := Some stakingToken;
            api_key_header := MultiRewardsGQLClient.api_key_of c |}
    with (pools_request c stakingToken).
  destruct (fetch_cached_cases server c (pool_key stakingToken)
              (pools_request c stakingToken) now later)
    as [(e & _ & _ & ->)|[_ [(pools & Hs & ->)|[[_ ->]| ->]]]];
    cbn [fst snd MultiRewardsGQLClient.endpoint MultiRewardsGQLClient.apiKey
         MultiRewardsGQLClient.cacheTimeout MultiRewardsGQLClient.cache].
  - repeat split; try discriminate; try congruence.
  - repeat split; try discriminate.
    + intros k Hk. now rewrite lookup_insert_ne.
    + intros _. exists pools. split; [exact Hs|]. split; [reflexivity|].
      now rewrite lookup_insert_eq.
  - repeat split; try discriminate; try congruence.
  - repeat split; try congruence.
Qed.

(** X28. Once the pools of a token have been fetched, every spelling of
    the token that differs only in letter case is answered from the
    cache, without asking the server, as long as less than the timeout
    has passed since the answer was stored; from then on the result is
    what a client without the entry would return. *)
Theorem pool_cache_serves_fresh_answers (c : MultiRewardsGQLClient.t)
    (stakingToken : string)
    (server : string -> GraphQLRequest -> Reply (list MRStakingPool))
    (now later : Z) (pools : list MRStakingPool)
    (Hmiss : MultiRewardsGQLClient.cache c !! pool_key stakingToken = None)
    (Hreply : server (MultiRewardsGQLClient.endpoint c) (pools_request c stakingToken)
              = Data pools) :
  let first :=
    MultiRewardsGQLClient.fetchStakingPoolsByToken c stakingToken server now later in
  first.2 = Ok pools
  /\ forall spelling server' now' later',
       JS.toLowerCase spelling = JS.toLowerCase stakingToken ->
       (now' - later < MultiRewardsGQLClient.cacheTimeout c ->
        MultiRewardsGQLClient.fetchStakingPoolsByToken first.1 spelling server'
          now' later' = (first.1, Ok pools))
       /\ (MultiRewardsGQLClient.cacheTimeout c <= now' - later ->
           (MultiRewardsGQLClient.fetchStakingPoolsByToken first.1 spelling server'
              now' later').2
           = (MultiRewardsGQLClient.fetchStakingPoolsByToken c spelling server'
                now' later').2).
Proof.
  cbv zeta.
  assert (Hfirst :
    MultiRewardsGQLClient.fetchStakingPoolsByToken c stakingToken server now later
    = ({| MultiRewardsGQLClient.endpoint := MultiRewardsGQLClient.endpoint c;
          MultiRewardsGQLClient.apiKey := MultiRewardsGQLClient.apiKey c;
          MultiRewardsGQLClient.cache :=
            <[pool_key stakingToken := {| cached_data := pools;
                                          cached_timestamp := later |}]>
              (MultiRewardsGQLClient.cache c);
          MultiRewardsGQLClient.cacheTimeout := MultiRewardsGQLClient.cacheTimeout c |},
        Ok pools)).
  { unfold MultiRewardsGQLClient.fetchStakingPoolsByToken,
      MultiRewardsGQLClient.fetch_cached.
    change ("pools-" +++ JS.toLowerCase stakingToken) with (pool_key stakingToken).
    rewrite Hmiss.
    change {| operationName := "GetMRStakingPoolsByToken";
              variables := Some stakingToken;
              api_key_header := MultiRewardsGQLClient.api_key_of c |}
      with (pools_request c stakingToken).
    now rewrite Hreply. }
  rewrite Hfirst. cbn [fst snd]. split; [reflexivity|].
  intros spelling server' now' later' Hcase.
  unfold MultiRewardsGQLClient.fetchStakingPoolsByToken,
    MultiRewardsGQLClient.fetch_cached.
  rewrite Hcase.
  change ("pools-" +++ JS.toLowerCase stakingToken) with (pool_key stakingToken).
  cbn [MultiRewardsGQLClient.cache MultiRewardsGQLClient.cacheTimeout
       MultiRewardsGQLClient.endpoint MultiRewardsGQLClient.apiKey].
  rewrite lookup_insert_eq, Hmiss. cbn [cached_timestamp cached_data].
  split.
  - intros Hfresh.
    destruct (Z.ltb_spec (now' - later) (MultiRewardsGQLClient.cacheTimeout c));
      [reflexivity|lia].
  - intros Hstale.
    destruct (Z.ltb_spec (now' - later) (MultiRewardsGQLClient.cacheTimeout c));
      [lia|].
    change (MultiRewardsGQLClient.api_key_of
              {| MultiRewardsGQLClient.endpoint := MultiRewardsGQLClient.endpoint c;
                 MultiRewardsGQLClient.apiKey := MultiRewardsGQLClient.apiKey c;
                 MultiRewardsGQLClient.cache :=
                   <[pool_key stakingToken := {| cached_data := pools;
                                                 cached_timestamp := later |}]>
                     (MultiRewardsGQLClient.cache c);
                 MultiRewardsGQLClient.cacheTimeout :=
                   MultiRewardsGQLClient.cacheTimeout c |})
      with (MultiRewardsGQLClient.api_key_of c).
    now destruct (server' (MultiRewardsGQLClient.endpoint c) _).
Qed.

Lemma pool_cache_serves_fresh_answers_witness :
  let pools := [ {| pool_id := "0xP1"; staking_token := "0xABC" |} ] in
  let c := MultiRewardsGQLClient.new (Some "key") None in
  let first :=
    MultiRewardsGQLClient.fetchStakingPoolsByToken c "0xABC" (always (Data pools))
      1000 1010 in
  MultiRewardsGQLClient.fetchStakingPoolsByToken first.1 "0xabc" (always HttpError)
    61009 61020 = (first.1, Ok pools).
Proof.
  cbv zeta.
  assert (Hfresh : 61009 - 1010
                   < MultiRewardsGQLClient.cacheTimeout
                       (MultiRewardsGQLClient.new (Some "key") None))
    by (vm_compute; reflexivity).
  exact (proj1 (proj2 (pool_cache_serves_fresh_answers
                         (MultiRewardsGQLClient.new (Some "key") None) "0xABC"
                         (always (Data [ {| pool_id := "0xP1";
                                            staking_token := "0xABC" |} ]))
                         1000 1010 _ eq_refl eq_refl)
                  "0xabc" (always HttpError) 61009 61020 eq_refl) Hfresh).
Defined.

(** ** Vault metadata *)

Section VaultMetadataLookup.

Lemma find_map_filter {A B} (f : A -> B) (q : A -> bool) (p : B -> bool) (l : list A) :
  List.find p (map f (List.filter q l))
  = option_map f (List.find (fun x => q x && p (f x)) l).
Proof.
  induction l as [|a l IH]; [reflexivity|].
  cbn [List.filter List.find]. destruct (q a); cbn [map List.find andb]; [|exact IH].
  destruct (p (f a)); [reflexivity|exact IH].
Qed.

End VaultMetadataLookup.

(** X29. A lookup of a vault by address on a client that has nothing
    cached for the chain returns the first item of the server's answer
    that is not hidden and whose address equals the given one up to
    letter case; a hidden vault is never found, and the letter case of
    the given address makes no difference. *)
Theorem vault_lookup_by_address (c : GraphQLClient.t) (chainId : Z)
    (vaultAddress : string)
    (server : string -> GraphQLRequest -> Reply (list CanopyMetadataItem))
    (now later : Z) (items : list CanopyMetadataItem)
    (Hmiss : GraphQLClient.cache c !! chain_key chainId = None)
    (Hreply : server (GraphQLClient.endpoint c) (metadata_request chainId) = Data items) :
  (GraphQLClient.fetchVaultByAddress c chainId vaultAddress server now later).2
  = Ok (option_map GraphQLClient.transformToVaultMetadata
          (List.find (listed_at vaultAddress) items))
  /\ (GraphQLClient.fetchVaultByAddress c chainId (JS.toLowerCase vaultAddress)
        server now later).2
     = (GraphQLClient.fetchVaultByAddress c chainId vaultAddress server now later).2
  /\ (forall v,
        (GraphQLClient.fetchVaultByAddress c chainId vaultAddress server now later).2
        = Ok (Some v) ->
        exists item,
          In item items /\ isHidden item <> Some true
          /\ v = GraphQLClient.transformToVaultMetadata item
          /\ JS.toLowerCase (address v) = JS.toLowerCase vaultAddress).
Proof.
  assert (Hlookup : forall given,
    (GraphQLClient.fetchVaultByAddress c chainId given server now later).2
    = Ok (option_map GraphQLClient.transformToVaultMetadata
            (List.find (listed_at given) items))).
  { intros given.
    unfold GraphQLClient.fetchVaultByAddress, GraphQLClient.fetchVaultMetadata.
    change ("chain-" +++ JS.toString chainId) with (chain_key chainId).
    rewrite Hmiss.
    change {| operationName := "GetCanopyMetadata";
              variables := Some (JS.toString chainId);
              api_key_header := None |}
      with (metadata_request chainId).
    rewrite Hreply. cbn [snd bind]. now rewrite find_map_filter. }
  split; [apply Hlookup|]. split.
  - rewrite !Hlookup. unfold listed_at. now rewrite lower_idempotent.
  - intros v. rewrite Hlookup. intros Hv. injection Hv as Hv.
    destruct (List.find (listed_at vaultAddress) items) as [item|] eqn:Hfind;
      [|discriminate].
    injection Hv as <-. apply List.find_some in Hfind as [Hin Hlisted].
    unfold listed_at in Hlisted. apply andb_prop in Hlisted as [Hshown Heq].
    exists item. split; [exact Hin|]. split; [|split; [reflexivity|]].
    + unfold GraphQLClient.shown in Hshown. intros Hh. now rewrite Hh in Hshown.
    + now apply String.eqb_eq in Heq.
Qed.

Lemma vault_lookup_by_address_witness :
  let items := [ sample_item "0xAB" (Some true); sample_item "0xaB" None;
                 sample_item "0xab" (Some false) ] in
  (GraphQLClient.fetchVaultByAddress (GraphQLClient.new None) 126 "0xAb"
     (always (Data items)) 0 5).2
  = Ok (Some (GraphQLClient.transformToVaultMetadata (sample_item "0xaB" None))).
Proof.
  cbv zeta.
  rewrite (proj1 (vault_lookup_by_address (GraphQLClient.new None) 126 "0xAb"
                    (always (Data [ sample_item "0xAB" (Some true);
                                    sample_item "0xaB" None;
                                    sample_item "0xab" (Some false) ]))
                    0 5 _ eq_refl eq_refl)).
  reflexivity.
Defined.

(** ** Payloads without auto-detection *)

(** X30. The simple deposit payload asks for at least 99% of the amount
    in shares, rounded down, whereas the payload built by auto-detection
    always asks for a minimum of zero shares. *)
Theorem simple_deposit_min_shares (abis : Abis) (vaultAddress : string) (amount : Z)
    (strats : option (list string)) (packets : option (list (list byte)))
    (Hamount : 0 <= amount) :
  (exists m,
      min_shares_out
        (SimplePayloads.createSimpleDepositPayload abis vaultAddress amount strats packets)
      = Some (AStr (JS.toString m))
      /\ 100 * m <= 99 * amount < 100 * m + 100
      /\ 0 <= m <= amount)
  /\ forall vault allocation generated,
       min_shares_out
         (TransactionBuilder.createDepositPayload abis vault vaultAddress allocation
            generated amount)
       = Some (AStr "0").
Proof.
  split.
  - exists (Z.quot (amount * 99) 100). split; [reflexivity|].
    rewrite Z.quot_div_nonneg by lia.
    pose proof (Z.div_mod (amount * 99) 100 ltac:(lia)) as Hd.
    pose proof (Z.mod_pos_bound (amount * 99) 100 ltac:(lia)) as Hm.
    lia.
  - intros vault allocation generated.
    unfold TransactionBuilder.createDepositPayload, min_shares_out.
    destruct (TransactionBuilder.isEchelon vault); [reflexivity|].
    now destruct (PacketGenerator.createPacketArrays generated (Some allocation)).
Qed.

Lemma simple_deposit_min_shares_witness :
  min_shares_out
    (SimplePayloads.createSimpleDepositPayload sample_abis "0xV" 1050 None None)
  = Some (AStr "1039").
Proof.
  assert (Hamount : 0 <= 1050) by lia.
  destruct (simple_deposit_min_shares sample_abis "0xV" 1050 None None Hamount)
    as [(m & Hm & Hbound & _) _].
  rewrite Hm. do 2 f_equal.
  assert (m = 1039) as -> by lia. reflexivity.
Defined.
